(** * A shallow embedding of the Spotify client

    Two files of the repository are embedded:
    - [src/spotifyclient/client.py], the packaged client, which caches the
      access token on the instance ([access_token], [token_expires]);
    - [src/client.py], the earlier client, in [Module Legacy], which fetches
      a token on every call and keeps no cache.

    Python values are a small inductive type, dictionaries are association
    lists in insertion order, and every method is a function in a state and
    exception monad over the client instance, the outside world (clock and
    HTTP transport), the list of requests sent and the lines printed.
    Recursion on a retry flag and the loop over the pages of a search take
    fuel; lemmas show how much is enough.

    Numbers are integers (no floats), and the range of [datetime] is not
    bounded. The methods that no property below is about are left out:
    [parse_play_command], [get_current_device], [get_track_by_id],
    [get_user_currently_playing] and the [command_valid] of the earlier
    client. *)

From Stdlib Require Import ZArith List String Ascii Bool Lia DecimalString.
Import ListNotations.

Local Open Scope string_scope.
Local Open Scope Z_scope.
Local Set Warnings "-register-all".

(** ** Python values *)

(** The values the client handles: what [json] decoding produces, plus the
    [datetime] objects that [get_recently_played] stores into items.
    Numbers are integers; a [datetime] is its number of microseconds since
    the epoch. *)
Inductive value : Type :=
| VNone
| VBool (b : bool)
| VInt (n : Z)
| VStr (s : string)
| VList (l : list value)
| VDict (d : list (string * value))
| VDatetime (t : Z).

(** The exceptions that the embedded code can raise. [RequestException]
    stands for any failure of the transport itself. *)
Inductive exn : Type :=
| PermissionError
| KeyError
| TypeError
| AttributeError
| IndexError
| ValueError
| JSONDecodeError
| OverflowError
| RequestException.

(** The result of running a piece of code: a value, a raised exception, or
    the exhaustion of the fuel that bounds loops and recursion. *)
Inductive outcome (A : Type) : Type :=
| Ok (a : A)
| Raise (e : exn)
| OutOfFuel.

Arguments Ok {A} a.
Arguments Raise {A} e.
Arguments OutOfFuel {A}.

Definition obind {A B : Type} (o : outcome A) (f : A -> outcome B) : outcome B :=
  match o with
  | Ok a => f a
  | Raise e => Raise e
  | OutOfFuel => OutOfFuel
  end.

(** ** Dictionaries

    A Python [dict] keeps its keys in insertion order; assigning to a key
    that is present replaces the value in place, assigning to a new key
    appends. *)
Section Dict.
Context {K V : Type} (eqb : K -> K -> bool).

Fixpoint dict_get (k : K) (d : list (K * V)) : option V :=
  match d with
  | [] => None
  | (k', v) :: d' => if eqb k k' then Some v else dict_get k d'
  end.

Fixpoint dict_set (k : K) (v : V) (d : list (K * V)) : list (K * V) :=
  match d with
  | [] => [(k, v)]
  | (k', v') :: d' =>
      if eqb k k' then (k', v) :: d' else (k', v') :: dict_set k v d'
  end.
End Dict.

Definition pydict : Type := list (string * value).

Definition sget (k : string) (d : pydict) : option value := dict_get String.eqb k d.
Definition sset (k : string) (v : value) (d : pydict) : pydict := dict_set String.eqb k v d.

(** A dictionary with integer keys and dictionaries as values: the device
    listing and the result set of a search category. *)
Definition resultset : Type := list (Z * pydict).

Definition iget (k : Z) (d : resultset) : option pydict := dict_get Z.eqb k d.
Definition iset (k : Z) (v : pydict) (d : resultset) : resultset := dict_set Z.eqb k v d.

(** [len(results)] *)
Definition len (d : resultset) : Z := Z.of_nat (List.length d).

(** [results[index][k] = v]: the inner dictionary is changed in place. *)
Definition set_field (index : Z) (k : string) (v : value) (d : resultset) : outcome resultset :=
  match iget index d with
  | Some entry => Ok (iset index (sset k v entry) d)
  | None => Raise KeyError
  end.

(** [needle in hay] on two strings. *)
Fixpoint str_contains (needle hay : string) : bool :=
  if String.prefix needle hay then true
  else match hay with
       | EmptyString => false
       | String _ rest => str_contains needle rest
       end.

Fixpoint chars (s : string) : list value :=
  match s with
  | EmptyString => []
  | String c rest => VStr (String c EmptyString) :: chars rest
  end.

Definition is_str (k : string) (v : value) : bool :=
  match v with
  | VStr s => String.eqb s k
  | _ => false
  end.

(** [v[k]] for a string key [k]. *)
Definition getitem (v : value) (k : string) : outcome value :=
  match v with
  | VDict d => match sget k d with
               | Some x => Ok x
               | None => Raise KeyError
               end
  | _ => Raise TypeError
  end.

(** [v[0]] *)
Definition getitem0 (v : value) : outcome value :=
  match v with
  | VList (x :: _) => Ok x
  | VList [] => Raise IndexError
  | VStr (String c _) => Ok (VStr (String c EmptyString))
  | VStr EmptyString => Raise IndexError
  | VDict _ => Raise KeyError
  | _ => Raise TypeError
  end.

(** [v[k] = x] for a string key [k]: the value after the assignment. *)
Definition setitem (v : value) (k : string) (x : value) : outcome value :=
  match v with
  | VDict d => Ok (VDict (sset k x d))
  | _ => Raise TypeError
  end.

(** [k in v] for a string [k]. *)
Definition contains (k : string) (v : value) : outcome bool :=
  match v with
  | VDict d => Ok (match sget k d with Some _ => true | None => false end)
  | VList l => Ok (existsb (is_str k) l)
  | VStr s => Ok (str_contains k s)
  | _ => Raise TypeError
  end.

(** [v.get(k, default)]: only dictionaries have the method. *)
Definition dict_get_default (v : value) (k : string) (default : value) : outcome value :=
  match v with
  | VDict d => Ok (match sget k d with Some x => x | None => default end)
  | _ => Raise AttributeError
  end.

(** Truth value of [v] in a condition. *)
Definition truthy (v : value) : bool :=
  match v with
  | VNone => false
  | VBool b => b
  | VInt n => negb (n =? 0)
  | VStr s => negb (String.eqb s "")
  | VList l => match l with [] => false | _ => true end
  | VDict d => match d with [] => false | _ => true end
  | VDatetime _ => true
  end.

(** The items a [for] loop over [v] visits. *)
Definition py_iter (v : value) : outcome (list value) :=
  match v with
  | VList l => Ok l
  | VDict d => Ok (map (fun kv => VStr (fst kv)) d)
  | VStr s => Ok (chars s)
  | _ => Raise TypeError
  end.

(** [v] used as a number: [bool] is a subclass of [int]. *)
Definition as_int (v : value) : outcome Z :=
  match v with
  | VInt n => Ok n
  | VBool b => Ok (if b then 1 else 0)
  | _ => Raise TypeError
  end.

(** [a + b] on two strings; anything else of the operands the client
    concatenates is a [TypeError]. *)
Definition str_add (a b : value) : outcome value :=
  match a, b with
  | VStr x, VStr y => Ok (VStr (x ++ y))
  | _, _ => Raise TypeError
  end.

(** [sep.join(l)]: every element has to be a string. *)
Fixpoint join (sep : string) (l : list value) : outcome string :=
  match l with
  | [] => Ok ""
  | [VStr s] => Ok s
  | VStr s :: rest => obind (join sep rest) (fun t => Ok (s ++ sep ++ t))
  | _ :: _ => Raise TypeError
  end.

Definition string_of_Z (n : Z) : string := NilZero.string_of_int (Z.to_int n).

Definition dquote : string := String "034"%char EmptyString.

(** ** The extractors of [search_tracks]

    The three functions local to [search_tracks]. Each one changes the
    result set that it is given; here it returns the changed result set. *)

(** [for artist in artists: artist_names.append(artist['name'])] *)
Fixpoint names_of (artists : list value) : outcome (list value) :=
  match artists with
  | [] => Ok []
  | artist :: rest =>
      obind (getitem artist "name") (fun name =>
      obind (names_of rest) (fun artist_names => Ok (name :: artist_names)))
  end.

Definition extract_artist (artist : value) (results : resultset) : outcome resultset :=
  let index := len results in
  obind (getitem artist "name") (fun name =>
  obind (getitem artist "uri") (fun uri =>
  let results := iset index [] results in
  obind (set_field index "name" name results) (fun results =>
  set_field index "uri" uri results))).

Definition extract_album (album : value) (results : resultset) : outcome resultset :=
  let index := len results in
  obind (getitem album "name") (fun name =>
  obind (getitem album "uri") (fun uri =>
  obind (getitem album "artists") (fun artists =>
  obind (py_iter artists) (fun l =>
  obind (names_of l) (fun artist_names =>
  let results := iset index [] results in
  obind (str_add name (VStr "(")) (fun s1 =>
  obind (join ", " artist_names) (fun joined =>
  obind (str_add s1 (VStr (joined ++ ")"))) (fun display_name =>
  obind (set_field index "display_name" display_name results) (fun results =>
  obind (set_field index "name" name results) (fun results =>
  set_field index "uri" uri results)))))))))).

Definition extract_track (track : value) (results : resultset) : outcome resultset :=
  let index := len results in
  obind (getitem track "name") (fun name =>
  obind (getitem track "uri") (fun uri =>
  obind (getitem track "artists") (fun artists =>
  obind (py_iter artists) (fun l =>
  obind (names_of l) (fun artist_names =>
  obind (getitem track "album") (fun album =>
  obind (getitem album "name") (fun album_name =>
  let results := iset index [] results in
  obind (str_add name (VStr " (")) (fun s1 =>
  obind (str_add s1 album_name) (fun s2 =>
  obind (str_add s2 (VStr " by ")) (fun s3 =>
  obind (join ", " artist_names) (fun joined =>
  obind (str_add s3 (VStr (joined ++ ")"))) (fun display_name =>
  obind (set_field index "display_name" display_name results) (fun results =>
  obind (set_field index "name" name results) (fun results =>
  set_field index "uri" uri results)))))))))))))).

(** [for item in items: extract_method(item, results)] *)
Fixpoint extract_items (extract_method : value -> resultset -> outcome resultset)
    (items : list value) (results : resultset) : outcome resultset :=
  match items with
  | [] => Ok results
  | item :: rest =>
      obind (extract_method item results) (extract_items extract_method rest)
  end.

(** The condition of the loop of [extract_data],
    [next_items and len(next_items) > 0]: only strings, lists and
    dictionaries have a length. *)
Definition has_next (next_items : value) : outcome bool :=
  if truthy next_items then
    match next_items with
    | VStr _ | VList _ | VDict _ => Ok true
    | _ => Raise TypeError
    end
  else Ok false.

(** The second component of what [get_available_devices] and
    [get_recently_played] return: [None], the device listing, the items of
    the history as received (with two fields added), or one row per item. *)
Inductive row : Type :=
| RowDict (d : pydict)
| RowTuple (l : list value).

Inductive listing : Type :=
| NoListing
| Devices (d : resultset)
| Items (v : value)
| Rows (l : list row).

(** What [search_tracks] returns when the search succeeds. *)
Record SearchResults : Type := mkSearchResults {
  artists : resultset;
  albums : resultset;
  tracks : resultset
}.

(** ** HTTP *)

Inductive verb : Type := GET | POST | PUT.

Record Request : Type := mkRequest {
  req_verb : verb;
  req_url : string;
  req_headers : list (string * string);
  req_params : option pydict;
  req_json : option pydict
}.

(** A response: [json] is the decoded body, [None] when the body is not
    JSON (then [r.json()] and [json.loads(r.content)] raise). *)
Record Response : Type := mkResponse {
  status_code : Z;
  text : string;
  json : option value
}.

(** [Response.ok] of the requests library: [raise_for_status] raises for a
    status in 400..599, and [ok] is true when it does not. *)
Definition ok (r : Response) : bool :=
  negb ((400 <=? status_code r) && (status_code r <? 600)).

Definition BASE_URL : string := "https://api.spotify.com/v1".
Definition AUTH_PATH : string := "/api/token".
Definition PLAYER_PATH : string := "/me/player".
Definition TRACKS_PATH : string := "/tracks".

Definition METHODS : list (string * verb) :=
  [("get", GET); ("post", POST); ("put", PUT)].

(** ** The outside world *)

(** What the client does not implement itself: the clock, the transport
    (which answers with a response or fails), and the library functions for
    base64, for printing a container and for parsing and printing dates. *)
Class Runtime : Type := {
  World : Type;
  utcnow : World -> Z;
  send : Request -> World -> option Response * World;
  b64encode : string -> string;
  repr : value -> string;
  strptime : value -> outcome Z;
  strftime : Z -> outcome string
}.

(** [str(v)], as an f-string formats [v]. *)
Definition py_str `{Runtime} (v : value) : string :=
  match v with
  | VNone => "None"
  | VBool true => "True"
  | VBool false => "False"
  | VInt n => string_of_Z n
  | VStr s => s
  | _ => repr v
  end.

(** ** Commands typed by a user *)

(** [s.split(' ')]: the pieces between single spaces; there is always at
    least one piece, and two spaces in a row give an empty piece. *)
Fixpoint split_space (s : string) : list string :=
  match s with
  | EmptyString => [EmptyString]
  | String c rest =>
      if Ascii.eqb c " "%char then EmptyString :: split_space rest
      else match split_space rest with
           | piece :: pieces => String c piece :: pieces
           | [] => [String c EmptyString]
           end
  end.

(** [v.lower()]: only strings have the method. [lower] is [str.lower]. *)
Definition py_lower (lower : string -> string) (v : value) : outcome string :=
  match v with
  | VStr s => Ok (lower s)
  | _ => Raise AttributeError
  end.

(** One loop of [parse_play_command] over a category of the results:
    the uri of the first entry whose name, in lower case, is the search
    term in lower case. *)
Fixpoint first_match (lower : string -> string) (search_term : string) (found : resultset)
    : outcome (option value) :=
  match found with
  | [] => Ok None
  | (_, result) :: rest =>
      obind (getitem (VDict result) "name") (fun name =>
      obind (py_lower lower name) (fun lowered =>
        if String.eqb lowered (lower search_term) then
          obind (getitem (VDict result) "uri") (fun uri => Ok (Some uri))
        else first_match lower search_term rest))
  end.

(** The search type and the search term that [parse_play_command] reads
    from the pieces after the first one. *)
Definition search_words (second : string) (rest : list string) : value * string :=
  match rest with
  | [] => (VStr "artist,album,track", second)
  | _ =>
      if existsb (String.eqb second) ["artist"; "album"; "track"] then
        (VList [VStr second], String.concat " " rest)
      else (VStr "artist,album,track", String.concat " " (second :: rest))
  end.

(** The loop of [get_current_device] over the devices. *)
Fixpoint find_active (devices : list value) : outcome (value * value) :=
  match devices with
  | [] => Ok (VStr "No active devices", VNone)
  | device :: rest =>
      obind (getitem device "is_active") (fun is_active =>
        if truthy is_active then obind (getitem device "id") (fun id => Ok (VNone, id))
        else find_active rest)
  end.

(** ** The monad *)

Section Monad.
Context `{RT : Runtime} {I : Type}.

(** A state: the client instance, the world, the requests sent so far
    (oldest first) and the lines printed so far (oldest first). *)
Record State : Type := mkState {
  self : I;
  world : World;
  sent : list Request;
  stdout : list string
}.

Definition M (A : Type) : Type := State -> outcome A * State.

Definition ret {A : Type} (a : A) : M A := fun s => (Ok a, s).

Definition raise {A : Type} (e : exn) : M A := fun s => (Raise e, s).

Definition out_of_fuel {A : Type} : M A := fun s => (OutOfFuel, s).

Definition lift {A : Type} (o : outcome A) : M A := fun s => (o, s).

Definition bind {A B : Type} (m : M A) (f : A -> M B) : M B :=
  fun s =>
    match m s with
    | (Ok a, s') => f a s'
    | (Raise e, s') => (Raise e, s')
    | (OutOfFuel, s') => (OutOfFuel, s')
    end.

Notation "x <- m ;; k" := (bind m (fun x => k))
  (at level 100, m at next level, right associativity).
Notation "m ;;; k" := (bind m (fun _ => k))
  (at level 100, right associativity).

Definition get_self : M I := fun s => (Ok (self s), s).

Definition set_self (c : I) : M unit :=
  fun s => (Ok tt, mkState c (world s) (sent s) (stdout s)).

(** [datetime.utcnow()] *)
Definition now : M Z := fun s => (Ok (utcnow (world s)), s).

(** [print(line)] *)
Definition print (line : string) : M unit :=
  fun s => (Ok tt, mkState (self s) (world s) (sent s) (stdout s ++ [line])).

(** One call of [requests.get], [requests.post] or [requests.put]: the
    request is recorded, the world answers. *)
Definition request (q : Request) : M Response :=
  fun s =>
    let (answer, w) := send q (world s) in
    let s' := mkState (self s) w (sent s ++ [q]) (stdout s) in
    match answer with
    | Some r => (Ok r, s')
    | None => (Raise RequestException, s')
    end.

(** [r.json()], and [json.loads(r.content)] in the earlier client. *)
Definition json_of (r : Response) : M value :=
  match json r with
  | Some v => ret v
  | None => raise JSONDecodeError
  end.

(** The two lines that report a failed search or page:
    [error = r.json()['error']] and
    [print('Error getting results: ' + error['message'])]. *)
Definition report_error (r : Response) : M unit :=
  body <- json_of r ;;
  error <- lift (getitem body "error") ;;
  message <- lift (getitem error "message") ;;
  line <- lift (str_add (VStr "Error getting results: ") message) ;;
  print (py_str line).

(** [requests.get(next_items, headers=headers)]: an address that is not
    a string is refused before anything is sent. *)
Definition get_page (next_items : value) (headers : list (string * string)) : M Response :=
  match next_items with
  | VStr url => request {| req_verb := GET;
                           req_url := url;
                           req_headers := headers;
                           req_params := None;
                           req_json := None |}
  | _ => raise RequestException
  end.

(** *** Paging

    [extract_data] reads the same in both clients, up to the way the body
    of a response is decoded; [api_headers] is the [_get_api_headers] of
    the client at hand. *)
Section Paging.
Variable api_headers : M (list (string * string)).

(** The [while] loop of [extract_data]; [fuel] bounds the number of pages
    fetched. *)
Fixpoint follow_pages (fuel : nat) (field : string)
    (extract_method : value -> resultset -> outcome resultset)
    (next_items : value) (results : resultset) : M resultset :=
  continue <- lift (has_next next_items) ;;
  if continue then
    match fuel with
    | O => out_of_fuel
    | S fuel' =>
        headers <- api_headers ;;
        r <- get_page next_items headers ;;
        if negb (status_code r =? 200) then
          report_error r ;;;
          ret results
        else
          body <- json_of r ;;
          data <- lift (getitem body field) ;;
          items <- lift (getitem data "items") ;;
          l <- lift (py_iter items) ;;
          results <- lift (extract_items extract_method l results) ;;
          next_items <- lift (getitem data "next") ;;
          follow_pages fuel' field extract_method next_items results
    end
  else ret results.

Definition paged_extract (fuel : nat) (field : string) (data : value) (all_pages : bool)
    (extract_method : value -> resultset -> outcome resultset) : M resultset :=
  let results := [] in
  items <- lift (getitem data "items") ;;
  l <- lift (py_iter items) ;;
  results <- lift (extract_items extract_method l results) ;;
  next_items <- lift (getitem data "next") ;;
  if all_pages then follow_pages fuel field extract_method next_items results
  else ret results.

End Paging.

End Monad.

Arguments State {RT} I.
Arguments M {RT} I A.

Declare Scope monad_scope.
Delimit Scope monad_scope with monad.
Notation "x <- m ;; k" := (bind m (fun x => k))
  (at level 100, m at next level, right associativity) : monad_scope.
Notation "m ;;; k" := (bind m (fun _ => k))
  (at level 100, right associativity) : monad_scope.
Local Open Scope monad_scope.

(** ** The packaged client, [src/spotifyclient/client.py] *)

(** The fields that [__init__] sets. [access_token] starts as [None];
    [token_expires] is [None] or a [datetime]. *)
Record Spotify : Type := mkSpotify {
  client_id : string;
  client_secret : string;
  refresh_token : option string;
  access_token : value;
  token_expires : option Z
}.

Definition init (client_id client_secret : string) (refresh_token : option string) : Spotify :=
  {| client_id := client_id;
     client_secret := client_secret;
     refresh_token := refresh_token;
     access_token := VNone;
     token_expires := None |}.

Section Client.
Context `{RT : Runtime}.

Local Abbreviation M := (M Spotify).

(** [self.access_token = v] *)
Definition set_access_token (v : value) : M unit :=
  c <- get_self ;;
  set_self (mkSpotify (client_id c) (client_secret c) (refresh_token c)
                      v (token_expires c)).

(** [self.token_expires = t] *)
Definition set_token_expires (t : option Z) : M unit :=
  c <- get_self ;;
  set_self (mkSpotify (client_id c) (client_secret c) (refresh_token c)
                      (access_token c) t).

(** An instant is a number of microseconds since [datetime.min], the
    first instant of the year 1; [datetime.max] is the last microsecond
    of the year 9999, 3652059 days later. A [timedelta] is a number of
    microseconds and spans at most 999999999 days either way. *)
Definition DATETIME_MAX : Z := 3652059 * 86400000000 - 1.

Definition MAX_DELTA_DAYS : Z := 999999999.

(** [timedelta(seconds=v)], in microseconds: [OverflowError] when the
    whole days of [v] seconds are more than [timedelta] can hold. *)
Definition timedelta_seconds (v : value) : outcome Z :=
  obind (as_int v) (fun n =>
    if Z.abs (n / 86400) <=? MAX_DELTA_DAYS then Ok (n * 1000000)
    else Raise OverflowError).

(** [t + delta] on a [datetime] and a [timedelta]: [OverflowError] when
    the sum is not a [datetime]. *)
Definition datetime_add (t delta : Z) : outcome Z :=
  if (0 <=? t + delta) && (t + delta <=? DATETIME_MAX) then Ok (t + delta)
  else Raise OverflowError.

(** *** AUTH *)

Definition AUTH_URL : string := "https://accounts.spotify.com" ++ AUTH_PATH.

Definition _get_base64_auth : M string :=
  c <- get_self ;;
  let client_combined := client_id c ++ ":" ++ client_secret c in
  ret (b64encode client_combined).

Definition _get_generic_auth_params : pydict :=
  [("grant_type", VStr "client_credentials")].

Definition _get_user_auth_params : M pydict :=
  c <- get_self ;;
  match refresh_token c with
  | None => raise PermissionError
  | Some rt =>
      ret [("grant_type", VStr "refresh_token"); ("refresh_token", VStr rt)]
  end.

(** [self.access_token is not None and self.token_expires > datetime.utcnow()] *)
Definition token_cached : M bool :=
  c <- get_self ;;
  match access_token c with
  | VNone => ret false
  | _ =>
      match token_expires c with
      | None => raise TypeError
      | Some expires => t <- now ;; ret (t <? expires)
      end
  end.

Definition auth_request (b64 : string) (auth_params : pydict) : Request :=
  {| req_verb := POST;
     req_url := AUTH_URL;
     req_headers := [("Authorization", "Basic " ++ b64);
                     ("Content-Type", "application/x-www-form-urlencoded")];
     req_params := Some auth_params;
     req_json := None |}.

Definition _get_access_token (auth_params : pydict) : M (value * option Z) :=
  cached <- token_cached ;;
  if cached then
    c <- get_self ;;
    ret (access_token c, token_expires c)
  else
    b64 <- _get_base64_auth ;;
    r <- request (auth_request b64 auth_params) ;;
    if (200 <=? status_code r) && (status_code r <? 400) then
      response_auth <- json_of r ;;
      present <- lift (contains "access_token" response_auth) ;;
      if present then
        token <- lift (getitem response_auth "access_token") ;;
        set_access_token token ;;;
        t <- now ;;
        expires_in <- lift (getitem response_auth "expires_in") ;;
        delta <- lift (timedelta_seconds expires_in) ;;
        expires <- lift (datetime_add t delta) ;;
        set_token_expires (Some expires) ;;;
        c <- get_self ;;
        ret (access_token c, token_expires c)
      else ret (VNone, None)
    else ret (VNone, None).

Definition _get_generic_access_token : M value :=
  p <- _get_access_token _get_generic_auth_params ;;
  ret (fst p).

Definition _get_user_access_token : M value :=
  auth_params <- _get_user_auth_params ;;
  p <- _get_access_token auth_params ;;
  ret (fst p).

Definition _get_api_headers : M (list (string * string)) :=
  token <- _get_generic_access_token ;;
  ret [("Authorization", "Bearer " ++ py_str token)].

Definition get_user_api_headers : M (list (string * string)) :=
  token <- _get_user_access_token ;;
  ret [("Authorization", "Bearer " ++ py_str token)].

(** [refresh_user_access_token]: the refresh-token flow without a look at
    the cache. Nothing in the file calls it. It returns the pair of the
    new token and its expiry, or [None]. *)
Definition refresh_user_access_token : M (option (value * option Z)) :=
  c <- get_self ;;
  match refresh_token c with
  | None => raise PermissionError
  | Some rt =>
      b64 <- _get_base64_auth ;;
      let auth_params := [("refresh_token", VStr rt); ("grant_type", VStr "refresh_token")] in
      r <- request (auth_request b64 auth_params) ;;
      if (200 <=? status_code r) && (status_code r <? 400) then
        response_auth <- json_of r ;;
        present <- lift (contains "access_token" response_auth) ;;
        if present then
          token <- lift (getitem response_auth "access_token") ;;
          set_access_token token ;;;
          t <- now ;;
          expires_in <- lift (getitem response_auth "expires_in") ;;
          delta <- lift (timedelta_seconds expires_in) ;;
          expires <- lift (datetime_add t delta) ;;
          set_token_expires (Some expires) ;;;
          c <- get_self ;;
          ret (Some (access_token c, token_expires c))
        else ret None
      else ret None
  end.

(** *** API *)

(** [submit_command] calls itself once more after a 401; [depth] bounds
    the nesting of these calls. [submit_command] below starts it with 2,
    and [submit_command_depth] shows that no call needs more. *)
Fixpoint submit_command_rec (depth : nat) (method command : string)
    (additional_query_params additional_body_params : option pydict)
    (has_retried : bool) : M (bool * value) :=
  match depth with
  | O => out_of_fuel
  | S depth' =>
      match dict_get String.eqb method METHODS with
      | None => ret (false, VStr ("Unknown command type " ++ dquote ++ method ++ dquote))
      | Some requests_method =>
          let request_url := BASE_URL ++ PLAYER_PATH ++ "/" ++ command in
          headers <- get_user_api_headers ;;
          r <- request {| req_verb := requests_method;
                          req_url := request_url;
                          req_headers := headers;
                          req_params := additional_query_params;
                          req_json := additional_body_params |} ;;
          if (status_code r =? 401) && negb has_retried then
            submit_command_rec depth' method command
                               additional_query_params additional_body_params true
          else
            payload <- (if status_code r =? 204 then ret (VStr "Success") else json_of r) ;;
            ret (ok r, payload)
      end
  end.

Definition submit_command (method command : string)
    (additional_query_params additional_body_params : option pydict)
    (has_retried : bool) : M (bool * value) :=
  submit_command_rec 2 method command additional_query_params additional_body_params
                     has_retried.

Definition _get (command : string) (query_params data_params : option pydict) :=
  submit_command "get" command query_params data_params false.

Definition _post (command : string) (query_params data_params : option pydict) :=
  submit_command "post" command query_params data_params false.

Definition _put (command : string) (query_params data_params : option pydict) :=
  submit_command "put" command query_params data_params false.

(** *** VOLUME *)

(** The loop of [get_current_volume] over the devices. *)
Fixpoint find_volume (device_id : string) (devices : list value) : outcome value :=
  match devices with
  | [] => Ok VNone
  | device :: rest =>
      obind (getitem device "id") (fun id =>
        if is_str device_id id then getitem device "volume_percent"
        else find_volume device_id rest)
  end.

Definition get_current_volume (device_id : string) : M value :=
  p <- _get "devices" None None ;;
  let (result, devices_data) := p in
  if negb result then ret VNone
  else
    devices <- lift (getitem devices_data "devices") ;;
    l <- lift (py_iter devices) ;;
    lift (find_volume device_id l).

Definition set_device_volume (volume : Z) : M (bool * value) :=
  _put "volume" (Some [("volume_percent", VInt volume)]) None.

Definition change_volume (device_id : string) (change : Z) : M (bool * value) :=
  current_volume <- get_current_volume device_id ;;
  match current_volume with
  | VNone => ret (false, VStr "Failed to change volume: Error getting current volume")
  | _ =>
      v <- lift (as_int current_volume) ;;
      set_device_volume (Z.min (Z.max (v + change) 0) 100)
  end.

Definition increase_volume (device_id : string) := change_volume device_id 10.

Definition decrease_volume (device_id : string) := change_volume device_id (-10).

(** *** PLAYING *)

Definition start_playing (device_id : string) :=
  _put "play" (Some [("device_id", VStr device_id)]) None.

Definition resume_song (device_id : string) := start_playing device_id.

Definition pause_song (device_id : string) :=
  _put "pause" (Some [("device_id", VStr device_id)]) None.

Definition play_next_track (device_id : string) :=
  _post "next" (Some [("device_id", VStr device_id)]) None.

Definition play_previous_track (device_id : string) :=
  _post "previous" (Some [("device_id", VStr device_id)]) None.

Definition restart_track (device_id : string) :=
  _put "seek" (Some [("device_id", VStr device_id)]) (Some [("position_ms", VInt 0)]).

Definition play_song_by_uri (device_id uri : string) :=
  _put "play" (Some [("device_id", VStr device_id)]) (Some [("uris", VList [VStr uri])]).

Definition play_artist_by_uri (device_id uri : string) :=
  _put "play" (Some [("device_id", VStr device_id)]) (Some [("context_uri", VStr uri)]).

Definition play_album_by_uri (device_id uri : string) :=
  _put "play" (Some [("device_id", VStr device_id)]) (Some [("context_uri", VStr uri)]).

(** *** Devices and history *)

(** The loop of [get_available_devices]: [index] is the position that
    [enumerate] gives to the first device of [devices]. *)
Fixpoint number_devices (index : Z) (devices : list value) (returned_devices : resultset)
    : outcome resultset :=
  match devices with
  | [] => Ok returned_devices
  | device :: rest =>
      obind (getitem device "name") (fun name =>
      obind (getitem device "id") (fun id =>
        number_devices (index + 1) rest
          (iset (index + 1) [("name", name); ("id", id)] returned_devices)))
  end.

Definition devices_request (headers : list (string * string)) : Request :=
  {| req_verb := GET;
     req_url := BASE_URL ++ PLAYER_PATH ++ "/devices";
     req_headers := headers;
     req_params := None;
     req_json := None |}.

(** As for [submit_command], [depth] bounds the nesting of the calls of
    [get_available_devices] to itself. *)
Fixpoint get_available_devices_rec (depth : nat) (has_retried : bool) : M (value * listing) :=
  match depth with
  | O => out_of_fuel
  | S depth' =>
      headers <- get_user_api_headers ;;
      r <- request (devices_request headers) ;;
      if status_code r =? 401 then
        if negb has_retried then get_available_devices_rec depth' true
        else
          ret (VStr ("Failed to refresh access: Type: " ++ dquote ++ "get" ++ dquote
                     ++ " | Command: " ++ dquote ++ "devices" ++ dquote
                     ++ " | Code: " ++ string_of_Z (status_code r) ++ " "
                     ++ "| Text: " ++ text r),
               NoListing)
      else
        body <- json_of r ;;
        devices <- lift (getitem body "devices") ;;
        l <- lift (py_iter devices) ;;
        returned_devices <- lift (number_devices 0 l []) ;;
        ret (VNone, Devices returned_devices)
  end.

Definition get_available_devices (has_retried : bool) : M (value * listing) :=
  get_available_devices_rec 2 has_retried.

(** The first loop of [get_recently_played], for [all_data]: two fields
    are added to an item. *)
Definition annotate_item (recent_item : value) : outcome value :=
  obind (getitem recent_item "played_at") (fun played_at =>
  obind (strptime played_at) (fun played_at_datetime =>
  obind (setitem recent_item "played_at_datetime" (VDatetime played_at_datetime))
    (fun recent_item =>
  obind (strftime played_at_datetime) (fun played_at_friendly =>
    setitem recent_item "played_at_friendly" (VStr played_at_friendly))))).

Fixpoint annotate_items (items : list value) : outcome (list value) :=
  match items with
  | [] => Ok []
  | recent_item :: rest =>
      obind (annotate_item recent_item) (fun item =>
      obind (annotate_items rest) (fun rest' => Ok (item :: rest')))
  end.

(** The second loop: one row per item. *)
Definition recent_row (as_json : bool) (recent_item : value) : outcome row :=
  obind (getitem recent_item "track") (fun track =>
  obind (getitem track "artists") (fun track_artists =>
  obind (getitem0 track_artists) (fun artist =>
  obind (getitem artist "name") (fun artist_name =>
  obind (getitem track "name") (fun track_name =>
  obind (getitem track "album") (fun album =>
  obind (getitem album "name") (fun album_name =>
  obind (getitem track "preview_url") (fun preview_url =>
  obind (getitem recent_item "played_at") (fun played_at =>
  obind (strptime played_at) (fun played_at_datetime =>
  obind (strftime played_at_datetime) (fun played_at_friendly =>
  obind (getitem album "images") (fun images =>
  obind (getitem0 images) (fun image =>
  obind (getitem image "url") (fun album_image_url =>
    if as_json then
      Ok (RowDict [("artist_name", artist_name);
                   ("track_name", track_name);
                   ("album_name", album_name);
                   ("played_at_friendly", VStr played_at_friendly);
                   ("preview_url", preview_url);
                   ("album_image_url", album_image_url)])
    else
      Ok (RowTuple [artist_name; track_name; album_name; VStr played_at_friendly;
                    preview_url; album_image_url]))))))))))))))).

Fixpoint recent_rows (as_json : bool) (items : list value) : outcome (list row) :=
  match items with
  | [] => Ok []
  | recent_item :: rest =>
      obind (recent_row as_json recent_item) (fun r =>
      obind (recent_rows as_json rest) (fun rest' => Ok (r :: rest')))
  end.

Definition recently_played_request (headers : list (string * string)) : Request :=
  {| req_verb := GET;
     req_url := BASE_URL ++ PLAYER_PATH ++ "/recently-played";
     req_headers := headers;
     req_params := None;
     req_json := None |}.

Definition get_recently_played (as_json all_data : bool) : M (value * listing) :=
  headers <- get_user_api_headers ;;
  r <- request (recently_played_request headers) ;;
  let has_retried := false in
  if status_code r =? 401 then
    if negb has_retried then get_available_devices true
    else ret (VStr ("Unauthorised | Code: " ++ string_of_Z (status_code r)), NoListing)
  else
    recent_data <- json_of r ;;
    if all_data then
      items <- lift (getitem recent_data "items") ;;
      l <- lift (py_iter items) ;;
      l' <- lift (annotate_items l) ;;
      ret (VNone, Items (match items with VList _ => VList l' | _ => items end))
    else
      items <- lift (getitem recent_data "items") ;;
      l <- lift (py_iter items) ;;
      recent_items <- lift (recent_rows as_json l) ;;
      ret (VNone, Rows recent_items).

(** *** SEARCH *)

Definition extract_data (fuel : nat) (field : string) (data : value) (all_pages : bool)
    (extract_method : value -> resultset -> outcome resultset) : M resultset :=
  paged_extract _get_api_headers fuel field data all_pages extract_method.

(** The [q] parameter of the search. *)
Definition search_query (search_term : string) (types : value) (exact_match : bool)
    : outcome string :=
  if exact_match then
    obind (py_iter types) (fun l =>
      join " " (map (fun t => VStr (py_str t ++ ":" ++ search_term)) l))
  else Ok search_term.

Definition search_request (q : string) (types : value) (limit : Z)
    (headers : list (string * string)) : Request :=
  {| req_verb := GET;
     req_url := BASE_URL ++ "/search";
     req_headers := headers;
     req_params := Some [("q", VStr q); ("type", types); ("limit", VInt limit)];
     req_json := None |}.

(** One category of the answer: the result set stays empty when the
    category is absent or empty. *)
Definition extract_category (fuel : nat) (field : string) (category_data : value)
    (all_pages : bool) (extract_method : value -> resultset -> outcome resultset)
    : M resultset :=
  if truthy category_data then
    extract_data fuel field category_data all_pages extract_method
  else ret [].

Definition search_tracks (fuel : nat) (search_term : string) (types : value) (limit : Z)
    (exact_match all_pages : bool) : M (option SearchResults) :=
  q <- lift (search_query search_term types exact_match) ;;
  headers <- _get_api_headers ;;
  r <- request (search_request q types limit headers) ;;
  if negb (status_code r =? 200) then
    report_error r ;;;
    ret None
  else
    results_data <- json_of r ;;
    artists_data <- lift (dict_get_default results_data "artists" (VList [])) ;;
    albums_data <- lift (dict_get_default results_data "albums" (VList [])) ;;
    tracks_data <- lift (dict_get_default results_data "tracks" (VList [])) ;;
    found_artists <- extract_category fuel "artists" artists_data all_pages extract_artist ;;
    found_albums <- extract_category fuel "albums" albums_data all_pages extract_album ;;
    found_tracks <- extract_category fuel "tracks" tracks_data all_pages extract_track ;;
    ret (Some {| artists := found_artists; albums := found_albums; tracks := found_tracks |}).

Definition do_search (fuel : nat) (search_term : string) (search_type : value)
    (exact_match : bool) : M (option SearchResults) :=
  search_tracks fuel search_term search_type 50 exact_match false.

(** *** Further methods *)

Definition get_track_by_id (track_id : string) : M (value * value) :=
  let tracks_full_url := BASE_URL ++ TRACKS_PATH ++ "/" ++ track_id in
  headers <- _get_api_headers ;;
  r <- request {| req_verb := GET;
                  req_url := tracks_full_url;
                  req_headers := headers;
                  req_params := None;
                  req_json := None |} ;;
  body <- json_of r ;;
  ret (VNone, body).

(** As for [submit_command], [depth] bounds the nesting of the calls of
    [get_current_device] to itself. *)
Fixpoint get_current_device_rec (depth : nat) (has_retried : bool) : M (value * value) :=
  match depth with
  | O => out_of_fuel
  | S depth' =>
      headers <- get_user_api_headers ;;
      r <- request (devices_request headers) ;;
      if status_code r =? 401 then
        if negb has_retried then get_current_device_rec depth' true
        else
          ret (VStr ("Failed to get current device| Code: " ++ string_of_Z (status_code r)),
               VNone)
      else
        body <- json_of r ;;
        devices <- lift (getitem body "devices") ;;
        l <- lift (py_iter devices) ;;
        lift (find_active l)
  end.

Definition get_current_device (has_retried : bool) : M (value * value) :=
  get_current_device_rec 2 has_retried.

(** [play_artist_by_uri] and [play_album_by_uri], and [play_song_by_uri],
    for a uri that is any value: [parse_play_command] passes on what it
    finds in the results. *)
Definition play_context (device_id : string) (uri : value) : M (bool * value) :=
  _put "play" (Some [("device_id", VStr device_id)]) (Some [("context_uri", uri)]).

Definition play_uris (device_id : string) (uri : value) : M (bool * value) :=
  _put "play" (Some [("device_id", VStr device_id)]) (Some [("uris", VList [uri])]).

(** [parse_play_command] from the test of [results] on: the three loops
    over the artists, the albums and the tracks that were found, and the
    last line. [lower] is [str.lower]. *)
Definition play_first_match (lower : string -> string) (device_id : string)
    (search_type : value) (search_term : string) (results : option SearchResults)
    : M (bool * value) :=
  match results with
  | None => ret (false, VStr "Failed to get any search results")
  | Some results =>
      artist <- lift (first_match lower search_term (artists results)) ;;
      match artist with
      | Some uri => play_context device_id uri
      | None =>
          album <- lift (first_match lower search_term (albums results)) ;;
          match album with
          | Some uri => play_context device_id uri
          | None =>
              track <- lift (first_match lower search_term (tracks results)) ;;
              match track with
              | Some uri => play_uris device_id uri
              | None =>
                  ret (false,
                       VStr ("No result found for " ++ py_str search_type
                             ++ " '" ++ search_term ++ "'"))
              end
          end
      end
  end.

(** [parse_play_command] up to the search, which [play_first_match]
    follows. [fuel] is for the search. *)
Definition parse_play_command (lower : string -> string) (fuel : nat)
    (device_id command : string) : M (bool * value) :=
  let parts := split_space command in
  match parts with
  | [] => raise IndexError
  | [_] => start_playing device_id
  | first :: second :: rest =>
      if negb (String.eqb (lower first) "play") then
        ret (false, VStr ("Invalid command: " ++ command))
      else
        let (search_type, search_term) := search_words second rest in
        results <- do_search fuel search_term search_type true ;;
        play_first_match lower device_id search_type search_term results
  end.

End Client.

(** ** The earlier client, [src/client.py] *)

Module Legacy.

(** The instance has no token fields: every call fetches a token. *)
Record Spotify : Type := mkSpotify {
  client_id : string;
  client_secret : string;
  refresh_token : option string
}.

Section Client.
Context `{RT : Runtime}.

Local Abbreviation M := (M Spotify).

Definition _get_base64_auth : M string :=
  c <- get_self ;;
  let client_combined := client_id c ++ ":" ++ client_secret c in
  ret (b64encode client_combined).

Definition _get_generic_auth_params : pydict :=
  [("grant_type", VStr "client_credentials")].

Definition _get_user_auth_params : M pydict :=
  c <- get_self ;;
  match refresh_token c with
  | None => raise PermissionError
  | Some rt =>
      ret [("grant_type", VStr "refresh_token"); ("refresh_token", VStr rt)]
  end.

Definition _get_access_token (auth_params : pydict) : M value :=
  b64 <- _get_base64_auth ;;
  r <- request (auth_request b64 auth_params) ;;
  if (200 <=? status_code r) && (status_code r <? 400) then
    response_auth <- json_of r ;;
    present <- lift (contains "access_token" response_auth) ;;
    if present then lift (getitem response_auth "access_token")
    else ret VNone
  else ret VNone.

Definition _get_generic_access_token : M value :=
  _get_access_token _get_generic_auth_params.

Definition _get_user_access_token : M value :=
  auth_params <- _get_user_auth_params ;;
  _get_access_token auth_params.

Definition _get_api_headers : M (list (string * string)) :=
  token <- _get_generic_access_token ;;
  ret [("Authorization", "Bearer " ++ py_str token)].

Definition get_user_api_headers : M (list (string * string)) :=
  token <- _get_user_access_token ;;
  ret [("Authorization", "Bearer " ++ py_str token)].

(** *** API *)

(** The message that [submit_command] returns. *)
Definition response_message (method command : string) (r : Response) : string :=
  let response_message :=
    "Method: " ++ method ++ " | Command: " ++ command
    ++ " | Code: " ++ string_of_Z (status_code r) in
  if negb (String.eqb (text r) "") then response_message ++ " | Message: " ++ text r
  else response_message.

Fixpoint submit_command_rec (depth : nat) (method command : string)
    (additional_query_params additional_body_params : option pydict)
    (has_retried : bool) : M (bool * string) :=
  match depth with
  | O => out_of_fuel
  | S depth' =>
      match dict_get String.eqb method METHODS with
      | None => ret (false, "Unknown command type " ++ dquote ++ method ++ dquote)
      | Some requests_method =>
          let request_url := BASE_URL ++ PLAYER_PATH ++ "/" ++ command in
          headers <- get_user_api_headers ;;
          r <- request {| req_verb := requests_method;
                          req_url := request_url;
                          req_headers := headers;
                          req_params := additional_query_params;
                          req_json := additional_body_params |} ;;
          if (status_code r =? 401) && negb has_retried then
            submit_command_rec depth' method command
                               additional_query_params additional_body_params true
          else
            ret (status_code r =? 204, response_message method command r)
      end
  end.

Definition submit_command (method command : string)
    (additional_query_params additional_body_params : option pydict)
    (has_retried : bool) : M (bool * string) :=
  submit_command_rec 2 method command additional_query_params additional_body_params
                     has_retried.

Definition _get (command : string) (query_params data_params : option pydict) :=
  submit_command "get" command query_params data_params false.

Definition _post (command : string) (query_params data_params : option pydict) :=
  submit_command "post" command query_params data_params false.

Definition _put (command : string) (query_params data_params : option pydict) :=
  submit_command "put" command query_params data_params false.

(** *** VOLUME *)

(** [response = self._get('devices')] is a pair, and [response.success]
    is an attribute that a pair does not have. *)
Definition get_current_volume (device_id : string) : M value :=
  response <- _get "devices" None None ;;
  raise AttributeError.

Definition set_device_volume (volume : Z) : M (bool * string) :=
  _put "volume" (Some [("volume_percent", VInt volume)]) None.

Definition change_volume (device_id : string) (change : Z) : M (bool * string) :=
  current_volume <- get_current_volume device_id ;;
  match current_volume with
  | VNone => ret (false, "Failed to change volume: Error getting current volume")
  | _ =>
      v <- lift (as_int current_volume) ;;
      set_device_volume (Z.min (Z.max (v + change) 0) 100)
  end.

(** *** Devices and history *)

Fixpoint get_available_devices_rec (depth : nat) (has_retried : bool) : M (value * listing) :=
  match depth with
  | O => out_of_fuel
  | S depth' =>
      headers <- get_user_api_headers ;;
      r <- request (devices_request headers) ;;
      if status_code r =? 401 then
        if negb has_retried then get_available_devices_rec depth' true
        else
          ret (VStr ("Failed to refresh access: Type: " ++ dquote ++ "get" ++ dquote
                     ++ " | Command: " ++ dquote ++ "devices" ++ dquote
                     ++ " | Code: " ++ string_of_Z (status_code r) ++ " "
                     ++ "| Text: " ++ text r),
               NoListing)
      else
        devices_data <- json_of r ;;
        devices <- lift (getitem devices_data "devices") ;;
        l <- lift (py_iter devices) ;;
        returned_devices <- lift (number_devices 0 l []) ;;
        ret (VNone, Devices returned_devices)
  end.

Definition get_available_devices (has_retried : bool) : M (value * listing) :=
  get_available_devices_rec 2 has_retried.

Definition get_recently_played (as_json : bool) : M (value * listing) :=
  headers <- get_user_api_headers ;;
  r <- request (recently_played_request headers) ;;
  let has_retried := false in
  if status_code r =? 401 then
    if negb has_retried then get_available_devices true
    else ret (VStr ("Unauthorised | Code: " ++ string_of_Z (status_code r)), NoListing)
  else
    recent_data <- json_of r ;;
    items <- lift (getitem recent_data "items") ;;
    l <- lift (py_iter items) ;;
    recent_items <- lift (recent_rows as_json l) ;;
    ret (VNone, Rows recent_items).

(** *** SEARCH *)

Definition extract_data (fuel : nat) (field : string) (data : value) (all_pages : bool)
    (extract_method : value -> resultset -> outcome resultset) : M resultset :=
  paged_extract _get_api_headers fuel field data all_pages extract_method.

Definition search_query (search_term : string) (exact_match : bool) : string :=
  if exact_match then dquote ++ search_term ++ dquote ++ " NOT Karaoke"
  else search_term.

Definition extract_category (fuel : nat) (field : string) (category_data : value)
    (all_pages : bool) (extract_method : value -> resultset -> outcome resultset)
    : M resultset :=
  if truthy category_data then
    extract_data fuel field category_data all_pages extract_method
  else ret [].

Definition search_tracks (fuel : nat) (search_term : string) (types : value) (limit : Z)
    (exact_match all_pages : bool) : M (option SearchResults) :=
  let q := search_query search_term exact_match in
  headers <- _get_api_headers ;;
  r <- request (search_request q types limit headers) ;;
  if negb (status_code r =? 200) then
    report_error r ;;;
    ret None
  else
    results_data <- json_of r ;;
    artists_data <- lift (dict_get_default results_data "artists" (VList [])) ;;
    albums_data <- lift (dict_get_default results_data "albums" (VList [])) ;;
    tracks_data <- lift (dict_get_default results_data "tracks" (VList [])) ;;
    found_artists <- extract_category fuel "artists" artists_data all_pages extract_artist ;;
    found_albums <- extract_category fuel "albums" albums_data all_pages extract_album ;;
    found_tracks <- extract_category fuel "tracks" tracks_data all_pages extract_track ;;
    ret (Some {| artists := found_artists; albums := found_albums; tracks := found_tracks |}).

(** *** Further methods *)

Definition do_search (fuel : nat) (search_term : string) (search_type : value)
    (exact_match : bool) : M (option SearchResults) :=
  search_tracks fuel search_term search_type 50 exact_match false.

Definition start_playing (device_id : string) :=
  _put "play" (Some [("device_id", VStr device_id)]) None.

Definition play_context (device_id : string) (uri : value) : M (bool * string) :=
  _put "play" (Some [("device_id", VStr device_id)]) (Some [("context_uri", uri)]).

Definition play_uris (device_id : string) (uri : value) : M (bool * string) :=
  _put "play" (Some [("device_id", VStr device_id)]) (Some [("uris", VList [uri])]).

(** The search type and the search term that [parse_play_command] reads
    from the pieces after the first one. Unlike the packaged client, the
    search type is a string in every case: [search_type = parts[1]]. *)
Definition search_words (second : string) (rest : list string) : value * string :=
  match rest with
  | [] => (VStr "artist,album,track", second)
  | _ =>
      if existsb (String.eqb second) ["artist"; "album"; "track"] then
        (VStr second, String.concat " " rest)
      else (VStr "artist,album,track", String.concat " " (second :: rest))
  end.

(** [parse_play_command] from the test of [results] on. A search without
    a match runs off the end of the function, which returns [None]. *)
Definition play_first_match (lower : string -> string) (device_id : string)
    (search_term : string) (results : option SearchResults)
    : M (option (bool * string)) :=
  match results with
  | None => ret (Some (false, "Failed to get any search results"))
  | Some results =>
      artist <- lift (first_match lower search_term (artists results)) ;;
      match artist with
      | Some uri => x <- play_context device_id uri ;; ret (Some x)
      | None =>
          album <- lift (first_match lower search_term (albums results)) ;;
          match album with
          | Some uri => x <- play_context device_id uri ;; ret (Some x)
          | None =>
              track <- lift (first_match lower search_term (tracks results)) ;;
              match track with
              | Some uri => x <- play_uris device_id uri ;; ret (Some x)
              | None => ret None
              end
          end
      end
  end.

(** [parse_play_command] up to the search. *)
Definition parse_play_command (lower : string -> string) (fuel : nat)
    (device_id command : string) : M (option (bool * string)) :=
  let parts := split_space command in
  match parts with
  | [] => raise IndexError
  | [_] => x <- start_playing device_id ;; ret (Some x)
  | first :: second :: rest =>
      if negb (String.eqb (lower first) "play") then
        ret (Some (false, "Invalid command: " ++ command))
      else
        let (search_type, search_term) := search_words second rest in
        results <- do_search fuel search_term search_type true ;;
        play_first_match lower device_id search_term results
  end.

Definition get_track_by_id (track_id : string) : M unit :=
  let tracks_full_url := BASE_URL ++ TRACKS_PATH ++ "/" ++ track_id in
  headers <- _get_api_headers ;;
  tracks_response <- request {| req_verb := GET;
                                req_url := tracks_full_url;
                                req_headers := headers;
                                req_params := None;
                                req_json := None |} ;;
  tracks_data <- json_of tracks_response ;;
  track_artists <- lift (getitem tracks_data "artists") ;;
  first_artist <- lift (getitem0 track_artists) ;;
  artist <- lift (getitem first_artist "name") ;;
  track_album <- lift (getitem tracks_data "album") ;;
  album <- lift (getitem track_album "name") ;;
  s1 <- lift (str_add artist (VStr ": ")) ;;
  line <- lift (str_add s1 album) ;;
  print (py_str line).

Fixpoint get_current_device_rec (depth : nat) (has_retried : bool) : M (value * value) :=
  match depth with
  | O => out_of_fuel
  | S depth' =>
      headers <- get_user_api_headers ;;
      r <- request (devices_request headers) ;;
      if status_code r =? 401 then
        if negb has_retried then get_current_device_rec depth' true
        else
          ret (VStr ("Failed to get current device| Code: " ++ string_of_Z (status_code r)),
               VNone)
      else
        devices_data <- json_of r ;;
        devices <- lift (getitem devices_data "devices") ;;
        l <- lift (py_iter devices) ;;
        lift (find_active l)
  end.

Definition get_current_device (has_retried : bool) : M (value * value) :=
  get_current_device_rec 2 has_retried.

(** *** The command table *)

Definition COMMAND_GROUPS : list (string * list string) :=
  [("register", ["register"]);
   ("increase_volume", ["turn up"; "louder"; "increase volume"; "volume up"]);
   ("decrease_volume", ["turn down"; "quieter"; "decrease volume"; "volume down"]);
   ("next_track", ["next track"; "next"; "skip"]);
   ("previous_track", ["go back"; "previous track"; "previous"; "last track"; "last"]);
   ("pause", ["pause"; "stop"]);
   ("resume", ["resume"; "play"; "continue"]);
   ("restart_track", ["restart track"; "restart"]);
   ("start_playing", ["start splaying"; "start"; "play"]);
   ("search", ["search"; "find"])].

(** The two nested loops of [command_valid] over the groups and their
    commands: is [command] one of the commands? *)
Definition in_groups (command : string) : bool :=
  existsb (fun command_group => existsb (String.eqb command) (snd command_group))
          COMMAND_GROUPS.

(** The matched command and the error: one of the two is [None]. *)
Definition command_valid (command : string) : option string * option string :=
  if String.eqb command "" then (None, Some "No command entered")
  else if in_groups command then (Some command, None)
  else
    match split_space command with
    | first :: _ =>
        if in_groups first then (Some first, None)
        else (None, Some (dquote ++ command ++ dquote ++ " is not a valid command"))
    | [] => (None, Some (dquote ++ command ++ dquote ++ " is not a valid command"))
    end.

End Client.

End Legacy.

(** ** A scripted world

    A world for running the clients on concrete inputs: the clock stands
    still, the authorization endpoint answers a token request according to
    its grant type, and every other request takes the next response of a
    queue (the transport fails once the queue is empty). *)
Module Mock.

Record script : Type := mkWorld {
  clock : Z;
  token_reply : string -> Response;
  queue : list Response
}.

Definition grant_type (q : Request) : string :=
  match req_params q with
  | Some params => match sget "grant_type" params with
                   | Some (VStr g) => g
                   | _ => ""
                   end
  | None => ""
  end.

Definition transport (q : Request) (w : script) : option Response * script :=
  if String.eqb (req_url q) AUTH_URL then (Some (token_reply w (grant_type q)), w)
  else
    match queue w with
    | r :: rest => (Some r, mkWorld (clock w) (token_reply w) rest)
    | [] => (None, w)
    end.

#[global] Instance runtime : Runtime := {|
  World := script;
  utcnow := clock;
  send := transport;
  b64encode := fun s => s;
  repr := fun _ => "<object>";
  strptime := fun _ => Raise ValueError;
  strftime := fun _ => Ok ""
|}.

(** A response with a JSON body, and one whose body is not JSON. *)
Definition reply (status : Z) (body : value) : Response :=
  {| status_code := status; text := "{...}"; json := Some body |}.

Definition reply_text (status : Z) (body : string) : Response :=
  {| status_code := status; text := body; json := None |}.

(** The authorization endpoint hands out the token [APP] for the
    client-credentials flow and the token [USER] for the refresh-token
    flow, each valid for an hour. *)
Definition tokens (grant : string) : Response :=
  reply 200 (VDict [("access_token",
                     VStr (if String.eqb grant "client_credentials" then "APP" else "USER"));
                    ("expires_in", VInt 3600)]).

Definition start (c : Spotify) (token_reply : string -> Response) (queue : list Response)
    : State Spotify :=
  {| self := c;
     world := mkWorld 1000 token_reply queue;
     sent := [];
     stdout := [] |}.

Definition legacy_start (c : Legacy.Spotify) (token_reply : string -> Response)
    (queue : list Response) : State Legacy.Spotify :=
  {| self := c;
     world := mkWorld 1000 token_reply queue;
     sent := [];
     stdout := [] |}.

(** A client with a refresh token, and the same client holding the token
    [T], valid until the instant 5000. *)
Definition client : Spotify := init "id" "secret" (Some "refresh").

Definition client_with_token : Spotify :=
  mkSpotify "id" "secret" (Some "refresh") (VStr "T") (Some 5000).

Definition legacy_client : Legacy.Spotify := Legacy.mkSpotify "id" "secret" (Some "refresh").

End Mock.

(** ** Pages of a search, scripted *)

Module Pages.

Definition artist (name uri : string) : value :=
  VDict [("name", VStr name); ("uri", VStr uri)].

Definition found (name uri : string) : pydict :=
  [("name", VStr name); ("uri", VStr uri)].

Definition page (items : list value) (next_items : value) : value :=
  VDict [("items", VList items); ("next", next_items)].

Definition answer (items : list value) (next_items : value) : Response :=
  Mock.reply 200 (VDict [("artists", page items next_items)]).

(** Three pages of two, two and one artists. *)
Definition first : value :=
  page [artist "Abba" "a:1"; artist "Beck" "a:2"] (VStr "https://api.spotify.com/v1/search?offset=2").

Definition second : Response :=
  answer [artist "Cher" "a:3"; artist "Dido" "a:4"]
         (VStr "https://api.spotify.com/v1/search?offset=4").

Definition third : Response := answer [artist "Enya" "a:5"] VNone.

(** A failed page with the error message of the service, and one whose
    body is not JSON. *)
Definition failed : Response :=
  Mock.reply 500 (VDict [("error", VDict [("status", VInt 500);
                                          ("message", VStr "Server error")])]).

Definition unreadable : Response := Mock.reply_text 500 "Internal Server Error".

End Pages.

(** ** Further scripted answers *)

Module Scenes.

(** A world like the scripted one in which the date functions accept
    every string. *)
Definition dated_runtime : Runtime := {|
  World := Mock.script;
  utcnow := Mock.clock;
  send := Mock.transport;
  b64encode := fun s => s;
  repr := fun _ => "<object>";
  strptime := fun v => match v with VStr _ => Ok 0 | _ => Raise TypeError end;
  strftime := fun _ => Ok "1 Jan 1970 00:00"
|}.

(** An authorization endpoint that forgets [expires_in], and one that
    refuses. *)
Definition no_expiry (grant : string) : Response :=
  Mock.reply 200 (VDict [("access_token", VStr "T")]).

Definition refused (grant : string) : Response :=
  Mock.reply 400 (VDict [("error", VStr "invalid_client")]).


Definition device (name id : string) (is_active : bool) (volume : Z) : value :=
  VDict [("name", VStr name); ("id", VStr id); ("is_active", VBool is_active);
         ("volume_percent", VInt volume)].

(** Three devices, of which the second and the third are active. *)
Definition three_devices : list value :=
  [device "Kitchen" "D1" false 95; device "Office" "D2" true 40;
   device "Car" "D3" true 60].

Definition devices_answer : Response :=
  Mock.reply 200 (VDict [("devices", VList three_devices)]).

(** The answer to a search that found one artist and nothing else. *)
Definition search_answer : Response :=
  Mock.reply 200 (VDict [("artists", Pages.page [Pages.artist "abba" "a:1"] VNone)]).

(** The answer to a search that found two artists, the second of whom
    has the name that was asked for. *)
Definition two_artists : Response :=
  Mock.reply 200 (VDict [("artists", Pages.page [Pages.artist "Beck" "a:2";
                                                  Pages.artist "abba" "a:1"] VNone)]).

End Scenes.

(** * The vocabulary of the properties *)

(** One call of [submit_command] makes one or two attempts; the response of
    the last one is its terminal response. [attempt] is one attempt: the
    headers are built, the request is sent. *)
Section Terminal.
Context `{RT : Runtime} {I : Type}.
Variable attempt : M I Response.

Inductive terminal : bool -> State I -> Response -> State I -> Prop :=
| terminal_last (has_retried : bool) (s : State I) (r : Response) (s' : State I) :
    attempt s = (Ok r, s') ->
    (status_code r =? 401) && negb has_retried = false ->
    terminal has_retried s r s'
| terminal_retried (s : State I) (r1 : Response) (s1 : State I) (r : Response) (s' : State I) :
    attempt s = (Ok r1, s1) ->
    status_code r1 = 401 ->
    terminal true s1 r s' ->
    terminal false s r s'.

End Terminal.

Definition command_request (v : verb) (command : string)
    (query_params body_params : option pydict) (headers : list (string * string)) : Request :=
  {| req_verb := v;
     req_url := BASE_URL ++ PLAYER_PATH ++ "/" ++ command;
     req_headers := headers;
     req_params := query_params;
     req_json := body_params |}.

Definition attempt `{RT : Runtime} (v : verb) (command : string)
    (query_params body_params : option pydict) : M Spotify Response :=
  headers <- get_user_api_headers ;;
  request (command_request v command query_params body_params headers).

Definition legacy_attempt `{RT : Runtime} (v : verb) (command : string)
    (query_params body_params : option pydict) : M Legacy.Spotify Response :=
  headers <- Legacy.get_user_api_headers ;;
  request (command_request v command query_params body_params headers).

(** What a call returns once its terminal response is known. *)
Definition conclude `{RT : Runtime} (r : Response) : M Spotify (bool * value) :=
  payload <- (if status_code r =? 204 then ret (VStr "Success") else json_of r) ;;
  ret (ok r, payload).

(** A token is usable when it is not [None] and the instant of its expiry
    is strictly later than the present instant. *)
Definition usable `{RT : Runtime} (s : State Spotify) : Prop :=
  access_token (self s) <> VNone
  /\ exists expires, token_expires (self s) = Some expires /\ utcnow (world s) < expires.

(** No token is cached, or the cached one has expired. *)
Definition stale `{RT : Runtime} (s : State Spotify) : Prop :=
  access_token (self s) = VNone
  \/ exists expires, token_expires (self s) = Some expires /\ expires <= utcnow (world s).

(** The request that a token fetch sends for the parameters of a flow. *)
Definition token_request `{RT : Runtime} (c : Spotify) (auth_params : pydict) : Request :=
  auth_request (b64encode (client_id c ++ ":" ++ client_secret c)) auth_params.

(** The parameters of the refresh-token flow. *)
Definition user_auth_params (rt : string) : pydict :=
  [("grant_type", VStr "refresh_token"); ("refresh_token", VStr rt)].

(** An outcome is tame when it is neither the exhaustion of the fuel nor a
    [PermissionError]; a computation is tame when its outcome is, in every
    state. *)
Definition tame {A : Type} (o : outcome A) : Prop :=
  o <> OutOfFuel /\ o <> Raise PermissionError.

Definition plain `{RT : Runtime} {I A : Type} (m : M I A) : Prop :=
  forall s, tame (fst (m s)).

(** [sends P m]: whatever the state, the requests that [m] sends all
    satisfy [P], and [m] removes nothing from the record of the requests. *)
Definition sends `{RT : Runtime} {I A : Type} (P : Request -> Prop) (m : M I A) : Prop :=
  forall s, exists new, sent (snd (m s)) = (sent s ++ new)%list /\ Forall P new.

(** A request for a token. *)
Definition is_token_request (q : Request) : Prop :=
  req_verb q = POST /\ req_url q = AUTH_URL.

(** A request that [get_available_devices] may send: one for a token, or
    the one for the devices. *)
Definition token_or_devices (q : Request) : Prop :=
  is_token_request q \/ exists headers, q = devices_request headers.

(** A request that [set_device_volume] may send for [volume]: one for a
    token, or the PUT of the volume. *)
Definition token_or_volume (volume : Z) (q : Request) : Prop :=
  is_token_request q
  \/ exists headers,
       q = command_request PUT "volume" (Some [("volume_percent", VInt volume)]) None headers.

(** The three kinds of item and the extractor of each. *)
Inductive kind : Type := Artist | Album | Track.

Definition extractor (k : kind) : value -> resultset -> outcome resultset :=
  match k with
  | Artist => extract_artist
  | Album => extract_album
  | Track => extract_track
  end.

(** The record of an item as the specification words it: name and uri for
    an artist; for an album also the display name [Name(Artist1, Artist2)];
    for a track the display name [Name (Album by Artist1, Artist2)]. The
    names of several artists are joined with a comma and a space. An item
    that lacks one of the fields, or whose names are not strings, has no
    record. *)
Definition field_of (item : value) (k : string) : option value :=
  match getitem item k with
  | Ok v => Some v
  | _ => None
  end.

Definition name_of (item : value) : option string :=
  match field_of item "name" with
  | Some (VStr name) => Some name
  | _ => None
  end.

Fixpoint names_in (artists : list value) : option (list string) :=
  match artists with
  | [] => Some []
  | artist :: rest =>
      match name_of artist, names_in rest with
      | Some name, Some names => Some (name :: names)
      | _, _ => None
      end
  end.

Definition artists_of (item : value) : option (list string) :=
  match field_of item "artists" with
  | Some (VList artists) => names_in artists
  | _ => None
  end.

Definition record_of (k : kind) (item : value) : option pydict :=
  match k with
  | Artist =>
      match field_of item "name", field_of item "uri" with
      | Some name, Some uri => Some [("name", name); ("uri", uri)]
      | _, _ => None
      end
  | Album =>
      match name_of item, field_of item "uri", artists_of item with
      | Some name, Some uri, Some names =>
          Some [("display_name", VStr (name ++ "(" ++ String.concat ", " names ++ ")"));
                ("name", VStr name);
                ("uri", uri)]
      | _, _, _ => None
      end
  | Track =>
      match name_of item, field_of item "uri", artists_of item, field_of item "album" with
      | Some name, Some uri, Some names, Some album =>
          match name_of album with
          | Some album_name =>
              Some [("display_name",
                     VStr (name ++ " (" ++ album_name ++ " by "
                           ++ String.concat ", " names ++ ")"));
                    ("name", VStr name);
                    ("uri", uri)]
          | None => None
          end
      | _, _, _, _ => None
      end
  end.

Fixpoint records_of (k : kind) (items : list value) : option (list pydict) :=
  match items with
  | [] => Some []
  | item :: rest =>
      match record_of k item, records_of k rest with
      | Some record, Some records => Some (record :: records)
      | _, _ => None
      end
  end.

(** Records under the keys [n], [n + 1], ... in order; from 0, the keys are
    dense, start at zero and follow the order of insertion. *)
Fixpoint keyed_from (n : nat) (records : list pydict) : resultset :=
  match records with
  | [] => []
  | record :: rest => (Z.of_nat n, record) :: keyed_from (S n) rest
  end.

Definition keyed (records : list pydict) : resultset := keyed_from 0 records.

(** [walk api field cursor s pages cursor' s']: from the state [s], the
    cursors from [cursor] on lead through [pages], the item lists of pages
    that were fetched with status 200, to the cursor [cursor'] in [s']. *)
Section Walk.
Context `{RT : Runtime} {I : Type}.
Variable api_headers : M I (list (string * string)).
Variable field : string.

Inductive walk : value -> State I -> list (list value) -> value -> State I -> Prop :=
| walk_here (cursor : value) (s : State I) :
    walk cursor s [] cursor s
| walk_page (cursor : value) (s : State I) (headers : list (string * string))
    (s1 : State I) (r : Response) (s2 : State I) (body data : value)
    (items : list value) (next_items : value) (pages : list (list value))
    (cursor' : value) (s' : State I) :
    has_next cursor = Ok true ->
    api_headers s = (Ok headers, s1) ->
    get_page cursor headers s1 = (Ok r, s2) ->
    status_code r = 200 ->
    json r = Some body ->
    getitem body field = Ok data ->
    getitem data "items" = Ok (VList items) ->
    getitem data "next" = Ok next_items ->
    walk next_items s2 pages cursor' s' ->
    walk cursor s (items :: pages) cursor' s'.

End Walk.

(** ** For the further properties *)

(** A request that does not go to the authorization endpoint. *)
Definition to_service (q : Request) : bool :=
  negb (String.eqb (req_url q) AUTH_URL).

(** [costs n m]: whatever the state, [m] sends at most [n] requests that
    do not go to the authorization endpoint. *)
Definition costs `{RT : Runtime} {I A : Type} (n : nat) (m : M I A) : Prop :=
  forall s, exists new,
    sent (snd (m s)) = (sent s ++ new)%list
    /\ (List.length (filter to_service new) <= n)%nat.

(** The instance after [self.access_token = token] and
    [self.token_expires = expires]. *)
Definition with_token (c : Spotify) (token : value) (expires : option Z) : Spotify :=
  mkSpotify (client_id c) (client_secret c) (refresh_token c) token expires.

Definition with_self `{RT : Runtime} {I : Type} (s : State I) (c : I) : State I :=
  mkState c (world s) (sent s) (stdout s).


(** The request that a token fetch of the earlier client sends. *)
Definition legacy_token_request `{RT : Runtime} (c : Legacy.Spotify) (auth_params : pydict)
    : Request :=
  auth_request (b64encode (Legacy.client_id c ++ ":" ++ Legacy.client_secret c)) auth_params.

(** A device that has an id other than [device_id]. *)
Definition other_device (device_id : string) (device : value) : Prop :=
  exists id, getitem device "id" = Ok id /\ is_str device_id id = false.

(** The entry that [get_available_devices] makes of a device, and the
    entries of a list of devices. *)
Definition device_entry (device : value) : option pydict :=
  match field_of device "name", field_of device "id" with
  | Some name, Some id => Some [("name", name); ("id", id)]
  | _, _ => None
  end.

Fixpoint device_entries (devices : list value) : option (list pydict) :=
  match devices with
  | [] => Some []
  | device :: rest =>
      match device_entry device, device_entries rest with
      | Some entry, Some entries => Some (entry :: entries)
      | _, _ => None
      end
  end.

(** A device that is not active. *)
Definition inactive (device : value) : Prop :=
  exists is_active, getitem device "is_active" = Ok is_active /\ truthy is_active = false.

(** An entry of a result set whose name, in lower case, is the search
    term in lower case, and one whose name is another. *)
Definition named (lower : string -> string) (search_term : string) (entry : Z * pydict)
    : Prop :=
  exists name,
    getitem (VDict (snd entry)) "name" = Ok (VStr name) /\ lower name = lower search_term.

Definition named_otherwise (lower : string -> string) (search_term : string)
    (entry : Z * pydict) : Prop :=
  exists name,
    getitem (VDict (snd entry)) "name" = Ok (VStr name) /\ lower name <> lower search_term.

(** Does [s] hold a space? *)
Fixpoint has_space (s : string) : bool :=
  match s with
  | EmptyString => false
  | String c rest => Ascii.eqb c " "%char || has_space rest
  end.

(** All the commands of the table, group after group. *)
Definition all_commands : list string :=
  List.concat (map snd Legacy.COMMAND_GROUPS).

(** The records of one category of the answer to a search, read from its
    first page: none when the category is missing or empty. *)
Definition category_records (k : kind) (results_data : value) (field : string)
    : option (list pydict) :=
  match dict_get_default results_data field (VList []) with
  | Ok category =>
      if truthy category then
        match getitem category "items", getitem category "next" with
        | Ok (VList items), Ok _ => records_of k items
        | _, _ => None
        end
      else Some []
  | _ => None
  end.

(** An item whose [played_at] the date functions accept. *)
Definition dated `{RT : Runtime} (item : value) (t : Z) (friendly : string) : Prop :=
  exists played_at,
    getitem item "played_at" = Ok played_at
    /\ strptime played_at = Ok t
    /\ strftime t = Ok friendly.

(** The item with its two new fields, and every other field as it was. *)
Definition annotated `{RT : Runtime} (item item' : value) : Prop :=
  exists t friendly,
    dated item t friendly
    /\ getitem item' "played_at_datetime" = Ok (VDatetime t)
    /\ getitem item' "played_at_friendly" = Ok (VStr friendly)
    /\ forall k, k <> "played_at_datetime" -> k <> "played_at_friendly" ->
                 getitem item' k = getitem item k.

(** * Properties *)

(** ** Facts about the monad *)

Section MonadFacts.
Context `{RT : Runtime} {I : Type}.

Lemma bind_ok {A B : Type} (m : M I A) (f : A -> M I B) s a s' :
  m s = (Ok a, s') -> bind m f s = f a s'.
Proof. intros H. unfold bind. now rewrite H. Qed.

Lemma bind_inv_ok {A B : Type} (m : M I A) (f : A -> M I B) s b s'' :
  bind m f s = (Ok b, s'') ->
  exists a s', m s = (Ok a, s') /\ f a s' = (Ok b, s'').
Proof.
  unfold bind. destruct (m s) as [[a | e |] s'] eqn:E; intros H; try discriminate.
  now exists a, s'.
Qed.

Lemma bind_ext {A B : Type} (m : M I A) (f g : A -> M I B) (s : State I) :
  (forall a s', f a s' = g a s') -> bind m f s = bind m g s.
Proof.
  intros H. unfold bind. destruct (m s) as [[a | e |] s']; auto.
Qed.

Lemma bind_fuel {A B : Type} (m : M I A) (f : A -> M I B) (s : State I) :
  fst (m s) <> OutOfFuel ->
  (forall a s', fst (f a s') <> OutOfFuel) ->
  fst (bind m f s) <> OutOfFuel.
Proof.
  intros Hm Hf. unfold bind. destruct (m s) as [[a | e |] s']; simpl in *;
    [apply Hf | discriminate | congruence].
Qed.

End MonadFacts.

(** ** Which exceptions a computation can raise *)

Lemma tame_ok {A : Type} (a : A) : tame (Ok a).
Proof. split; discriminate. Qed.

Lemma tame_obind {A B : Type} (o : outcome A) (f : A -> outcome B) :
  tame o -> (forall a, tame (f a)) -> tame (obind o f).
Proof.
  intros [Hfuel Hperm] Hf. destruct o as [a | e |]; simpl; auto.
  - split; [discriminate | intros E; inversion E; subst; now apply Hperm].
  - now elim Hfuel.
Qed.

Lemma tame_getitem v k : tame (getitem v k).
Proof. unfold getitem. destruct v; try (split; discriminate). destruct (sget k d); split; discriminate. Qed.

Lemma tame_contains k v : tame (contains k v).
Proof. destruct v; split; discriminate. Qed.

Lemma tame_as_int v : tame (as_int v).
Proof. destruct v; split; discriminate. Qed.

Lemma tame_timedelta_seconds v : tame (timedelta_seconds v).
Proof.
  unfold timedelta_seconds. apply tame_obind; [apply tame_as_int | intros n].
  destruct (Z.abs (n / 86400) <=? MAX_DELTA_DAYS); split; discriminate.
Qed.

Lemma tame_datetime_add t delta : tame (datetime_add t delta).
Proof.
  unfold datetime_add.
  destruct ((0 <=? t + delta) && (t + delta <=? DATETIME_MAX)); split; discriminate.
Qed.

Section Plain.
Context `{RT : Runtime} {I : Type}.

Lemma plain_ret {A : Type} (a : A) : plain (ret (I := I) a).
Proof. intros s. apply tame_ok. Qed.

Lemma plain_raise {A : Type} (e : exn) : e <> PermissionError -> plain (raise (I := I) (A := A) e).
Proof. intros H s. split; simpl; congruence. Qed.

Lemma plain_lift {A : Type} (o : outcome A) : tame o -> plain (lift (I := I) o).
Proof. intros H s. exact H. Qed.

Lemma plain_bind {A B : Type} (m : M I A) (f : A -> M I B) :
  plain m -> (forall a, plain (f a)) -> plain (bind m f).
Proof.
  intros Hm Hf s. unfold bind. destruct (Hm s) as [Hfuel Hperm].
  destruct (m s) as [[a | e |] s']; simpl in *.
  - apply Hf.
  - split; [discriminate | intros E; inversion E; subst; now apply Hperm].
  - now elim Hfuel.
Qed.

Lemma plain_get_self : plain (get_self (I := I)).
Proof. intros s. apply tame_ok. Qed.

Lemma plain_set_self c : plain (set_self (I := I) c).
Proof. intros s. apply tame_ok. Qed.

Lemma plain_now : plain (now (I := I)).
Proof. intros s. apply tame_ok. Qed.

Lemma plain_print l : plain (print (I := I) l).
Proof. intros s. apply tame_ok. Qed.

Lemma plain_request q : plain (request (I := I) q).
Proof.
  intros s. unfold request. destruct (send q (world s)) as [[r |] w]; split; discriminate.
Qed.

Lemma plain_json_of r : plain (json_of (I := I) r).
Proof. intros s. unfold json_of. destruct (json r); split; discriminate. Qed.

End Plain.

Create HintDb plain.
#[export] Hint Resolve tame_ok tame_getitem tame_contains tame_as_int tame_timedelta_seconds
  tame_datetime_add
  plain_ret plain_lift plain_get_self plain_set_self plain_now plain_print plain_request
  plain_json_of : plain.

Ltac plain_step :=
  match goal with
  | |- plain (bind _ _) => apply plain_bind; [| intros ?]
  | |- plain (raise _) => apply plain_raise; discriminate
  | |- plain (if ?b then _ else _) => destruct b
  | |- plain (match ?x with _ => _ end) => destruct x
  | |- plain _ => solve [auto with plain]
  end.

Section PlainClient.
Context `{RT : Runtime}.

Lemma plain_token_cached : plain token_cached.
Proof. unfold token_cached. repeat plain_step. Qed.

Lemma plain_get_access_token (auth_params : pydict) : plain (_get_access_token auth_params).
Proof.
  pose proof plain_token_cached.
  unfold _get_access_token, _get_base64_auth, set_access_token, set_token_expires.
  repeat plain_step.
Qed.

End PlainClient.

(** ** The token cache *)

Section TokenCache.
Context `{RT : Runtime}.

Lemma token_cached_usable (s : State Spotify) :
  usable s -> token_cached s = (Ok true, s).
Proof.
  intros (Htoken & expires & Hexpires & Hnow).
  unfold token_cached, bind, get_self, now, ret.
  destruct (access_token (self s)) eqn:Et; try congruence;
    rewrite Hexpires; apply Z.ltb_lt in Hnow; now rewrite Hnow.
Qed.

Lemma cache_hit (auth_params : pydict) (s : State Spotify) :
  usable s ->
  _get_access_token auth_params s = (Ok (access_token (self s), token_expires (self s)), s).
Proof.
  intros H. unfold _get_access_token.
  rewrite (bind_ok _ _ _ _ _ (token_cached_usable s H)). reflexivity.
Qed.

(** With a usable token, both flows answer with the one cached token. *)
Lemma both_flows_read_one_cache (s : State Spotify) (rt : string) :
  usable s ->
  refresh_token (self s) = Some rt ->
  _get_generic_access_token s = (Ok (access_token (self s)), s)
  /\ _get_user_access_token s = (Ok (access_token (self s)), s).
Proof.
  intros H Hrt. unfold _get_generic_access_token, _get_user_access_token,
    _get_user_auth_params. split.
  - now rewrite (bind_ok _ _ _ _ _ (cache_hit _ s H)).
  - unfold bind at 1. unfold get_self at 1. unfold bind at 1. rewrite Hrt. unfold ret at 1.
    now rewrite (bind_ok _ _ _ _ _ (cache_hit _ s H)).
Qed.

(** C4. When a token is cached and its expiry instant is strictly later than
    the present instant, [_get_access_token] returns the cached token and
    its expiry and leaves the state as it was: nothing is sent to the
    authorization endpoint, whatever flow the parameters ask for. *)
Theorem cached_token_returned_without_request :
  forall (auth_params : pydict) (s : State Spotify) (expires : Z),
    access_token (self s) <> VNone ->
    token_expires (self s) = Some expires ->
    utcnow (world s) < expires ->
    _get_access_token auth_params s = (Ok (access_token (self s), Some expires), s)
    /\ sent (snd (_get_access_token auth_params s)) = sent s
    /\ world (snd (_get_access_token auth_params s)) = world s.
Proof.
  intros auth_params s expires Htoken Hexpires Hnow.
  assert (Hresult :
    _get_access_token auth_params s = (Ok (access_token (self s), Some expires), s)).
  { rewrite <- Hexpires. apply cache_hit. split; [exact Htoken |]. now exists expires. }
  rewrite Hresult. auto.
Qed.

End TokenCache.

(** The client that holds the token [T] until the instant 5000 is asked for
    a token at the instant 1000. *)
Lemma cached_token_returned_without_request_witness :
  let s := Mock.start Mock.client_with_token Mock.tokens [] in
  _get_access_token _get_generic_auth_params s = (Ok (VStr "T", Some 5000), s)
  /\ sent (snd (_get_access_token _get_generic_auth_params s)) = sent s
  /\ world (snd (_get_access_token _get_generic_auth_params s)) = world s.
Proof.
  intro s.
  apply (cached_token_returned_without_request _get_generic_auth_params s 5000).
  - discriminate.
  - reflexivity.
  - vm_compute. reflexivity.
Defined.

(** ** The dispatcher *)

Lemma ok_spec (r : Response) :
  ok r = true <-> ~ (400 <= status_code r < 600).
Proof.
  unfold ok. rewrite negb_true_iff, andb_false_iff, Z.leb_gt, Z.ltb_ge. lia.
Qed.

Section Dispatcher.
Context `{RT : Runtime}.
Variables (method command : string) (v : verb) (qp bp : option pydict).
Hypothesis Hmethod : dict_get String.eqb method METHODS = Some v.

Lemma submit_command_rec_step (depth : nat) (has_retried : bool) (s : State Spotify) :
  submit_command_rec (S depth) method command qp bp has_retried s =
  (r <- attempt v command qp bp ;;
   if (status_code r =? 401) && negb has_retried then
     submit_command_rec depth method command qp bp true
   else
     payload <- (if status_code r =? 204 then ret (VStr "Success") else json_of r) ;;
     ret (ok r, payload)) s.
Proof.
  cbn [submit_command_rec]. rewrite Hmethod. unfold attempt, command_request, bind.
  destruct (get_user_api_headers s) as [[h | e |] s1]; reflexivity.
Qed.

Lemma legacy_submit_command_rec_step (depth : nat) (has_retried : bool)
    (s : State Legacy.Spotify) :
  Legacy.submit_command_rec (S depth) method command qp bp has_retried s =
  (r <- legacy_attempt v command qp bp ;;
   if (status_code r =? 401) && negb has_retried then
     Legacy.submit_command_rec depth method command qp bp true
   else
     ret (status_code r =? 204, Legacy.response_message method command r)) s.
Proof.
  cbn [Legacy.submit_command_rec]. rewrite Hmethod. unfold legacy_attempt, command_request, bind.
  destruct (Legacy.get_user_api_headers s) as [[h | e |] s1]; reflexivity.
Qed.

(** A call that is already the retry does not call itself again. *)
Lemma submit_command_retried_depth (depth : nat) (s : State Spotify) :
  submit_command_rec (S depth) method command qp bp true s =
  submit_command_rec 1 method command qp bp true s.
Proof.
  rewrite !submit_command_rec_step. unfold bind.
  destruct (attempt v command qp bp s) as [[r | e |] s1]; try reflexivity.
  now rewrite andb_false_r.
Qed.

Lemma legacy_submit_command_retried_depth (depth : nat) (s : State Legacy.Spotify) :
  Legacy.submit_command_rec (S depth) method command qp bp true s =
  Legacy.submit_command_rec 1 method command qp bp true s.
Proof.
  rewrite !legacy_submit_command_rec_step. unfold bind.
  destruct (legacy_attempt v command qp bp s) as [[r | e |] s1]; try reflexivity.
  now rewrite andb_false_r.
Qed.

End Dispatcher.

Section PlainHeaders.
Context `{RT : Runtime}.

Lemma plain_attempt_fuel (v : verb) (command : string) (qp bp : option pydict)
    (s : State Spotify) :
  fst (attempt v command qp bp s) <> OutOfFuel.
Proof.
  unfold attempt, get_user_api_headers, _get_user_access_token, _get_user_auth_params, bind.
  unfold get_self at 1.
  destruct (refresh_token (self s)); [| simpl; discriminate].
  unfold ret at 1.
  destruct (plain_get_access_token [("grant_type", VStr "refresh_token"); ("refresh_token", VStr s0)] s) as [Hfuel _].
  destruct (_get_access_token _ s) as [[p | e |] s1]; simpl in *; try discriminate; try congruence.
  apply (plain_request _ s1).
Qed.

Lemma plain_legacy_get_access_token (auth_params : pydict) :
  plain (Legacy._get_access_token auth_params).
Proof.
  unfold Legacy._get_access_token, Legacy._get_base64_auth. repeat plain_step.
Qed.

Lemma plain_legacy_attempt_fuel (v : verb) (command : string) (qp bp : option pydict)
    (s : State Legacy.Spotify) :
  fst (legacy_attempt v command qp bp s) <> OutOfFuel.
Proof.
  unfold legacy_attempt, Legacy.get_user_api_headers, Legacy._get_user_access_token,
    Legacy._get_user_auth_params, bind.
  unfold get_self at 1.
  destruct (Legacy.refresh_token (self s)); [| simpl; discriminate].
  unfold ret at 1.
  destruct (plain_legacy_get_access_token
              [("grant_type", VStr "refresh_token"); ("refresh_token", VStr s0)] s)
    as [Hfuel _].
  destruct (Legacy._get_access_token _ s) as [[p | e |] s1]; simpl in *;
    try discriminate; try congruence.
  apply (plain_request _ s1).
Qed.

End PlainHeaders.

Section DispatcherResult.
Context `{RT : Runtime}.
Variables (method command : string) (v : verb) (qp bp : option pydict).
Hypothesis Hmethod : dict_get String.eqb method METHODS = Some v.

Lemma submit_command_terminal (has_retried : bool) (s : State Spotify) (r : Response)
    (s' : State Spotify) :
  terminal (attempt v command qp bp) has_retried s r s' ->
  submit_command method command qp bp has_retried s = conclude r s'.
Proof.
  unfold submit_command. induction 1 as [hr s r s' Ha Hc | s r1 s1 r s' Ha H401 Ht IH].
  - rewrite (submit_command_rec_step method command v qp bp Hmethod).
    rewrite (bind_ok _ _ _ _ _ Ha), Hc. reflexivity.
  - rewrite (submit_command_rec_step method command v qp bp Hmethod).
    rewrite (bind_ok _ _ _ _ _ Ha).
    replace ((status_code r1 =? 401) && negb false) with true
      by (rewrite H401; reflexivity).
    cbv iota. rewrite <- IH. symmetry.
    apply (submit_command_retried_depth method command v qp bp Hmethod 1).
Qed.

Lemma submit_command_returns (has_retried : bool) (s : State Spotify) (x : bool * value)
    (s' : State Spotify) :
  submit_command method command qp bp has_retried s = (Ok x, s') ->
  exists r s1, terminal (attempt v command qp bp) has_retried s r s1
               /\ conclude r s1 = (Ok x, s').
Proof.
  unfold submit_command. rewrite (submit_command_rec_step method command v qp bp Hmethod).
  intros H. apply bind_inv_ok in H. destruct H as (r & s1 & Ha & H).
  destruct ((status_code r =? 401) && negb has_retried) eqn:Hc.
  - apply andb_true_iff in Hc. destruct Hc as [H401 Hr]. apply Z.eqb_eq in H401.
    destruct has_retried; [discriminate|].
    rewrite (submit_command_rec_step method command v qp bp Hmethod) in H.
    apply bind_inv_ok in H. destruct H as (r2 & s2 & Ha2 & H).
    rewrite andb_false_r in H.
    exists r2, s2. split; [| exact H].
    eapply terminal_retried; eauto. apply terminal_last; auto. apply andb_false_r.
  - exists r, s1. split; [| exact H]. now apply terminal_last.
Qed.

Lemma legacy_submit_command_terminal (has_retried : bool) (s : State Legacy.Spotify)
    (r : Response) (s' : State Legacy.Spotify) :
  terminal (legacy_attempt v command qp bp) has_retried s r s' ->
  Legacy.submit_command method command qp bp has_retried s =
  (Ok (status_code r =? 204, Legacy.response_message method command r), s').
Proof.
  unfold Legacy.submit_command.
  induction 1 as [hr s r s' Ha Hc | s r1 s1 r s' Ha H401 Ht IH].
  - rewrite (legacy_submit_command_rec_step method command v qp bp Hmethod).
    rewrite (bind_ok _ _ _ _ _ Ha), Hc. reflexivity.
  - rewrite (legacy_submit_command_rec_step method command v qp bp Hmethod).
    rewrite (bind_ok _ _ _ _ _ Ha).
    replace ((status_code r1 =? 401) && negb false) with true
      by (rewrite H401; reflexivity).
    cbv iota. rewrite <- IH. symmetry.
    apply (legacy_submit_command_retried_depth method command v qp bp Hmethod 1).
Qed.

Lemma legacy_submit_command_returns (has_retried : bool) (s : State Legacy.Spotify)
    (x : bool * string) (s' : State Legacy.Spotify) :
  Legacy.submit_command method command qp bp has_retried s = (Ok x, s') ->
  exists r, terminal (legacy_attempt v command qp bp) has_retried s r s'
            /\ x = (status_code r =? 204, Legacy.response_message method command r).
Proof.
  unfold Legacy.submit_command.
  rewrite (legacy_submit_command_rec_step method command v qp bp Hmethod).
  intros H. apply bind_inv_ok in H. destruct H as (r & s1 & Ha & H).
  destruct ((status_code r =? 401) && negb has_retried) eqn:Hc.
  - apply andb_true_iff in Hc. destruct Hc as [H401 Hr]. apply Z.eqb_eq in H401.
    destruct has_retried; [discriminate|].
    rewrite (legacy_submit_command_rec_step method command v qp bp Hmethod) in H.
    apply bind_inv_ok in H. destruct H as (r2 & s2 & Ha2 & H).
    rewrite andb_false_r in H. unfold ret in H. inversion H; subst.
    exists r2. split; [| reflexivity].
    eapply terminal_retried; eauto. apply terminal_last; auto. apply andb_false_r.
  - unfold ret in H. inversion H; subst.
    exists r. split; [| reflexivity]. now apply terminal_last.
Qed.

(** The depth 2 that [submit_command] starts with is never exhausted, and
    more depth changes nothing: no call makes a third attempt. *)
Lemma submit_command_depth (depth : nat) (has_retried : bool) (s : State Spotify) :
  submit_command_rec (S (S depth)) method command qp bp has_retried s =
  submit_command method command qp bp has_retried s
  /\ fst (submit_command method command qp bp has_retried s) <> OutOfFuel.
Proof.
  unfold submit_command. split.
  - rewrite !(submit_command_rec_step method command v qp bp Hmethod).
    apply bind_ext. intros r s1.
    destruct ((status_code r =? 401) && negb has_retried); [| reflexivity].
    apply (submit_command_retried_depth method command v qp bp Hmethod).
  - rewrite (submit_command_rec_step method command v qp bp Hmethod).
    apply bind_fuel; [apply plain_attempt_fuel |]. intros r s1.
    assert (Hconclude : forall r s, fst (conclude r s) <> OutOfFuel).
    { intros r0 s0. unfold conclude, bind, json_of, ret, raise.
      destruct (status_code r0 =? 204); simpl; try discriminate.
      destruct (json r0); simpl; discriminate. }
    destruct ((status_code r =? 401) && negb has_retried); [| apply Hconclude].
    rewrite (submit_command_rec_step method command v qp bp Hmethod).
    apply bind_fuel; [apply plain_attempt_fuel |]. intros r2 s2.
    rewrite andb_false_r. apply Hconclude.
Qed.

(** C1, as amended. For a method among get, post and put: in the packaged
    client the first component of the pair that [submit_command] returns is
    the [ok] flag of the terminal response, true exactly when the terminal
    status is outside 400..599, so that a terminal 204 gives
    [(true, 'Success')] and any other terminal status with a JSON body gives
    the flag with the decoded body; in the earlier client the first
    component is true exactly when the terminal status is 204. *)
Theorem submit_command_ok_flag (has_retried : bool) :
  (forall s r s',
      terminal (attempt v command qp bp) has_retried s r s' ->
      (status_code r = 204 ->
       submit_command method command qp bp has_retried s = (Ok (true, VStr "Success"), s'))
      /\ (forall body, status_code r <> 204 -> json r = Some body ->
           submit_command method command qp bp has_retried s = (Ok (ok r, body), s')))
  /\ (forall s b payload s',
         submit_command method command qp bp has_retried s = (Ok (b, payload), s') ->
         exists r, terminal (attempt v command qp bp) has_retried s r s'
                   /\ (b = true <-> ~ (400 <= status_code r < 600)))
  /\ (forall s r s',
         terminal (legacy_attempt v command qp bp) has_retried s r s' ->
         Legacy.submit_command method command qp bp has_retried s =
         (Ok (status_code r =? 204, Legacy.response_message method command r), s'))
  /\ (forall s b message s',
         Legacy.submit_command method command qp bp has_retried s = (Ok (b, message), s') ->
         exists r, terminal (legacy_attempt v command qp bp) has_retried s r s'
                   /\ (b = true <-> status_code r = 204)).
Proof.
  split; [| split; [| split]].
  - intros s r s' H. split.
    + intros H204. rewrite (submit_command_terminal _ _ _ _ H).
      unfold conclude, bind, ret, ok. rewrite H204. reflexivity.
    + intros body Hstatus Hjson. rewrite (submit_command_terminal _ _ _ _ H).
      unfold conclude, bind, json_of, ret.
      apply Z.eqb_neq in Hstatus. rewrite Hstatus, Hjson. reflexivity.
  - intros s b payload s' H.
    destruct (submit_command_returns _ _ _ _ H) as (r & s1 & Ht & Hc).
    unfold conclude in Hc. apply bind_inv_ok in Hc. destruct Hc as (p & s2 & Hp & Hc).
    unfold ret in Hc. inversion Hc; subst.
    assert (s' = s1).
    { destruct (status_code r =? 204); [unfold ret in Hp; now inversion Hp|].
      unfold json_of in Hp. destruct (json r); [unfold ret in Hp; now inversion Hp|].
      discriminate. }
    subst. exists r. split; [exact Ht | apply ok_spec].
  - apply legacy_submit_command_terminal.
  - intros s b message s' H.
    destruct (legacy_submit_command_returns _ _ _ _ H) as (r & Ht & Hx).
    inversion Hx; subst. exists r. split; [exact Ht | apply Z.eqb_eq].
Qed.

End DispatcherResult.

(** The client holds a valid token; the devices request is answered with
    200 and a JSON body, so the terminal status is 200, and the first
    component of the result is [true]. *)
Lemma ok_flag_true_on_terminal_200 :
  let body := VDict [("devices", VList [])] in
  let s := Mock.start Mock.client_with_token Mock.tokens [Mock.reply 200 body] in
  exists r s',
    terminal (attempt GET "devices" None None) false s r s'
    /\ status_code r = 200
    /\ submit_command "get" "devices" None None false s = (Ok (true, body), s').
Proof.
  intros body s.
  exists (Mock.reply 200 body), (snd (submit_command "get" "devices" None None false s)).
  split; [| split].
  - apply terminal_last; vm_compute; reflexivity.
  - reflexivity.
  - vm_compute. reflexivity.
Qed.

(** A pause that is answered with 204, in the packaged client. *)
Lemma submit_command_ok_flag_witness :
  let qp := Some [("device_id", VStr "D")] in
  let s := Mock.start Mock.client_with_token Mock.tokens [Mock.reply_text 204 ""] in
  exists r,
    terminal (attempt PUT "pause" qp None) false s r
             (snd (submit_command "put" "pause" qp None false s))
    /\ (true = true <-> ~ (400 <= status_code r < 600)).
Proof.
  intros qp s.
  destruct (submit_command_ok_flag "put" "pause" PUT qp None eq_refl false)
    as (_ & Hreturns & _).
  apply (Hreturns s true (VStr "Success")).
  vm_compute. reflexivity.
Defined.

(** ** One cache for two flows *)

(** C2. A client that has a refresh token and an empty cache asks for the
    app-scope token and then for the user-scope token. The authorization
    endpoint would hand out [USER] for the refresh-token flow, but the
    second call returns [APP], the token of the client-credentials flow,
    out of the one cache, and sends nothing. *)
Theorem user_token_served_from_app_cache :
  let s0 := Mock.start Mock.client Mock.tokens [] in
  exists s1 s2,
    _get_generic_access_token s0 = (Ok (VStr "APP"), s1)
    /\ _get_user_access_token s1 = (Ok (VStr "APP"), s2)
    /\ sent s2 = sent s1
    /\ fst (_get_user_access_token s0) = Ok (VStr "USER").
Proof.
  intros s0.
  exists (snd (_get_generic_access_token s0)).
  exists (snd (_get_user_access_token (snd (_get_generic_access_token s0)))).
  repeat split; vm_compute; reflexivity.
Qed.

(** ** The retry and the cache *)

Section Retry.
Context `{RT : Runtime}.

(** With a usable token, an attempt sends the command with that token and
    nothing else. *)
Lemma attempt_with_usable_token (v : verb) (command : string) (qp bp : option pydict)
    (s : State Spotify) (rt : string) :
  usable s ->
  refresh_token (self s) = Some rt ->
  attempt v command qp bp s =
  request (command_request v command qp bp
             [("Authorization", "Bearer " ++ py_str (access_token (self s)))]) s.
Proof.
  intros H Hrt. unfold attempt, get_user_api_headers.
  destruct (both_flows_read_one_cache s rt H Hrt) as [_ Huser].
  unfold bind at 1. unfold bind at 1. rewrite Huser. reflexivity.
Qed.

(** When the first attempt is answered with 401 while the cached token is
    still usable, the retry sends the same request with the same token:
    the two requests are all that the call sends, and none goes to the
    authorization endpoint. *)
Lemma retry_with_usable_token (method command : string) (v : verb) (qp bp : option pydict)
    (s : State Spotify) (rt : string) (r1 : Response) (s1 : State Spotify) :
  dict_get String.eqb method METHODS = Some v ->
  usable s ->
  refresh_token (self s) = Some rt ->
  let q := command_request v command qp bp
             [("Authorization", "Bearer " ++ py_str (access_token (self s)))] in
  request q s = (Ok r1, s1) ->
  status_code r1 = 401 ->
  utcnow (world s1) < match token_expires (self s) with Some e => e | None => 0 end ->
  sent (snd (submit_command method command qp bp false s)) = (sent s ++ [q; q])%list
  /\ self (snd (submit_command method command qp bp false s)) = self s.
Proof.
  intros Hmethod H Hrt q Hreq H401 Hnow.
  assert (Hself : self s1 = self s /\ sent s1 = (sent s ++ [q])%list).
  { unfold request in Hreq. destruct (send q (world s)) as [[r |] w]; inversion Hreq; auto. }
  destruct Hself as [Hself Hsent].
  assert (H1 : usable s1).
  { destruct H as (Ht & e & He & _). rewrite He in Hnow.
    split; [now rewrite Hself | exists e; now rewrite Hself]. }
  assert (Ha : attempt v command qp bp s1 = request q s1).
  { rewrite (attempt_with_usable_token v command qp bp s1 rt H1); [| now rewrite Hself].
    now rewrite Hself. }
  assert (E1 : submit_command method command qp bp false s =
               submit_command_rec 1 method command qp bp true s1).
  { unfold submit_command.
    rewrite (submit_command_rec_step method command v qp bp Hmethod). unfold bind.
    rewrite (attempt_with_usable_token v command qp bp s rt H Hrt). fold q.
    rewrite Hreq, H401. reflexivity. }
  assert (E2 : submit_command_rec 1 method command qp bp true s1 =
               bind (request q) conclude s1).
  { rewrite (submit_command_rec_step method command v qp bp Hmethod). unfold bind at 1 3.
    rewrite Ha. destruct (request q s1) as [[r2 | e2 |] s2]; try reflexivity.
    now rewrite andb_false_r. }
  rewrite E1, E2. unfold bind, request, conclude, json_of, ret, raise.
  destruct (send q (world s1)) as [[r2 |] w2]; simpl.
  - destruct (status_code r2 =? 204); simpl.
    + rewrite Hsent, <- app_assoc. auto.
    + destruct (json r2); simpl; rewrite Hsent, <- app_assoc; auto.
  - rewrite Hsent, <- app_assoc. auto.
Qed.

End Retry.

(** C3. The client holds the token [T], usable until the instant 5000, at
    the instant 1000, and the service answers 401 twice. The call makes two
    attempts and surfaces the failure, but the retry carries the cached
    token [T] again: no request goes to the authorization endpoint, which
    would have handed out [USER]. *)
Theorem retry_reuses_cached_token :
  let qp := Some [("device_id", VStr "D")] in
  let unauthorized := VDict [("error", VDict [("status", VInt 401)])] in
  let s := Mock.start Mock.client_with_token Mock.tokens
             [Mock.reply 401 unauthorized; Mock.reply 401 unauthorized] in
  let q := command_request PUT "pause" qp None [("Authorization", "Bearer T")] in
  fst (submit_command "put" "pause" qp None false s) = Ok (false, unauthorized)
  /\ sent (snd (submit_command "put" "pause" qp None false s)) = [q; q]
  /\ fst (refresh_user_access_token s) = Ok (Some (VStr "USER", Some 3600001000)).
Proof.
  intros qp unauthorized s q. repeat split; vm_compute; reflexivity.
Qed.

(** ** Failures of the token fetch *)

Section TokenFailures.
Context `{RT : Runtime}.

Lemma token_cached_stale (s : State Spotify) :
  stale s -> token_cached s = (Ok false, s).
Proof.
  unfold token_cached, bind, get_self, now, ret.
  intros [Hnone | (expires & Hexpires & Hnow)].
  - now rewrite Hnone.
  - rewrite Hexpires. apply Z.ltb_ge in Hnow.
    destruct (access_token (self s)); now rewrite ?Hnow.
Qed.

Lemma cache_miss_absent (auth_params : pydict) (s : State Spotify) (r : Response)
    (s' : State Spotify) :
  stale s ->
  request (token_request (self s) auth_params) s = (Ok r, s') ->
  ~ (200 <= status_code r < 400)
  \/ (exists body, json r = Some body /\ contains "access_token" body = Ok false) ->
  _get_access_token auth_params s = (Ok (VNone, None), s').
Proof.
  intros Hstale Hreq Hfail. unfold _get_access_token.
  rewrite (bind_ok _ _ _ _ _ (token_cached_stale s Hstale)).
  unfold _get_base64_auth. unfold bind at 1. unfold bind at 1. unfold get_self, ret at 1.
  unfold token_request in Hreq. rewrite (bind_ok _ _ _ _ _ Hreq).
  destruct ((200 <=? status_code r) && (status_code r <? 400)) eqn:Hrange; [| reflexivity].
  destruct Hfail as [Hout | (body & Hjson & Hcontains)].
  - apply andb_true_iff in Hrange. destruct Hrange as [H1 H2].
    apply Z.leb_le in H1. apply Z.ltb_lt in H2. lia.
  - unfold json_of. rewrite Hjson. unfold bind, ret, lift. now rewrite Hcontains.
Qed.

Lemma user_token_with_refresh_token (s : State Spotify) (rt : string) :
  refresh_token (self s) = Some rt ->
  _get_user_access_token s =
  (p <- _get_access_token (user_auth_params rt) ;; ret (fst p)) s.
Proof.
  intros Hrt. unfold _get_user_access_token, _get_user_auth_params.
  unfold bind at 1. unfold bind at 1. unfold get_self. rewrite Hrt. reflexivity.
Qed.

(** C7, as amended. The user-scope token fetch raises [PermissionError]
    exactly when the refresh token is absent, and then at once. With a
    refresh token and no usable cached token, it raises nothing and returns
    [None] when the authorization endpoint answers with a status outside
    200..399, and when the answer has a JSON body in which [access_token]
    is not found. *)
Theorem user_token_fetch_failures (s : State Spotify) :
  (refresh_token (self s) = None ->
   _get_user_access_token s = (Raise PermissionError, s))
  /\ (forall rt,
        refresh_token (self s) = Some rt ->
        fst (_get_user_access_token s) <> Raise PermissionError
        /\ (stale s ->
            forall r s',
              request (token_request (self s) (user_auth_params rt)) s = (Ok r, s') ->
              (~ (200 <= status_code r < 400) ->
               _get_user_access_token s = (Ok VNone, s'))
              /\ (forall body,
                    json r = Some body ->
                    contains "access_token" body = Ok false ->
                    _get_user_access_token s = (Ok VNone, s')))).
Proof.
  split.
  - intros Hrt. unfold _get_user_access_token, _get_user_auth_params, bind, get_self.
    now rewrite Hrt.
  - intros rt Hrt. rewrite (user_token_with_refresh_token s rt Hrt). split.
    + unfold bind. destruct (plain_get_access_token (user_auth_params rt) s) as [_ Hperm].
      destruct (_get_access_token (user_auth_params rt) s) as [[p | e |] s1];
        simpl in *; congruence.
    + intros Hstale r s' Hreq. split.
      * intros Hout.
        now rewrite (bind_ok _ _ _ _ _
                       (cache_miss_absent _ s r s' Hstale Hreq (or_introl Hout))).
      * intros body Hjson Hcontains.
        assert (Hfail : ~ (200 <= status_code r < 400)
                        \/ (exists body, json r = Some body
                                         /\ contains "access_token" body = Ok false))
          by (right; now exists body).
        now rewrite (bind_ok _ _ _ _ _ (cache_miss_absent _ s r s' Hstale Hreq Hfail)).
Qed.

End TokenFailures.

(** The authorization endpoint answers 200 with a body that is not JSON,
    and so holds no [access_token]: the fetch raises [JSONDecodeError],
    although the client has a refresh token. *)
Lemma user_token_fetch_raises_on_undecodable_body :
  let page := fun _ : string => Mock.reply_text 200 "<html>Sign in</html>" in
  let s := Mock.start Mock.client page [] in
  refresh_token (self s) = Some "refresh"
  /\ (exists r s', request (token_request (self s) (user_auth_params "refresh")) s = (Ok r, s')
                   /\ status_code r = 200 /\ json r = None)
  /\ fst (_get_user_access_token s) = Raise JSONDecodeError.
Proof.
  intros page s. split; [reflexivity | split].
  - exists (page "refresh_token").
    exists (snd (request (token_request (self s) (user_auth_params "refresh")) s)).
    repeat split.
  - vm_compute. reflexivity.
Qed.

(** The authorization endpoint refuses the refresh token with 400. *)
Lemma user_token_fetch_failures_witness :
  let refused := fun _ : string => Mock.reply 400 (VDict [("error", VStr "invalid_grant")]) in
  let s := Mock.start Mock.client refused [] in
  _get_user_access_token s =
  (Ok VNone, snd (request (token_request (self s) (user_auth_params "refresh")) s)).
Proof.
  intros refused s.
  destruct (user_token_fetch_failures s) as [_ H].
  destruct (H "refresh" eq_refl) as [_ Hstale].
  refine (proj1 (Hstale _ (refused "refresh_token") _ _) _).
  - left. reflexivity.
  - vm_compute. reflexivity.
  - cbn. lia.
Defined.

(** ** Which requests a computation sends *)

Section Sends.
Context `{RT : Runtime} {I : Type}.
Variable P : Request -> Prop.

Lemma sends_nothing {A : Type} (m : M I A) :
  (forall s, sent (snd (m s)) = sent s) -> sends P m.
Proof. intros H s. exists []. now rewrite H, app_nil_r. Qed.

Lemma sends_ret {A : Type} (a : A) : sends P (ret (I := I) a).
Proof. now apply sends_nothing. Qed.

Lemma sends_raise {A : Type} (e : exn) : sends P (raise (I := I) (A := A) e).
Proof. now apply sends_nothing. Qed.

Lemma sends_lift {A : Type} (o : outcome A) : sends P (lift (I := I) o).
Proof. now apply sends_nothing. Qed.

Lemma sends_out_of_fuel {A : Type} : sends P (out_of_fuel (I := I) (A := A)).
Proof. now apply sends_nothing. Qed.

Lemma sends_get_self : sends P (get_self (I := I)).
Proof. now apply sends_nothing. Qed.

Lemma sends_set_self c : sends P (set_self (I := I) c).
Proof. now apply sends_nothing. Qed.

Lemma sends_now : sends P (now (I := I)).
Proof. now apply sends_nothing. Qed.

Lemma sends_print l : sends P (print (I := I) l).
Proof. now apply sends_nothing. Qed.

Lemma sends_json_of r : sends P (json_of (I := I) r).
Proof. apply sends_nothing. intros s. unfold json_of. now destruct (json r). Qed.

Lemma sends_request q : P q -> sends P (request (I := I) q).
Proof.
  intros H s. exists [q]. unfold request.
  destruct (send q (world s)) as [[r |] w]; simpl; auto.
Qed.

Lemma sends_bind {A B : Type} (m : M I A) (f : A -> M I B) :
  sends P m -> (forall a, sends P (f a)) -> sends P (bind m f).
Proof.
  intros Hm Hf s. unfold bind. destruct (Hm s) as (new & Hnew & HP).
  destruct (m s) as [[a | e |] s']; simpl in *; try (now exists new).
  destruct (Hf a s') as (new' & Hnew' & HP').
  exists (new ++ new')%list. rewrite Hnew', Hnew, app_assoc. split; [reflexivity |].
  apply Forall_app. auto.
Qed.

End Sends.

Lemma sends_weaken `{RT : Runtime} {I A : Type} (P Q : Request -> Prop) (m : M I A) :
  (forall q, P q -> Q q) -> sends P m -> sends Q m.
Proof.
  intros H Hm s. destruct (Hm s) as (new & Hnew & HP). exists new. split; [exact Hnew |].
  eapply Forall_impl; eauto.
Qed.

Create HintDb sends.
#[export] Hint Resolve sends_ret sends_raise sends_lift sends_out_of_fuel sends_get_self
  sends_set_self sends_now sends_print sends_json_of : sends.

Ltac sends_step :=
  match goal with
  | |- sends _ (bind _ _) => apply sends_bind; [| intros ?]
  | |- sends _ (if ?b then _ else _) => destruct b
  | |- sends _ (match ?x with _ => _ end) => destruct x
  | |- sends _ _ => solve [auto with sends]
  end.

Section SendsClient.
Context `{RT : Runtime}.
Variable P : Request -> Prop.
Hypothesis Htoken : forall q, is_token_request q -> P q.

Lemma sends_get_access_token (auth_params : pydict) : sends P (_get_access_token auth_params).
Proof.
  unfold _get_access_token, token_cached, _get_base64_auth, set_access_token,
    set_token_expires.
  repeat sends_step.
  apply sends_request. apply Htoken. split; reflexivity.
Qed.

Lemma sends_get_user_api_headers : sends P get_user_api_headers.
Proof.
  pose proof sends_get_access_token.
  unfold get_user_api_headers, _get_user_access_token, _get_user_auth_params.
  repeat sends_step.
Qed.

Lemma sends_get_api_headers : sends P _get_api_headers.
Proof.
  pose proof sends_get_access_token.
  unfold _get_api_headers, _get_generic_access_token.
  repeat sends_step.
Qed.

Lemma sends_submit_command_rec (depth : nat) (method command : string)
    (qp bp : option pydict) (has_retried : bool) :
  (forall v headers, dict_get String.eqb method METHODS = Some v ->
                     P (command_request v command qp bp headers)) ->
  sends P (submit_command_rec depth method command qp bp has_retried).
Proof.
  intros Hcommand. pose proof sends_get_user_api_headers.
  revert has_retried. induction depth as [| depth IH]; intros has_retried.
  - apply sends_out_of_fuel.
  - cbn [submit_command_rec].
    destruct (dict_get String.eqb method METHODS) as [v |] eqn:Hv; [| apply sends_ret].
    repeat sends_step.
    apply sends_request. now apply Hcommand.
Qed.

Lemma sends_get_available_devices_rec (depth : nat) (has_retried : bool) :
  (forall headers, P (devices_request headers)) ->
  sends P (get_available_devices_rec depth has_retried).
Proof.
  intros Hdevices. pose proof sends_get_user_api_headers.
  revert has_retried. induction depth as [| depth IH]; intros has_retried.
  - apply sends_out_of_fuel.
  - cbn [get_available_devices_rec].
    repeat sends_step.
    now apply sends_request.
Qed.

End SendsClient.

Section SendsLegacy.
Context `{RT : Runtime}.
Variable P : Request -> Prop.
Hypothesis Htoken : forall q, is_token_request q -> P q.

Lemma sends_legacy_get_access_token (auth_params : pydict) :
  sends P (Legacy._get_access_token auth_params).
Proof.
  unfold Legacy._get_access_token, Legacy._get_base64_auth.
  repeat sends_step.
  apply sends_request. apply Htoken. split; reflexivity.
Qed.

Lemma sends_legacy_get_user_api_headers : sends P Legacy.get_user_api_headers.
Proof.
  pose proof sends_legacy_get_access_token.
  unfold Legacy.get_user_api_headers, Legacy._get_user_access_token,
    Legacy._get_user_auth_params.
  repeat sends_step.
Qed.

Lemma sends_legacy_get_available_devices_rec (depth : nat) (has_retried : bool) :
  (forall headers, P (devices_request headers)) ->
  sends P (Legacy.get_available_devices_rec depth has_retried).
Proof.
  intros Hdevices. pose proof sends_legacy_get_user_api_headers.
  revert has_retried. induction depth as [| depth IH]; intros has_retried.
  - apply sends_out_of_fuel.
  - cbn [Legacy.get_available_devices_rec].
    repeat sends_step.
    now apply sends_request.
Qed.

End SendsLegacy.

(** ** A failed search *)

Section FailedSearch.
Context `{RT : Runtime}.

Lemma report_error_prints {I : Type} (r : Response) (s : State I)
    (body error : value) (message : string) :
  json r = Some body ->
  getitem body "error" = Ok error ->
  getitem error "message" = Ok (VStr message) ->
  report_error r s = print ("Error getting results: " ++ message) s.
Proof.
  intros Hjson Herror Hmessage. unfold report_error, json_of. rewrite Hjson.
  unfold bind, ret, lift. rewrite Herror, Hmessage. reflexivity.
Qed.

Lemma request_sent {I : Type} (q : Request) (s : State I) (r : Response) (s' : State I) :
  request q s = (Ok r, s') ->
  sent s' = (sent s ++ [q])%list /\ self s' = self s /\ stdout s' = stdout s.
Proof.
  unfold request. destruct (send q (world s)) as [[r0 |] w]; intros H; inversion H; auto.
Qed.

(** C8. When the answer to the search has a status other than 200 and its
    body carries an error message, [search_tracks] prints that message and
    returns [None], in both clients. The search request is the one request
    sent after the headers were built: there is no second attempt, whatever
    the status, 401 included. *)
Theorem failed_search_reported_once
    (fuel : nat) (search_term : string) (types : value) (limit : Z)
    (exact_match all_pages : bool) (headers : list (string * string)) (r : Response)
    (body error : value) (message : string) :
  status_code r <> 200 ->
  json r = Some body ->
  getitem body "error" = Ok error ->
  getitem error "message" = Ok (VStr message) ->
  (forall (s s1 s2 : State Spotify) (q : string),
      search_query search_term types exact_match = Ok q ->
      _get_api_headers s = (Ok headers, s1) ->
      request (search_request q types limit headers) s1 = (Ok r, s2) ->
      search_tracks fuel search_term types limit exact_match all_pages s =
      (Ok None,
       mkState (self s2) (world s2)
               (sent s1 ++ [search_request q types limit headers])
               (stdout s1 ++ ["Error getting results: " ++ message])))
  /\ (forall (s s1 s2 : State Legacy.Spotify),
        Legacy._get_api_headers s = (Ok headers, s1) ->
        request (search_request (Legacy.search_query search_term exact_match)
                                types limit headers) s1 = (Ok r, s2) ->
        Legacy.search_tracks fuel search_term types limit exact_match all_pages s =
        (Ok None,
         mkState (self s2) (world s2)
                 (sent s1 ++ [search_request (Legacy.search_query search_term exact_match)
                                             types limit headers])
                 (stdout s1 ++ ["Error getting results: " ++ message]))).
Proof.
  intros Hstatus Hjson Herror Hmessage. apply Z.eqb_neq in Hstatus. split.
  - intros s s1 s2 q Hq Hheaders Hrequest. unfold search_tracks.
    unfold bind at 1. unfold lift at 1. rewrite Hq.
    rewrite (bind_ok _ _ _ _ _ Hheaders), (bind_ok _ _ _ _ _ Hrequest), Hstatus.
    cbn [negb]. unfold bind at 1.
    rewrite (report_error_prints r s2 body error message Hjson Herror Hmessage).
    destruct (request_sent _ _ _ _ Hrequest) as (Hsent & _ & Hout).
    unfold print, ret. now rewrite Hsent, Hout.
  - intros s s1 s2 Hheaders Hrequest. unfold Legacy.search_tracks.
    rewrite (bind_ok _ _ _ _ _ Hheaders), (bind_ok _ _ _ _ _ Hrequest), Hstatus.
    cbn [negb]. unfold bind at 1.
    rewrite (report_error_prints r s2 body error message Hjson Herror Hmessage).
    destruct (request_sent _ _ _ _ Hrequest) as (Hsent & _ & Hout).
    unfold print, ret. now rewrite Hsent, Hout.
Qed.

End FailedSearch.

(** The search is answered with 401 and the error message of the service. *)
Lemma failed_search_reported_once_witness :
  let expired := VDict [("error", VDict [("status", VInt 401);
                                         ("message", VStr "The access token expired")])] in
  let s := Mock.start Mock.client_with_token Mock.tokens [Mock.reply 401 expired] in
  let headers := [("Authorization", "Bearer T")] in
  fst (search_tracks 3 "abba" (VStr "artist") 50 false false s) = Ok None
  /\ sent (snd (search_tracks 3 "abba" (VStr "artist") 50 false false s)) =
     [search_request "abba" (VStr "artist") 50 headers]
  /\ stdout (snd (search_tracks 3 "abba" (VStr "artist") 50 false false s)) =
     ["Error getting results: The access token expired"].
Proof.
  intros expired s headers.
  assert (status_code (Mock.reply 401 expired) <> 200) as Hstatus by (cbn; lia).
  destruct (failed_search_reported_once 3 "abba" (VStr "artist") 50 false false headers
              (Mock.reply 401 expired) expired
              (VDict [("status", VInt 401); ("message", VStr "The access token expired")])
              "The access token expired" Hstatus eq_refl eq_refl eq_refl) as [H _].
  rewrite (H s s (snd (request (search_request "abba" (VStr "artist") 50 headers) s))
             "abba" eq_refl eq_refl eq_refl).
  repeat split.
Defined.

(** The search is answered with 502 and a page that is not JSON: nothing
    is reported and [JSONDecodeError] reaches the caller, in both clients.
    When it is answered with 429 and an empty object, it is [KeyError]. *)
Lemma failed_search_raises_on_undecodable_body :
  let gateway := Mock.reply_text 502 "<html>Bad Gateway</html>" in
  let throttled := Mock.reply 429 (VDict []) in
  let s := Mock.start Mock.client_with_token Mock.tokens [gateway] in
  let s' := Mock.legacy_start Mock.legacy_client Mock.tokens [gateway] in
  let t := Mock.start Mock.client_with_token Mock.tokens [throttled] in
  let q := search_request "abba" (VStr "artist") 50 [("Authorization", "Bearer T")] in
  (exists r s1, request q s = (Ok r, s1) /\ status_code r = 502)
  /\ fst (search_tracks 3 "abba" (VStr "artist") 50 false false s) = Raise JSONDecodeError
  /\ stdout (snd (search_tracks 3 "abba" (VStr "artist") 50 false false s)) = []
  /\ fst (Legacy.search_tracks 3 "abba" (VStr "artist") 50 false false s') =
     Raise JSONDecodeError
  /\ stdout (snd (Legacy.search_tracks 3 "abba" (VStr "artist") 50 false false s')) = []
  /\ (exists r t1, request q t = (Ok r, t1) /\ status_code r = 429)
  /\ fst (search_tracks 3 "abba" (VStr "artist") 50 false false t) = Raise KeyError
  /\ stdout (snd (search_tracks 3 "abba" (VStr "artist") 50 false false t)) = [].
Proof.
  intros gateway throttled s s' t q.
  split; [exists gateway, (snd (request q s)); split; reflexivity |].
  split; [vm_compute; reflexivity |].
  split; [vm_compute; reflexivity |].
  split; [vm_compute; reflexivity |].
  split; [vm_compute; reflexivity |].
  split; [exists throttled, (snd (request q t)); split; reflexivity |].
  split; vm_compute; reflexivity.
Qed.

(** ** The history after a 401 *)

Section RecentlyPlayed.
Context `{RT : Runtime}.

Lemma devices_listing (depth : nat) (has_retried : bool) (s : State Spotify)
    (e : value) (l : listing) (s' : State Spotify) :
  get_available_devices_rec depth has_retried s = (Ok (e, l), s') ->
  (e <> VNone /\ l = NoListing) \/ (e = VNone /\ exists d, l = Devices d).
Proof.
  revert has_retried s. induction depth as [| depth IH]; intros has_retried s H.
  - discriminate.
  - cbn [get_available_devices_rec] in H.
    apply bind_inv_ok in H. destruct H as (headers & s1 & _ & H).
    apply bind_inv_ok in H. destruct H as (r & s2 & _ & H).
    destruct (status_code r =? 401).
    + destruct (negb has_retried); [now apply IH in H |].
      inversion H. left. split; [discriminate | reflexivity].
    + apply bind_inv_ok in H. destruct H as (body & s3 & _ & H).
      apply bind_inv_ok in H. destruct H as (devices & s4 & _ & H).
      apply bind_inv_ok in H. destruct H as (ds & s5 & _ & H).
      apply bind_inv_ok in H. destruct H as (returned & s6 & _ & H).
      inversion H. right. split; [reflexivity | now exists returned].
Qed.

Lemma legacy_devices_listing (depth : nat) (has_retried : bool) (s : State Legacy.Spotify)
    (e : value) (l : listing) (s' : State Legacy.Spotify) :
  Legacy.get_available_devices_rec depth has_retried s = (Ok (e, l), s') ->
  (e <> VNone /\ l = NoListing) \/ (e = VNone /\ exists d, l = Devices d).
Proof.
  revert has_retried s. induction depth as [| depth IH]; intros has_retried s H.
  - discriminate.
  - cbn [Legacy.get_available_devices_rec] in H.
    apply bind_inv_ok in H. destruct H as (headers & s1 & _ & H).
    apply bind_inv_ok in H. destruct H as (r & s2 & _ & H).
    destruct (status_code r =? 401).
    + destruct (negb has_retried); [now apply IH in H |].
      inversion H. left. split; [discriminate | reflexivity].
    + apply bind_inv_ok in H. destruct H as (body & s3 & _ & H).
      apply bind_inv_ok in H. destruct H as (devices & s4 & _ & H).
      apply bind_inv_ok in H. destruct H as (ds & s5 & _ & H).
      apply bind_inv_ok in H. destruct H as (returned & s6 & _ & H).
      inversion H. right. split; [reflexivity | now exists returned].
Qed.

(** C10. When the request for the history is answered with 401,
    [get_recently_played] returns what [get_available_devices(True)]
    returns from there on, in both clients: the flag [has_retried] is
    false at the test. The requests that follow are requests for a token
    or for the devices, never one for the history, and a result is an
    error message without a listing or a listing of devices. *)
Theorem recently_played_401_lists_devices
    (as_json all_data : bool) (headers : list (string * string)) (r : Response) :
  status_code r = 401 ->
  (forall s s1 s2 : State Spotify,
      get_user_api_headers s = (Ok headers, s1) ->
      request (recently_played_request headers) s1 = (Ok r, s2) ->
      get_recently_played as_json all_data s = get_available_devices true s2
      /\ (exists new,
             sent (snd (get_recently_played as_json all_data s)) = (sent s2 ++ new)%list
             /\ Forall token_or_devices new)
      /\ (forall e l s',
             get_recently_played as_json all_data s = (Ok (e, l), s') ->
             (e <> VNone /\ l = NoListing) \/ (e = VNone /\ exists d, l = Devices d)))
  /\ (forall s s1 s2 : State Legacy.Spotify,
        Legacy.get_user_api_headers s = (Ok headers, s1) ->
        request (recently_played_request headers) s1 = (Ok r, s2) ->
        Legacy.get_recently_played as_json s = Legacy.get_available_devices true s2
        /\ (exists new,
               sent (snd (Legacy.get_recently_played as_json s)) = (sent s2 ++ new)%list
               /\ Forall token_or_devices new)
        /\ (forall e l s',
               Legacy.get_recently_played as_json s = (Ok (e, l), s') ->
               (e <> VNone /\ l = NoListing) \/ (e = VNone /\ exists d, l = Devices d))).
Proof.
  intros H401. apply Z.eqb_eq in H401. split.
  - intros s s1 s2 Hheaders Hrequest.
    assert (E : get_recently_played as_json all_data s = get_available_devices true s2).
    { unfold get_recently_played.
      rewrite (bind_ok _ _ _ _ _ Hheaders), (bind_ok _ _ _ _ _ Hrequest), H401.
      reflexivity. }
    rewrite E. split; [reflexivity | split].
    + apply (sends_get_available_devices_rec token_or_devices).
      * intros q Hq. now left.
      * intros h. right. now exists h.
    + intros e l s'. apply devices_listing.
  - intros s s1 s2 Hheaders Hrequest.
    assert (E : Legacy.get_recently_played as_json s = Legacy.get_available_devices true s2).
    { unfold Legacy.get_recently_played.
      rewrite (bind_ok _ _ _ _ _ Hheaders), (bind_ok _ _ _ _ _ Hrequest), H401.
      reflexivity. }
    rewrite E. split; [reflexivity | split].
    + apply (sends_legacy_get_available_devices_rec token_or_devices).
      * intros q Hq. now left.
      * intros h. right. now exists h.
    + intros e l s'. apply legacy_devices_listing.
Qed.

End RecentlyPlayed.

(** The history is refused with 401, and the devices are then listed. *)
Lemma recently_played_401_lists_devices_witness :
  let devices := VDict [("devices", VList [VDict [("name", VStr "Kitchen");
                                                  ("id", VStr "D");
                                                  ("volume_percent", VInt 95)]])] in
  let s := Mock.start Mock.client_with_token Mock.tokens
             [Mock.reply 401 VNone; Mock.reply 200 devices] in
  fst (get_recently_played false false s) =
  Ok (VNone, Devices [(1, [("name", VStr "Kitchen"); ("id", VStr "D")])]).
Proof.
  intros devices s.
  assert (status_code (Mock.reply 401 VNone) = 401) as H401 by reflexivity.
  destruct (recently_played_401_lists_devices false false [("Authorization", "Bearer T")]
              (Mock.reply 401 VNone) H401) as [H _].
  destruct (H s s (snd (request (recently_played_request [("Authorization", "Bearer T")]) s))
              eq_refl eq_refl) as [E _].
  rewrite E. vm_compute. reflexivity.
Defined.

(** ** The volume *)

Section Volume.
Context `{RT : Runtime}.

Lemma set_device_volume_sends (volume : Z) :
  sends (token_or_volume volume) (set_device_volume volume).
Proof.
  unfold set_device_volume, _put, submit_command.
  apply sends_submit_command_rec.
  - intros q Hq. now left.
  - intros v headers Hv. inversion Hv; subst. right. now exists headers.
Qed.

(** Once the headers are built, the PUT of the volume is sent. *)
Lemma set_device_volume_puts (volume : Z) (s : State Spotify)
    (headers : list (string * string)) (s1 : State Spotify) :
  get_user_api_headers s = (Ok headers, s1) ->
  exists before after,
    sent (snd (set_device_volume volume s)) =
    (sent s ++ before
       ++ command_request PUT "volume" (Some [("volume_percent", VInt volume)]) None headers
       :: after)%list.
Proof.
  intros Hheaders.
  set (q := command_request PUT "volume" (Some [("volume_percent", VInt volume)]) None headers).
  destruct (sends_get_user_api_headers (fun _ => True) (fun _ _ => I) s) as (before & Hb & _).
  rewrite Hheaders in Hb. simpl in Hb. exists before.
  unfold set_device_volume, _put, submit_command.
  rewrite (submit_command_rec_step "put" "volume" PUT _ _ eq_refl).
  unfold attempt. unfold bind at 1. unfold bind at 1. rewrite Hheaders. fold q.
  assert (Hq : exists w o, request q s1 =
                           (o, mkState (self s1) w (sent s1 ++ [q]) (stdout s1))).
  { unfold request. destruct (send q (world s1)) as [[r |] w]; eauto. }
  destruct Hq as (w & o & Hq). rewrite Hq.
  destruct o as [r | e |]; cbv beta iota;
    try (exists []; simpl; now rewrite Hb, <- app_assoc).
  rewrite andb_true_r.
  destruct (status_code r =? 401).
  - destruct (sends_submit_command_rec (fun _ => True) (fun _ _ => I) 1 "put" "volume"
                (Some [("volume_percent", VInt volume)]) None true (fun _ _ _ => I)
                (mkState (self s1) w (sent s1 ++ [q]) (stdout s1))) as (after & Ha & _).
    exists after. rewrite Ha. simpl. now rewrite Hb, <- !app_assoc.
  - exists []. unfold bind, json_of, ret, raise.
    destruct (status_code r =? 204); simpl; [now rewrite Hb, <- app_assoc |].
    destruct (json r); simpl; now rewrite Hb, <- app_assoc.
Qed.

(** C9. When [get_current_volume] has read a number, [change_volume] goes
    on as [set_device_volume] with the sum of the volume and the change,
    brought into the range 0..100: every request that follows is a request
    for a token or the PUT of that volume, and the PUT is sent as soon as
    the headers are built. *)
Theorem change_volume_clamps
    (device_id : string) (change : Z) (s : State Spotify) (current : value) (v : Z)
    (s1 : State Spotify) :
  get_current_volume device_id s = (Ok current, s1) ->
  as_int current = Ok v ->
  let volume := Z.min (Z.max (v + change) 0) 100 in
  change_volume device_id change s = set_device_volume volume s1
  /\ 0 <= volume <= 100
  /\ (exists new,
         sent (snd (change_volume device_id change s)) = (sent s1 ++ new)%list
         /\ Forall (token_or_volume volume) new)
  /\ (forall headers s2,
         get_user_api_headers s1 = (Ok headers, s2) ->
         In (command_request PUT "volume" (Some [("volume_percent", VInt volume)]) None
                             headers)
            (sent (snd (change_volume device_id change s)))).
Proof.
  intros Hcurrent Hint volume.
  assert (E : change_volume device_id change s = set_device_volume volume s1).
  { unfold change_volume. rewrite (bind_ok _ _ _ _ _ Hcurrent).
    destruct current; try discriminate; unfold bind, lift; rewrite Hint; reflexivity. }
  rewrite E. split; [reflexivity | split; [unfold volume; lia | split]].
  - apply set_device_volume_sends.
  - intros headers s2 Hheaders.
    destruct (set_device_volume_puts volume s1 headers s2 Hheaders) as (before & after & H).
    rewrite H. apply in_or_app. right. apply in_or_app. right. now left.
Qed.

End Volume.

(** The device [D] plays at 95, and the volume is raised by 10: the PUT
    asks for 100. *)
Lemma change_volume_clamps_witness :
  let devices := VDict [("devices", VList [VDict [("name", VStr "Kitchen");
                                                  ("id", VStr "D");
                                                  ("volume_percent", VInt 95)]])] in
  let s := Mock.start Mock.client_with_token Mock.tokens
             [Mock.reply 200 devices; Mock.reply_text 204 ""] in
  let headers := [("Authorization", "Bearer T")] in
  fst (get_current_volume "D" s) = Ok (VInt 95)
  /\ In (command_request PUT "volume" (Some [("volume_percent", VInt 100)]) None headers)
        (sent (snd (change_volume "D" 10 s))).
Proof.
  intros devices s headers. split; [vm_compute; reflexivity |].
  destruct (change_volume_clamps "D" 10 s (VInt 95) 95 (snd (get_current_volume "D" s))
              eq_refl eq_refl) as (_ & _ & _ & H).
  apply (H headers (snd (get_current_volume "D" s))). vm_compute. reflexivity.
Defined.

(** ** The records of a search *)

(** *** Dictionaries that grow at the end *)

Lemma dict_set_new {K V : Type} (eqb : K -> K -> bool) (k : K) (v : V) (d : list (K * V)) :
  dict_get eqb k d = None -> dict_set eqb k v d = (d ++ [(k, v)])%list.
Proof.
  induction d as [| [k' v'] d IH]; simpl; [reflexivity |].
  destruct (eqb k k'); [discriminate |]. intros H. now rewrite IH.
Qed.

Lemma dict_get_last {K V : Type} (eqb : K -> K -> bool) (k : K) (v : V) (d : list (K * V)) :
  eqb k k = true ->
  dict_get eqb k d = None -> dict_get eqb k (d ++ [(k, v)]) = Some v.
Proof.
  intros Hk. induction d as [| [k' v'] d IH]; simpl; [now rewrite Hk |].
  destruct (eqb k k'); [discriminate | exact IH].
Qed.

Lemma dict_set_last {K V : Type} (eqb : K -> K -> bool) (k : K) (v v' : V)
    (d : list (K * V)) :
  eqb k k = true ->
  dict_get eqb k d = None ->
  dict_set eqb k v' (d ++ [(k, v)]) = (d ++ [(k, v')])%list.
Proof.
  intros Hk. induction d as [| [k' w] d IH]; simpl; [now rewrite Hk |].
  destruct (eqb k k'); [discriminate |]. intros H. now rewrite IH.
Qed.

Lemma keyed_from_length (n : nat) (records : list pydict) :
  List.length (keyed_from n records) = List.length records.
Proof.
  revert n. induction records as [| r records IH]; intros n; simpl; [reflexivity |].
  now rewrite IH.
Qed.

Lemma keyed_from_app (n : nat) (a b : list pydict) :
  keyed_from n (a ++ b) = (keyed_from n a ++ keyed_from (n + List.length a) b)%list.
Proof.
  revert n. induction a as [| r a IH]; intros n; simpl.
  - now rewrite Nat.add_0_r.
  - rewrite IH. now rewrite Nat.add_succ_r.
Qed.

Lemma keyed_from_keys (n : nat) (records : list pydict) :
  map fst (keyed_from n records) = map Z.of_nat (seq n (List.length records)).
Proof.
  revert n. induction records as [| r records IH]; intros n; simpl; [reflexivity |].
  now rewrite IH.
Qed.

Lemma keyed_from_fresh (n m : nat) (records : list pydict) :
  (m < n \/ n + List.length records <= m)%nat ->
  iget (Z.of_nat m) (keyed_from n records) = None.
Proof.
  unfold iget. revert n. induction records as [| r records IH]; intros n H; simpl;
    [reflexivity |].
  destruct (Z.of_nat m =? Z.of_nat n) eqn:E.
  - apply Z.eqb_eq in E. simpl in H. lia.
  - apply IH. simpl in H. lia.
Qed.

(** Storing a record under the next key, field by field. *)
Lemma open_record (records : list pydict) :
  iset (len (keyed records)) [] (keyed records) =
  (keyed records ++ [(len (keyed records), [])])%list.
Proof.
  unfold iset, len, keyed. apply dict_set_new. rewrite keyed_from_length.
  apply (keyed_from_fresh 0). lia.
Qed.

Lemma set_field_last (records : list pydict) (entry : pydict) (k : string) (v : value) :
  set_field (len (keyed records)) k v
            (keyed records ++ [(len (keyed records), entry)])%list =
  Ok (keyed records ++ [(len (keyed records), sset k v entry)])%list.
Proof.
  assert (Hfresh : iget (len (keyed records)) (keyed records) = None).
  { unfold len, keyed. rewrite keyed_from_length. apply (keyed_from_fresh 0). lia. }
  unfold set_field, iget, iset in *.
  rewrite (dict_get_last Z.eqb _ _ _ (Z.eqb_refl _) Hfresh).
  now rewrite (dict_set_last Z.eqb _ _ _ _ (Z.eqb_refl _) Hfresh).
Qed.

Lemma keyed_snoc (records : list pydict) (record : pydict) :
  (keyed records ++ [(len (keyed records), record)])%list = keyed (records ++ [record]).
Proof.
  unfold keyed, len. rewrite keyed_from_app, keyed_from_length. reflexivity.
Qed.

Lemma join_strings (sep : string) (names : list string) :
  join sep (map VStr names) = Ok (String.concat sep names).
Proof.
  induction names as [| n names IH]; [reflexivity |].
  destruct names as [| n' names]; [reflexivity |].
  change (map VStr (n :: n' :: names)) with (VStr n :: map VStr (n' :: names)).
  cbn [join]. cbn [map] in *. rewrite IH. reflexivity.
Qed.

Lemma names_of_names_in (artists : list value) (names : list string) :
  names_in artists = Some names -> names_of artists = Ok (map VStr names).
Proof.
  revert names. induction artists as [| a artists IH]; intros names H; simpl in *.
  - now inversion H.
  - unfold name_of, field_of in H.
    destruct (getitem a "name") as [[] | |]; try discriminate.
    destruct (names_in artists) as [rest |]; [| discriminate].
    inversion H; subst. simpl. now rewrite (IH rest eq_refl).
Qed.

Lemma string_app_assoc (a b c : string) : (a ++ b) ++ c = a ++ b ++ c.
Proof. induction a as [| ch a IH]; simpl; [reflexivity | now rewrite IH]. Qed.

Lemma field_of_getitem (item : value) (k : string) (v : value) :
  field_of item k = Some v -> getitem item k = Ok v.
Proof. unfold field_of. destruct (getitem item k); intros H; now inversion H. Qed.

Lemma name_of_getitem (item : value) (name : string) :
  name_of item = Some name -> getitem item "name" = Ok (VStr name).
Proof.
  unfold name_of. destruct (field_of item "name") as [[] |] eqn:E; intros H;
    inversion H; subst. now apply field_of_getitem.
Qed.

Lemma artists_of_names (item : value) (names : list string) :
  artists_of item = Some names ->
  exists artists, getitem item "artists" = Ok (VList artists)
                  /\ names_of artists = Ok (map VStr names).
Proof.
  unfold artists_of. destruct (field_of item "artists") as [[] |] eqn:E; intros H;
    try discriminate.
  exists l. split; [now apply field_of_getitem | now apply names_of_names_in].
Qed.

(** Each extractor stores the record of the specification under the next
    key of a dense result set. *)
Lemma extractor_appends (k : kind) (item : value) (record : pydict) (records : list pydict) :
  record_of k item = Some record ->
  extractor k item (keyed records) = Ok (keyed (records ++ [record])).
Proof.
  destruct k; simpl; intros H.
  - destruct (field_of item "name") as [name |] eqn:Hname; [| discriminate].
    destruct (field_of item "uri") as [uri |] eqn:Huri; [| discriminate].
    inversion H; subst. unfold extract_artist.
    rewrite (field_of_getitem _ _ _ Hname), (field_of_getitem _ _ _ Huri). cbn [obind].
    rewrite open_record, set_field_last. cbn [obind]. rewrite set_field_last.
    now rewrite keyed_snoc.
  - destruct (name_of item) as [name |] eqn:Hname; [| discriminate].
    destruct (field_of item "uri") as [uri |] eqn:Huri; [| discriminate].
    destruct (artists_of item) as [names |] eqn:Hartists; [| discriminate].
    inversion H; subst. unfold extract_album.
    destruct (artists_of_names _ _ Hartists) as (artists & Ha & Hn).
    rewrite (name_of_getitem _ _ Hname), (field_of_getitem _ _ _ Huri), Ha.
    cbn [obind py_iter]. rewrite Hn. cbn [obind str_add]. rewrite join_strings.
    cbn [obind]. rewrite open_record, set_field_last. cbn [obind].
    rewrite set_field_last. cbn [obind]. rewrite set_field_last.
    rewrite keyed_snoc, string_app_assoc. reflexivity.
  - destruct (name_of item) as [name |] eqn:Hname; [| discriminate].
    destruct (field_of item "uri") as [uri |] eqn:Huri; [| discriminate].
    destruct (artists_of item) as [names |] eqn:Hartists; [| discriminate].
    destruct (field_of item "album") as [album |] eqn:Halbum; [| discriminate].
    destruct (name_of album) as [album_name |] eqn:Halbum_name; [| discriminate].
    inversion H; subst. unfold extract_track.
    destruct (artists_of_names _ _ Hartists) as (artists & Ha & Hn).
    rewrite (name_of_getitem _ _ Hname), (field_of_getitem _ _ _ Huri), Ha.
    cbn [obind py_iter]. rewrite Hn. cbn [obind].
    rewrite (field_of_getitem _ _ _ Halbum). cbn [obind].
    rewrite (name_of_getitem _ _ Halbum_name). cbn [obind str_add].
    rewrite join_strings.
    cbn [obind]. rewrite open_record, set_field_last. cbn [obind].
    rewrite set_field_last. cbn [obind]. rewrite set_field_last.
    rewrite keyed_snoc, !string_app_assoc. reflexivity.
Qed.

Lemma extract_items_appends (k : kind) (items : list value) (more records : list pydict) :
  records_of k items = Some more ->
  extract_items (extractor k) items (keyed records) = Ok (keyed (records ++ more)).
Proof.
  revert more records. induction items as [| item items IH]; intros more records H;
    simpl in *.
  - inversion H. now rewrite app_nil_r.
  - destruct (record_of k item) as [record |] eqn:Hrecord; [| discriminate].
    destruct (records_of k items) as [rest |] eqn:Hrest; [| discriminate].
    inversion H; subst. rewrite (extractor_appends k item record records Hrecord).
    cbn [obind]. rewrite (IH rest (records ++ [record])%list eq_refl).
    now rewrite <- app_assoc.
Qed.

Lemma records_of_split (k : kind) (a b : list value) (r : list pydict) :
  records_of k (a ++ b) = Some r ->
  exists ra rb, records_of k a = Some ra /\ records_of k b = Some rb /\ r = (ra ++ rb)%list.
Proof.
  revert r. induction a as [| item a IH]; intros r H; simpl in *.
  - now exists [], r.
  - destruct (record_of k item) as [record |]; [| discriminate].
    destruct (records_of k (a ++ b)) as [rest |] eqn:E; [| discriminate].
    inversion H; subst. destruct (IH rest eq_refl) as (ra & rb & Ha & Hb & Hr).
    exists (record :: ra), rb. rewrite Ha, Hb, Hr. auto.
Qed.

(** ** Paging *)

Section WalkFacts.
Context `{RT : Runtime} {I : Type}.
Variable api_headers : M I (list (string * string)).
Variable field : string.
Variable k : kind.

(** Walking through well-formed pages takes one unit of fuel a page and
    adds the records of their items, in order. *)
Lemma follow_pages_walk (cursor : value) (s : State I) (pages : list (list value))
    (cursor' : value) (s' : State I) :
  walk api_headers field cursor s pages cursor' s' ->
  forall (more records : list pydict) (fuel : nat),
    records_of k (List.concat pages) = Some more ->
    follow_pages api_headers (List.length pages + fuel) field (extractor k) cursor
                 (keyed records) s =
    follow_pages api_headers fuel field (extractor k) cursor'
                 (keyed (records ++ more)) s'.
Proof.
  induction 1 as [cursor s
                 | cursor s headers s1 r s2 body data items next_items pages cursor' s'
                     Hnext Hheaders Hpage Hstatus Hjson Hfield Hitems Hcursor Hwalk IH];
    intros more records fuel Hrecords.
  - simpl in Hrecords. inversion Hrecords. now rewrite app_nil_r.
  - simpl in Hrecords. destruct (records_of_split k _ _ _ Hrecords) as (ra & rb & Ha & Hb & Hr).
    subst more. cbn [List.length Nat.add follow_pages].
    unfold bind at 1. unfold lift at 1. rewrite Hnext.
    rewrite (bind_ok _ _ _ _ _ Hheaders), (bind_ok _ _ _ _ _ Hpage), Hstatus.
    cbn [Z.eqb Pos.eqb negb]. unfold json_of. rewrite Hjson.
    unfold bind at 1. unfold ret at 1.
    unfold bind at 1. unfold lift at 1. rewrite Hfield.
    unfold bind at 1. unfold lift at 1. rewrite Hitems.
    unfold bind at 1. unfold lift at 1. cbn [py_iter].
    unfold bind at 1. unfold lift at 1. rewrite (extract_items_appends k items ra records Ha).
    unfold bind at 1. unfold lift at 1. rewrite Hcursor.
    rewrite (IH rb (records ++ ra)%list fuel Hb). now rewrite <- app_assoc.
Qed.


(** The loop ends at a page that is answered with another status than 200
    and the error message of the service. *)
Lemma follow_pages_failed (fuel : nat)
    (extract_method : value -> resultset -> outcome resultset)
    (cursor : value) (results : resultset) (s s1 s2 : State I)
    (headers : list (string * string)) (r : Response) (body error : value)
    (message : string) :
  has_next cursor = Ok true ->
  api_headers s = (Ok headers, s1) ->
  get_page cursor headers s1 = (Ok r, s2) ->
  status_code r <> 200 ->
  json r = Some body ->
  getitem body "error" = Ok error ->
  getitem error "message" = Ok (VStr message) ->
  follow_pages api_headers (S fuel) field extract_method cursor results s =
  (Ok results, snd (print ("Error getting results: " ++ message) s2)).
Proof.
  intros Hnext Hheaders Hpage Hstatus Hjson Herror Hmessage.
  apply Z.eqb_neq in Hstatus. cbn [follow_pages].
  unfold bind at 1. unfold lift at 1. rewrite Hnext.
  rewrite (bind_ok _ _ _ _ _ Hheaders), (bind_ok _ _ _ _ _ Hpage), Hstatus.
  cbn [negb]. unfold bind.
  rewrite (report_error_prints r s2 body error message Hjson Herror Hmessage).
  reflexivity.
Qed.

(** The first page. *)
Lemma paged_extract_first (fuel : nat) (data : value) (all_pages : bool)
    (items : list value) (next_items : value) (records : list pydict) (s : State I) :
  getitem data "items" = Ok (VList items) ->
  getitem data "next" = Ok next_items ->
  records_of k items = Some records ->
  paged_extract api_headers fuel field data all_pages (extractor k) s =
  if all_pages then
    follow_pages api_headers fuel field (extractor k) next_items (keyed records) s
  else (Ok (keyed records), s).
Proof.
  intros Hitems Hnext Hrecords. unfold paged_extract.
  unfold bind at 1. unfold lift at 1. rewrite Hitems.
  unfold bind at 1. unfold lift at 1. cbn [py_iter].
  unfold bind at 1. unfold lift at 1.
  pose proof (extract_items_appends k items records [] Hrecords) as E.
  change (keyed []) with (@nil (Z * pydict)) in E. cbn [app] in E. rewrite E.
  unfold bind at 1. unfold lift at 1. rewrite Hnext.
  destruct all_pages; reflexivity.
Qed.

Lemma paged_extract_all (fuel : nat) (data : value)
    (items : list value) (next_items : value) (records : list pydict) (s : State I)
    (pages : list (list value)) (cursor : value) (s' : State I) (more : list pydict) :
  getitem data "items" = Ok (VList items) ->
  getitem data "next" = Ok next_items ->
  records_of k items = Some records ->
  walk api_headers field next_items s pages cursor s' ->
  records_of k (List.concat pages) = Some more ->
  (List.length pages <= fuel)%nat ->
  paged_extract api_headers fuel field data true (extractor k) s =
  follow_pages api_headers (fuel - List.length pages) field (extractor k) cursor
               (keyed (records ++ more)) s'.
Proof.
  intros Hitems Hnext Hrecords Hwalk Hmore Hfuel.
  rewrite (paged_extract_first fuel data true items next_items records s Hitems Hnext
             Hrecords).
  replace fuel with (List.length pages + (fuel - List.length pages))%nat at 1 by lia.
  now apply follow_pages_walk.
Qed.

End WalkFacts.


Section ExtractData.
Context `{RT : Runtime}.
Variables (k : kind) (field : string) (data : value) (items : list value)
  (next_items : value) (records : list pydict).
Hypothesis Hitems : getitem data "items" = Ok (VList items).
Hypothesis Hnext : getitem data "next" = Ok next_items.
Hypothesis Hrecords : records_of k items = Some records.


Variables (r : Response) (body error : value) (message : string).
Hypothesis Hstatus : status_code r <> 200.
Hypothesis Hjson : json r = Some body.
Hypothesis Herror : getitem body "error" = Ok error.
Hypothesis Hmessage : getitem error "message" = Ok (VStr message).

(** C6, as amended. [extract_data] with [all_pages], in both clients: when
    the fetch of a cursor is answered with a status other than 200 and a
    JSON body that carries the error message of the service, the message
    is printed, and the records gathered from the first page and from the
    pages passed before are returned as they are; nothing is raised. *)
Theorem failed_page_truncates :
  (forall fuel (s : State Spotify) pages cursor s1 more headers s2 s3,
      walk _get_api_headers field next_items s pages cursor s1 ->
      records_of k (List.concat pages) = Some more ->
      has_next cursor = Ok true ->
      _get_api_headers s1 = (Ok headers, s2) ->
      get_page cursor headers s2 = (Ok r, s3) ->
      (List.length pages < fuel)%nat ->
      extract_data fuel field data true (extractor k) s =
      (Ok (keyed (records ++ more)),
       snd (print ("Error getting results: " ++ message) s3)))
  /\ (forall fuel (s : State Legacy.Spotify) pages cursor s1 more headers s2 s3,
         walk Legacy._get_api_headers field next_items s pages cursor s1 ->
         records_of k (List.concat pages) = Some more ->
         has_next cursor = Ok true ->
         Legacy._get_api_headers s1 = (Ok headers, s2) ->
         get_page cursor headers s2 = (Ok r, s3) ->
         (List.length pages < fuel)%nat ->
         Legacy.extract_data fuel field data true (extractor k) s =
         (Ok (keyed (records ++ more)),
          snd (print ("Error getting results: " ++ message) s3))).
Proof.
  split.
  - intros fuel s pages cursor s1 more headers s2 s3 Hwalk Hmore Hcursor Hheaders Hpage Hfuel.
    unfold extract_data.
    rewrite (paged_extract_all _ field k fuel data items next_items records s pages cursor s1
               more Hitems Hnext Hrecords Hwalk Hmore (Nat.lt_le_incl _ _ Hfuel)).
    destruct (fuel - List.length pages)%nat as [| rest] eqn:E; [lia |].
    now apply (follow_pages_failed _ field rest (extractor k) cursor _ s1 s2 s3 headers r
                 body error message).
  - intros fuel s pages cursor s1 more headers s2 s3 Hwalk Hmore Hcursor Hheaders Hpage Hfuel.
    unfold Legacy.extract_data.
    rewrite (paged_extract_all _ field k fuel data items next_items records s pages cursor s1
               more Hitems Hnext Hrecords Hwalk Hmore (Nat.lt_le_incl _ _ Hfuel)).
    destruct (fuel - List.length pages)%nat as [| rest] eqn:E; [lia |].
    now apply (follow_pages_failed _ field rest (extractor k) cursor _ s1 s2 s3 headers r
                 body error message).
Qed.

End ExtractData.


(** The second page is answered with 500 and an error message: the two
    records of the first page are returned. *)
Lemma failed_page_truncates_witness :
  let s := Mock.start Mock.client_with_token Mock.tokens [Pages.failed] in
  fst (extract_data 2 "artists" Pages.first true extract_artist s) =
  Ok [(0, Pages.found "Abba" "a:1"); (1, Pages.found "Beck" "a:2")]
  /\ stdout (snd (extract_data 2 "artists" Pages.first true extract_artist s)) =
     ["Error getting results: Server error"].
Proof.
  intros s.
  assert (status_code Pages.failed <> 200) as Hstatus by (cbn; lia).
  destruct (failed_page_truncates Artist "artists" Pages.first
              [Pages.artist "Abba" "a:1"; Pages.artist "Beck" "a:2"]
              (VStr "https://api.spotify.com/v1/search?offset=2")
              [Pages.found "Abba" "a:1"; Pages.found "Beck" "a:2"]
              eq_refl eq_refl eq_refl
              Pages.failed _ _ "Server error" Hstatus eq_refl eq_refl eq_refl) as [H _].
  change extract_artist with (extractor Artist).
  rewrite (H 2%nat s [] _ s [] [("Authorization", "Bearer T")] s
             (snd (get_page (VStr "https://api.spotify.com/v1/search?offset=2")
                            [("Authorization", "Bearer T")] s))
             (walk_here _ _ _ _) eq_refl eq_refl eq_refl eq_refl (Nat.lt_0_succ 1)).
  split; reflexivity.
Defined.

(** The second page is answered with 500 and a body that is not JSON: the
    records of the first page are lost, and [JSONDecodeError] reaches the
    caller. *)
Lemma failed_page_raises_on_undecodable_body :
  let s := Mock.start Mock.client_with_token Mock.tokens [Pages.unreadable] in
  let cursor := VStr "https://api.spotify.com/v1/search?offset=2" in
  getitem Pages.first "next" = Ok cursor
  /\ (exists r s', get_page cursor [("Authorization", "Bearer T")] s = (Ok r, s')
                   /\ status_code r = 500)
  /\ extract_data 2 "artists" Pages.first false extract_artist s =
     (Ok [(0, Pages.found "Abba" "a:1"); (1, Pages.found "Beck" "a:2")], s)
  /\ fst (extract_data 2 "artists" Pages.first true extract_artist s) = Raise JSONDecodeError.
Proof.
  intros s cursor. split; [reflexivity | split; [| split]].
  - exists Pages.unreadable.
    exists (snd (get_page cursor [("Authorization", "Bearer T")] s)). split; reflexivity.
  - reflexivity.
  - vm_compute. reflexivity.
Qed.

(** * Further properties *)

(** ** How many requests a call costs *)

Section Costs.
Context `{RT : Runtime} {I : Type}.

Lemma costs_more {A : Type} (n n' : nat) (m : M I A) :
  (n <= n')%nat -> costs n m -> costs n' m.
Proof.
  intros Hn Hm s. destruct (Hm s) as (new & Hnew & Hcount). exists new. split; [exact Hnew | lia].
Qed.

Lemma costs_tokens {A : Type} (m : M I A) :
  sends is_token_request m -> costs 0 m.
Proof.
  intros Hm s. destruct (Hm s) as (new & Hnew & Hall). exists new. split; [exact Hnew |].
  clear Hnew. induction Hall as [| q new [_ Hurl] _ IH]; simpl; [lia |].
  unfold to_service at 1. rewrite Hurl, String.eqb_refl. exact IH.
Qed.

Lemma costs_request (q : Request) : costs 1 (request (I := I) q).
Proof.
  intros s. exists [q]. unfold request.
  destruct (send q (world s)) as [[r |] w]; simpl; split; try reflexivity;
    destruct (to_service q); simpl; lia.
Qed.

Lemma costs_bind {A B : Type} (a b : nat) (m : M I A) (f : A -> M I B) :
  costs a m -> (forall x, costs b (f x)) -> costs (a + b) (bind m f).
Proof.
  intros Hm Hf s. unfold bind. destruct (Hm s) as (new & Hnew & Hcount).
  destruct (m s) as [[x | e |] s']; simpl in *; try (exists new; split; [exact Hnew | lia]).
  destruct (Hf x s') as (new' & Hnew' & Hcount').
  exists (new ++ new')%list. rewrite Hnew', Hnew, app_assoc. split; [reflexivity |].
  rewrite filter_app, length_app. lia.
Qed.

Lemma costs_ext {A : Type} (n : nat) (m m' : M I A) :
  (forall s, m s = m' s) -> costs n m' -> costs n m.
Proof. intros E H s. rewrite E. apply H. Qed.

Lemma costs_nothing {A : Type} (m : M I A) :
  (forall s, sent (snd (m s)) = sent s) -> costs 0 m.
Proof. intros H s. exists []. rewrite H, app_nil_r. auto. Qed.

End Costs.

Ltac costs_free := apply (costs_more 0); [lia | now apply costs_nothing].

Section CostsClient.
Context `{RT : Runtime}.

Lemma costs_get_user_api_headers : costs 0 get_user_api_headers.
Proof. apply costs_tokens. apply sends_get_user_api_headers. auto. Qed.

Lemma costs_legacy_get_user_api_headers : costs 0 Legacy.get_user_api_headers.
Proof. apply costs_tokens. apply sends_legacy_get_user_api_headers. auto. Qed.

Lemma costs_conclude (r : Response) : costs 0 (conclude r).
Proof.
  apply costs_nothing. intros s. unfold conclude, bind, json_of, ret, raise.
  destruct (status_code r =? 204); [reflexivity |]. now destruct (json r).
Qed.

Lemma costs_attempt (v : verb) (command : string) (qp bp : option pydict) :
  costs 1 (attempt v command qp bp).
Proof.
  unfold attempt. apply (costs_bind 0 1); [apply costs_get_user_api_headers | intros headers].
  apply costs_request.
Qed.

Lemma costs_legacy_attempt (v : verb) (command : string) (qp bp : option pydict) :
  costs 1 (legacy_attempt v command qp bp).
Proof.
  unfold legacy_attempt.
  apply (costs_bind 0 1); [apply costs_legacy_get_user_api_headers | intros headers].
  apply costs_request.
Qed.

Lemma costs_submit_command_rec (depth : nat) (method command : string)
    (qp bp : option pydict) (has_retried : bool) :
  costs (if has_retried then 1 else 2)
        (submit_command_rec depth method command qp bp has_retried).
Proof.
  revert has_retried. induction depth as [| depth IH]; intros has_retried.
  - apply (costs_more 0); [destruct has_retried; lia | now apply costs_nothing].
  - destruct (dict_get String.eqb method METHODS) as [v |] eqn:Hv.
    + eapply costs_ext; [intros s; apply (submit_command_rec_step method command v qp bp Hv) |].
      destruct has_retried.
      * apply (costs_bind 1 0); [apply costs_attempt | intros r].
        rewrite andb_false_r. apply costs_conclude.
      * apply (costs_bind 1 1); [apply costs_attempt | intros r].
        destruct ((status_code r =? 401) && negb false); [apply (IH true) |].
        apply (costs_more 0); [lia | apply costs_conclude].
    + eapply costs_ext; [intros s; cbn [submit_command_rec]; rewrite Hv; reflexivity |].
      apply (costs_more 0); [destruct has_retried; lia | now apply costs_nothing].
Qed.

Lemma costs_legacy_submit_command_rec (depth : nat) (method command : string)
    (qp bp : option pydict) (has_retried : bool) :
  costs (if has_retried then 1 else 2)
        (Legacy.submit_command_rec depth method command qp bp has_retried).
Proof.
  revert has_retried. induction depth as [| depth IH]; intros has_retried.
  - apply (costs_more 0); [destruct has_retried; lia | now apply costs_nothing].
  - destruct (dict_get String.eqb method METHODS) as [v |] eqn:Hv.
    + eapply costs_ext;
        [intros s; apply (legacy_submit_command_rec_step method command v qp bp Hv) |].
      destruct has_retried.
      * apply (costs_bind 1 0); [apply costs_legacy_attempt | intros r].
        rewrite andb_false_r. now apply costs_nothing.
      * apply (costs_bind 1 1); [apply costs_legacy_attempt | intros r].
        destruct ((status_code r =? 401) && negb false); [apply (IH true) |].
        apply (costs_more 0); [lia | now apply costs_nothing].
    + eapply costs_ext;
        [intros s; cbn [Legacy.submit_command_rec]; rewrite Hv; reflexivity |].
      apply (costs_more 0); [destruct has_retried; lia | now apply costs_nothing].
Qed.

(** X1. Whatever the answers, one call of [submit_command] sends at most
    two requests to the service, in both clients, and at most one when it
    is itself the retry: a 401 is retried once and never again. *)
Theorem submit_command_at_most_two_attempts (method command : string)
    (qp bp : option pydict) (has_retried : bool) :
  costs (if has_retried then 1 else 2) (submit_command method command qp bp has_retried)
  /\ costs (if has_retried then 1 else 2)
           (Legacy.submit_command method command qp bp has_retried).
Proof.
  split; [apply costs_submit_command_rec | apply costs_legacy_submit_command_rec].
Qed.

(** X2. A method other than get, post and put is refused at once, in both
    clients: the result is [False] with a message that names the method,
    and the state is as before, so nothing is sent and no token is
    fetched. *)
Theorem unknown_method_rejected (method command : string) (qp bp : option pydict)
    (has_retried : bool) :
  method <> "get" -> method <> "post" -> method <> "put" ->
  (forall s : State Spotify,
      submit_command method command qp bp has_retried s =
      (Ok (false, VStr ("Unknown command type " ++ dquote ++ method ++ dquote)), s))
  /\ (forall s : State Legacy.Spotify,
         Legacy.submit_command method command qp bp has_retried s =
         (Ok (false, "Unknown command type " ++ dquote ++ method ++ dquote), s)).
Proof.
  intros Hget Hpost Hput.
  assert (H : dict_get String.eqb method METHODS = None).
  { apply String.eqb_neq in Hget, Hpost, Hput. simpl. now rewrite Hget, Hpost, Hput. }
  split; intros s.
  - unfold submit_command. cbn [submit_command_rec]. now rewrite H.
  - unfold Legacy.submit_command. cbn [Legacy.submit_command_rec]. now rewrite H.
Qed.

End CostsClient.

(** The method delete is not one of the three. *)
Lemma unknown_method_rejected_witness :
  let s := Mock.start Mock.client Mock.tokens [] in
  submit_command "delete" "pause" None None false s =
  (Ok (false, VStr ("Unknown command type " ++ dquote ++ "delete" ++ dquote)), s).
Proof.
  intros s.
  refine (proj1 (unknown_method_rejected "delete" "pause" None None false _ _ _) s);
    discriminate.
Defined.

(** ** Fetching a token *)

Section TokenFetch.
Context `{RT : Runtime}.

Lemma request_state {I : Type} (q : Request) (s : State I) (r : Response) (s1 : State I) :
  request q s = (Ok r, s1) ->
  s1 = mkState (self s) (world s1) (sent s ++ [q]) (stdout s).
Proof.
  unfold request. destruct (send q (world s)) as [[r0 |] w]; intros H; inversion H.
  reflexivity.
Qed.

(** After a miss, up to the point where the body is decoded. *)
Lemma cache_miss_decoded (auth_params : pydict) (s : State Spotify) (r : Response)
    (s1 : State Spotify) (body : value) :
  stale s ->
  request (token_request (self s) auth_params) s = (Ok r, s1) ->
  200 <= status_code r < 400 ->
  json r = Some body ->
  _get_access_token auth_params s =
  (present <- lift (contains "access_token" body) ;;
   if present then
     token <- lift (getitem body "access_token") ;;
     set_access_token token ;;;
     t <- now ;;
     expires_in <- lift (getitem body "expires_in") ;;
     delta <- lift (timedelta_seconds expires_in) ;;
     expires <- lift (datetime_add t delta) ;;
     set_token_expires (Some expires) ;;;
     c <- get_self ;;
     ret (access_token c, token_expires c)
   else ret (VNone, None)) s1.
Proof.
  intros Hstale Hreq [Hlo Hhi] Hjson. unfold _get_access_token.
  rewrite (bind_ok _ _ _ _ _ (token_cached_stale s Hstale)).
  unfold _get_base64_auth. unfold bind at 1. unfold bind at 1. unfold get_self, ret at 1.
  unfold token_request in Hreq. rewrite (bind_ok _ _ _ _ _ Hreq).
  apply Z.leb_le in Hlo. apply Z.ltb_lt in Hhi. rewrite Hlo, Hhi. cbn [andb].
  unfold json_of. rewrite Hjson. reflexivity.
Qed.


(** X4. A miss whose answer holds a token and no [expires_in]. On an
    instance that never held a token, the fetch raises [KeyError] after it
    has stored the token, and the expiry stays [None]; from then on every
    fetch raises [TypeError] at the cache test and sends nothing. *)
Theorem token_without_expiry_wedges_client
    (auth_params : pydict) (s : State Spotify) (r : Response) (s1 : State Spotify)
    (body token : value) :
  access_token (self s) = VNone ->
  token_expires (self s) = None ->
  request (token_request (self s) auth_params) s = (Ok r, s1) ->
  200 <= status_code r < 400 ->
  json r = Some body ->
  contains "access_token" body = Ok true ->
  getitem body "access_token" = Ok token ->
  token <> VNone ->
  getitem body "expires_in" = Raise KeyError ->
  let s2 := with_self s1 (with_token (self s) token None) in
  _get_access_token auth_params s = (Raise KeyError, s2)
  /\ forall other_params, _get_access_token other_params s2 = (Raise TypeError, s2).
Proof.
  intros Hnone Hexpiry Hreq Hstatus Hjson Hcontains Htoken Hnot_none Hmissing s2.
  pose proof (request_state _ _ _ _ Hreq) as Hs1.
  assert (Hself : self s1 = self s) by (rewrite Hs1; reflexivity).
  split.
  - rewrite (cache_miss_decoded auth_params s r s1 body (or_introl Hnone) Hreq Hstatus Hjson).
    unfold bind at 1. unfold lift at 1. rewrite Hcontains.
    unfold bind at 1. unfold lift at 1. rewrite Htoken.
    unfold set_access_token, bind, get_self, set_self, now, lift, ret.
    cbn [self world sent stdout]. rewrite Hmissing.
    unfold s2, with_self, with_token. rewrite Hself, Hexpiry. reflexivity.
  - intros other_params. unfold _get_access_token, token_cached, bind, get_self.
    unfold s2, with_self, with_token. cbn [self access_token token_expires].
    destruct token; try congruence; reflexivity.
Qed.

(** X5. A miss that fails. When no usable token is cached and the
    authorization endpoint answers with a status outside 200..399, the
    call goes on all the same: [_get_api_headers] returns the header
    [Bearer None], and the instance is as before. *)
Theorem failed_fetch_gives_bearer_none
    (s : State Spotify) (r : Response) (s1 : State Spotify) :
  stale s ->
  request (token_request (self s) _get_generic_auth_params) s = (Ok r, s1) ->
  ~ (200 <= status_code r < 400) ->
  _get_api_headers s = (Ok [("Authorization", "Bearer None")], s1)
  /\ self s1 = self s.
Proof.
  intros Hstale Hreq Hstatus. split.
  - unfold _get_api_headers, _get_generic_access_token.
    unfold bind at 1. unfold bind at 1.
    rewrite (cache_miss_absent _ s r s1 Hstale Hreq (or_introl Hstatus)). reflexivity.
  - rewrite (request_state _ _ _ _ Hreq). reflexivity.
Qed.

(** X6. [refresh_user_access_token] does not look at the cache. Without a
    refresh token it raises [PermissionError] and changes nothing; with
    one it sends exactly one request, that of the refresh-token flow, also
    when a usable token is cached. *)
Theorem refresh_ignores_cache (s : State Spotify) :
  (refresh_token (self s) = None ->
   refresh_user_access_token s = (Raise PermissionError, s))
  /\ (forall rt,
        refresh_token (self s) = Some rt ->
        sent (snd (refresh_user_access_token s)) =
        (sent s ++ [token_request (self s)
                      [("refresh_token", VStr rt); ("grant_type", VStr "refresh_token")]])%list).
Proof.
  split.
  - intros Hrt. unfold refresh_user_access_token, bind, get_self. now rewrite Hrt.
  - intros rt Hrt. unfold refresh_user_access_token. unfold bind at 1. unfold get_self at 1.
    rewrite Hrt. unfold _get_base64_auth. unfold bind at 1. unfold bind at 1.
    unfold get_self at 1. unfold ret at 1. fold (token_request (self s)
      [("refresh_token", VStr rt); ("grant_type", VStr "refresh_token")]).
    set (q := token_request (self s) _).
    unfold bind at 1. unfold request.
    destruct (send q (world s)) as [[r |] w]; [| reflexivity].
    destruct ((200 <=? status_code r) && (status_code r <? 400)); [| reflexivity].
    unfold json_of. destruct (json r) as [body |]; [| reflexivity].
    unfold bind at 1. unfold ret at 1. unfold bind at 1. unfold lift at 1.
    destruct (contains "access_token" body) as [[|] | e |]; try reflexivity.
    unfold bind at 1. unfold lift at 1.
    destruct (getitem body "access_token") as [token | e |]; try reflexivity.
    unfold set_access_token, set_token_expires, bind, get_self, set_self, now, lift, ret.
    cbn [self world sent stdout].
    destruct (getitem body "expires_in") as [expires_in | e |]; try reflexivity.
    destruct (timedelta_seconds expires_in) as [delta | e |]; try reflexivity.
    destruct (datetime_add (utcnow w) delta) as [expires | e |]; reflexivity.
Qed.

End TokenFetch.


(** The answer holds the token [T] and nothing else. *)
Lemma token_without_expiry_wedges_client_witness :
  let s := Mock.start Mock.client Scenes.no_expiry [] in
  let s2 := snd (_get_access_token _get_generic_auth_params s) in
  fst (_get_access_token _get_generic_auth_params s) = Raise KeyError
  /\ _get_access_token (user_auth_params "refresh") s2 = (Raise TypeError, s2).
Proof.
  intros s s2.
  assert (Hreq : request (token_request (self s) _get_generic_auth_params) s =
                 (Ok (Scenes.no_expiry "client_credentials"),
                  snd (request (token_request (self s) _get_generic_auth_params) s)))
    by (vm_compute; reflexivity).
  assert (Hstatus : 200 <= status_code (Scenes.no_expiry "client_credentials") < 400)
    by (cbn; lia).
  assert (Htoken : VStr "T" <> VNone) by discriminate.
  destruct (token_without_expiry_wedges_client _get_generic_auth_params s _ _
              (VDict [("access_token", VStr "T")]) (VStr "T")
              eq_refl eq_refl Hreq Hstatus eq_refl eq_refl eq_refl Htoken eq_refl)
    as (E & Hnext).
  unfold s2. rewrite E. split; [reflexivity | apply Hnext].
Defined.

(** The authorization endpoint answers with 400. *)
Lemma failed_fetch_gives_bearer_none_witness :
  let s := Mock.start Mock.client Scenes.refused [] in
  fst (_get_api_headers s) = Ok [("Authorization", "Bearer None")].
Proof.
  intros s.
  assert (H : stale s) by (left; reflexivity).
  assert (Hreq : request (token_request (self s) _get_generic_auth_params) s =
                 (Ok (Scenes.refused "client_credentials"),
                  snd (request (token_request (self s) _get_generic_auth_params) s)))
    by (vm_compute; reflexivity).
  assert (Hstatus : ~ (200 <= status_code (Scenes.refused "client_credentials") < 400))
    by (cbn; lia).
  destruct (failed_fetch_gives_bearer_none s _ _ H Hreq Hstatus) as (E & _).
  now rewrite E.
Defined.

(** The token [T] is cached and usable, and the request is sent all the same. *)
Lemma refresh_ignores_cache_witness :
  let s := Mock.start Mock.client_with_token Mock.tokens [] in
  sent (snd (refresh_user_access_token s)) =
  [token_request Mock.client_with_token
     [("refresh_token", VStr "refresh"); ("grant_type", VStr "refresh_token")]].
Proof.
  intros s. exact (proj2 (refresh_ignores_cache s) "refresh" eq_refl).
Defined.

(** ** The earlier client fetches a token for every request *)

Section LegacyTokens.
Context `{RT : Runtime}.

Lemma legacy_get_access_token_state (auth_params : pydict) (s : State Legacy.Spotify) :
  exists o w,
    Legacy._get_access_token auth_params s =
    (o, mkState (self s) w (sent s ++ [legacy_token_request (self s) auth_params])
                (stdout s)).
Proof.
  unfold Legacy._get_access_token, Legacy._get_base64_auth.
  unfold bind at 1. unfold bind at 1. unfold get_self at 1. unfold ret at 1.
  fold (legacy_token_request (self s) auth_params).
  set (q := legacy_token_request (self s) auth_params).
  unfold bind at 1. unfold request.
  destruct (send q (world s)) as [[r |] w]; [| eauto].
  destruct ((200 <=? status_code r) && (status_code r <? 400)); [| unfold ret; eauto].
  unfold json_of. destruct (json r) as [body |]; [| unfold bind, raise; eauto].
  unfold bind, ret, lift.
  destruct (contains "access_token" body) as [[|] | e |]; eauto.
Qed.

Lemma legacy_user_headers_state (s : State Legacy.Spotify) (rt : string) :
  Legacy.refresh_token (self s) = Some rt ->
  exists o w,
    Legacy.get_user_api_headers s =
    (o, mkState (self s) w
                (sent s ++ [legacy_token_request (self s) (user_auth_params rt)])
                (stdout s)).
Proof.
  intros Hrt. unfold Legacy.get_user_api_headers, Legacy._get_user_access_token,
    Legacy._get_user_auth_params.
  unfold bind at 1. unfold bind at 1. unfold bind at 1. unfold get_self at 1.
  rewrite Hrt. unfold ret at 1.
  destruct (legacy_get_access_token_state (user_auth_params rt) s) as (o & w & E).
  unfold user_auth_params in *. rewrite E.
  destruct o as [token | e |]; unfold ret; eauto.
Qed.

(** X7. In the earlier client every token fetch goes to the authorization
    endpoint: building the headers sends exactly one token request,
    whatever was fetched before, and when the first attempt of
    [submit_command] is answered with 401, the first thing the retry sends
    is a new token request. *)
Theorem legacy_fetches_token_every_time (s : State Legacy.Spotify) :
  sent (snd (Legacy._get_api_headers s)) =
  (sent s ++ [legacy_token_request (self s) Legacy._get_generic_auth_params])%list
  /\ (forall rt,
        Legacy.refresh_token (self s) = Some rt ->
        sent (snd (Legacy.get_user_api_headers s)) =
        (sent s ++ [legacy_token_request (self s) (user_auth_params rt)])%list
        /\ forall method command v qp bp r1 s1,
             dict_get String.eqb method METHODS = Some v ->
             legacy_attempt v command qp bp s = (Ok r1, s1) ->
             status_code r1 = 401 ->
             exists rest,
               sent (snd (Legacy.submit_command method command qp bp false s)) =
               (sent s1 ++ legacy_token_request (self s) (user_auth_params rt) :: rest)%list).
Proof.
  split.
  - unfold Legacy._get_api_headers, Legacy._get_generic_access_token.
    destruct (legacy_get_access_token_state Legacy._get_generic_auth_params s) as (o & w & E).
    unfold bind. rewrite E. destruct o; reflexivity.
  - intros rt Hrt. split.
    + destruct (legacy_user_headers_state s rt Hrt) as (o & w & E). now rewrite E.
    + intros method command v qp bp r1 s1 Hv Hattempt H401.
      assert (Hself : self s1 = self s).
      { unfold legacy_attempt in Hattempt. apply bind_inv_ok in Hattempt.
        destruct Hattempt as (headers & s0 & Hh & Hreq).
        destruct (legacy_user_headers_state s rt Hrt) as (o & w & E).
        rewrite E in Hh. inversion Hh; subst.
        rewrite (request_state _ _ _ _ Hreq). reflexivity. }
      unfold Legacy.submit_command.
      rewrite (legacy_submit_command_rec_step method command v qp bp Hv).
      rewrite (bind_ok _ _ _ _ _ Hattempt).
      replace ((status_code r1 =? 401) && negb false) with true
        by (rewrite H401; reflexivity).
      cbv iota.
      rewrite (legacy_submit_command_rec_step method command v qp bp Hv).
      unfold legacy_attempt. unfold bind at 1. unfold bind at 1.
      assert (Hrt1 : Legacy.refresh_token (self s1) = Some rt) by now rewrite Hself.
      destruct (legacy_user_headers_state s1 rt Hrt1) as (o & w & E). rewrite E, Hself.
      destruct o as [headers | e |]; try (exists []; reflexivity).
      set (q := command_request v command qp bp headers).
      unfold request. cbn [world sent self stdout].
      destruct (send q w) as [[r2 |] w2].
      * exists [q]. rewrite andb_false_r. unfold ret. cbn [snd sent].
        now rewrite <- app_assoc.
      * exists [q]. cbn [snd sent]. now rewrite <- app_assoc.
Qed.

End LegacyTokens.

(** The headers of a user call, on a fresh instance. *)
Lemma legacy_fetches_token_every_time_witness :
  let s := Mock.legacy_start Mock.legacy_client Mock.tokens [] in
  sent (snd (Legacy.get_user_api_headers s)) =
  [legacy_token_request Mock.legacy_client (user_auth_params "refresh")].
Proof.
  intros s. exact (proj1 (proj2 (legacy_fetches_token_every_time s) "refresh" eq_refl)).
Defined.

(** ** Reading the volume *)

Lemma find_volume_skips (device_id : string) (before rest : list value) :
  Forall (other_device device_id) before ->
  find_volume device_id (before ++ rest) = find_volume device_id rest.
Proof.
  induction 1 as [| device before (id & Hid & Hother) _ IH]; [reflexivity |].
  simpl. rewrite Hid. cbn [obind]. now rewrite Hother.
Qed.

Section ReadVolume.
Context `{RT : Runtime}.

(** X8. [get_current_volume] returns [None] when the dispatcher reports a
    failure, and when no device of the listing has the id; otherwise it
    returns the [volume_percent] of the first device with the id, whatever
    follows it. In the two cases of [None], [change_volume] returns its
    failure message and sends nothing more: there is no PUT. *)
Theorem volume_of_first_device_with_id
    (device_id : string) (change : Z) (s s1 : State Spotify) (result : bool)
    (devices_data : value) :
  _get "devices" None None s = (Ok (result, devices_data), s1) ->
  (result = false ->
   get_current_volume device_id s = (Ok VNone, s1)
   /\ change_volume device_id change s =
      (Ok (false, VStr "Failed to change volume: Error getting current volume"), s1))
  /\ (forall devices,
         result = true ->
         getitem devices_data "devices" = Ok (VList devices) ->
         Forall (other_device device_id) devices ->
         get_current_volume device_id s = (Ok VNone, s1)
         /\ change_volume device_id change s =
            (Ok (false, VStr "Failed to change volume: Error getting current volume"), s1))
  /\ (forall before device after,
         result = true ->
         getitem devices_data "devices" = Ok (VList (before ++ device :: after)) ->
         Forall (other_device device_id) before ->
         getitem device "id" = Ok (VStr device_id) ->
         get_current_volume device_id s = (lift (getitem device "volume_percent")) s1).
Proof.
  intros Hget.
  assert (Hfail : forall s1, get_current_volume device_id s = (Ok VNone, s1) ->
            change_volume device_id change s =
            (Ok (false, VStr "Failed to change volume: Error getting current volume"), s1)).
  { intros s' H. unfold change_volume. now rewrite (bind_ok _ _ _ _ _ H). }
  split; [| split].
  - intros Hresult. subst result.
    assert (H : get_current_volume device_id s = (Ok VNone, s1)).
    { unfold get_current_volume. now rewrite (bind_ok _ _ _ _ _ Hget). }
    split; [exact H | now apply Hfail].
  - intros devices Hresult Hdevices Hothers. subst result.
    assert (H : get_current_volume device_id s = (Ok VNone, s1)).
    { unfold get_current_volume. rewrite (bind_ok _ _ _ _ _ Hget). cbn [negb].
      unfold bind, lift. rewrite Hdevices. cbn [py_iter].
      rewrite <- (app_nil_r devices), (find_volume_skips device_id devices [] Hothers).
      reflexivity. }
    split; [exact H | now apply Hfail].
  - intros before device after Hresult Hdevices Hothers Hid. subst result.
    unfold get_current_volume. rewrite (bind_ok _ _ _ _ _ Hget). cbn [negb].
    unfold bind, lift. rewrite Hdevices. cbn [py_iter].
    rewrite (find_volume_skips device_id before _ Hothers). simpl.
    rewrite Hid. cbn [obind is_str]. now rewrite String.eqb_refl.
Qed.

End ReadVolume.

(** The third of three devices has the id. *)
Lemma volume_of_first_device_with_id_witness :
  let s := Mock.start Mock.client_with_token Mock.tokens [Scenes.devices_answer] in
  fst (get_current_volume "D3" s) = Ok (VInt 60).
Proof.
  intros s.
  assert (Hget : _get "devices" None None s =
                 (Ok (true, VDict [("devices", VList Scenes.three_devices)]),
                  snd (_get "devices" None None s))) by (vm_compute; reflexivity).
  destruct (volume_of_first_device_with_id "D3" 10 s _ true _ Hget) as (_ & _ & Hfirst).
  rewrite (Hfirst [Scenes.device "Kitchen" "D1" false 95; Scenes.device "Office" "D2" true 40]
             (Scenes.device "Car" "D3" true 60) [] eq_refl eq_refl).
  - reflexivity.
  - repeat constructor; eexists; split; reflexivity.
  - reflexivity.
Defined.

(** ** The earlier client and the volume *)

Section LegacyVolume.
Context `{RT : Runtime}.

Lemma sends_legacy_submit_command_rec (P : Request -> Prop) (depth : nat)
    (method command : string) (qp bp : option pydict) (has_retried : bool) :
  (forall q, is_token_request q -> P q) ->
  (forall v headers, dict_get String.eqb method METHODS = Some v ->
                     P (command_request v command qp bp headers)) ->
  sends P (Legacy.submit_command_rec depth method command qp bp has_retried).
Proof.
  intros Htoken Hcommand. pose proof (sends_legacy_get_user_api_headers P Htoken).
  revert has_retried. induction depth as [| depth IH]; intros has_retried.
  - apply sends_out_of_fuel.
  - cbn [Legacy.submit_command_rec].
    destruct (dict_get String.eqb method METHODS) as [v |] eqn:Hv; [| apply sends_ret].
    repeat sends_step.
    apply sends_request. now apply Hcommand.
Qed.

(** X9. In the earlier client [get_current_volume] reads an attribute that
    the pair returned by [_get] does not have: as soon as [_get] returns,
    [AttributeError] is raised. So [change_volume] returns nothing, and
    what it sends is requests for a token and GETs of the devices: the
    volume is never put. *)
Theorem legacy_change_volume_never_puts (device_id : string) (change : Z) :
  (forall s x s', Legacy.change_volume device_id change s <> (Ok x, s'))
  /\ (forall s x s1,
         Legacy._get "devices" None None s = (Ok x, s1) ->
         Legacy.change_volume device_id change s = (Raise AttributeError, s1))
  /\ sends (fun q => is_token_request q
                     \/ exists headers, q = command_request GET "devices" None None headers)
           (Legacy.change_volume device_id change).
Proof.
  split; [| split].
  - intros s x s' H. unfold Legacy.change_volume, Legacy.get_current_volume in H.
    apply bind_inv_ok in H. destruct H as (current & s1 & H & _).
    apply bind_inv_ok in H. destruct H as (response & s2 & _ & H). discriminate.
  - intros s x s1 H. unfold Legacy.change_volume, Legacy.get_current_volume.
    unfold bind at 1. now rewrite (bind_ok _ _ _ _ _ H).
  - assert (Hvolume : sends (fun q => is_token_request q
                              \/ exists headers,
                                   q = command_request GET "devices" None None headers)
                           (Legacy.get_current_volume device_id)).
    { unfold Legacy.get_current_volume, Legacy._get, Legacy.submit_command.
      apply sends_bind; [| intros ?; apply sends_raise].
      apply sends_legacy_submit_command_rec.
      - intros q Hq. now left.
      - intros v headers Hv. inversion Hv; subst. right. now exists headers. }
    intros s. destruct (Hvolume s) as (new & Hnew & Hall). exists new.
    split; [| exact Hall]. rewrite <- Hnew. unfold Legacy.change_volume, bind at 1.
    destruct (Legacy.get_current_volume device_id s) as [[current | e |] s1] eqn:E;
      try reflexivity.
    exfalso. unfold Legacy.get_current_volume in E. apply bind_inv_ok in E.
    destruct E as (response & s2 & _ & E). discriminate.
Qed.

End LegacyVolume.

(** One token request and one GET of the devices, then the error. *)
Lemma legacy_change_volume_never_puts_witness :
  let s := Mock.legacy_start Mock.legacy_client Mock.tokens [Scenes.devices_answer] in
  fst (Legacy.change_volume "D2" 10 s) = Raise AttributeError
  /\ map req_verb (sent (snd (Legacy.change_volume "D2" 10 s))) = [POST; GET].
Proof.
  intros s.
  assert (H : Legacy._get "devices" None None s =
              (Ok (false, "Method: get | Command: devices | Code: 200 | Message: {...}"),
               snd (Legacy._get "devices" None None s))) by (vm_compute; reflexivity).
  destruct (legacy_change_volume_never_puts "D2" 10) as (_ & E & _).
  rewrite (E s _ _ H). split; vm_compute; reflexivity.
Defined.

(** ** The devices *)

Lemma number_next (done : list pydict) (entry : pydict) :
  iset (Z.of_nat (List.length done) + 1) entry (keyed_from 1 done) =
  keyed_from 1 (done ++ [entry]).
Proof.
  replace (Z.of_nat (List.length done) + 1) with (Z.of_nat (S (List.length done))) by lia.
  unfold iset. rewrite dict_set_new
    by (apply (keyed_from_fresh 1 (S (List.length done)) done); lia).
  now rewrite keyed_from_app.
Qed.

Lemma number_devices_from (devices : list value) (entries done : list pydict) (index : Z) :
  device_entries devices = Some entries ->
  index = Z.of_nat (List.length done) ->
  number_devices index devices (keyed_from 1 done) = Ok (keyed_from 1 (done ++ entries)).
Proof.
  revert entries done index.
  induction devices as [| device devices IH]; intros entries done index H Hindex;
    simpl in *.
  - inversion H. now rewrite app_nil_r.
  - unfold device_entry in H.
    destruct (field_of device "name") as [name |] eqn:Hname; [| discriminate].
    destruct (field_of device "id") as [id |] eqn:Hid; [| discriminate].
    destruct (device_entries devices) as [rest |] eqn:Hrest; [| discriminate].
    inversion H; subst.
    rewrite (field_of_getitem _ _ _ Hname), (field_of_getitem _ _ _ Hid). cbn [obind].
    rewrite number_next.
    rewrite (IH rest (done ++ [[("name", name); ("id", id)]])%list _ eq_refl).
    + now rewrite <- app_assoc.
    + rewrite length_app. simpl. lia.
Qed.

Lemma find_active_skips (before rest : list value) :
  Forall inactive before -> find_active (before ++ rest) = find_active rest.
Proof.
  induction 1 as [| device before (a & Ha & Hfalse) _ IH]; [reflexivity |].
  simpl. rewrite Ha. cbn [obind]. now rewrite Hfalse.
Qed.

Section Devices.
Context `{RT : Runtime}.
Variables (headers : list (string * string)) (r : Response) (body : value)
  (devices : list value).
Hypothesis Hstatus : status_code r <> 401.
Hypothesis Hjson : json r = Some body.
Hypothesis Hdevices : getitem body "devices" = Ok (VList devices).

Lemma devices_answered (depth : nat) (has_retried : bool) (s s1 s2 : State Spotify) :
  get_user_api_headers s = (Ok headers, s1) ->
  request (devices_request headers) s1 = (Ok r, s2) ->
  get_available_devices_rec (S depth) has_retried s =
  (returned_devices <- lift (number_devices 0 devices []) ;;
   ret (VNone, Devices returned_devices)) s2
  /\ get_current_device_rec (S depth) has_retried s = lift (find_active devices) s2.
Proof.
  intros Hheaders Hrequest. apply Z.eqb_neq in Hstatus.
  split.
  - cbn [get_available_devices_rec].
    rewrite (bind_ok _ _ _ _ _ Hheaders), (bind_ok _ _ _ _ _ Hrequest), Hstatus.
    unfold json_of. rewrite Hjson. unfold bind, ret, lift. rewrite Hdevices. reflexivity.
  - cbn [get_current_device_rec].
    rewrite (bind_ok _ _ _ _ _ Hheaders), (bind_ok _ _ _ _ _ Hrequest), Hstatus.
    unfold json_of. rewrite Hjson. unfold bind, ret, lift. rewrite Hdevices. reflexivity.
Qed.

Lemma legacy_devices_answered (depth : nat) (has_retried : bool)
    (s s1 s2 : State Legacy.Spotify) :
  Legacy.get_user_api_headers s = (Ok headers, s1) ->
  request (devices_request headers) s1 = (Ok r, s2) ->
  Legacy.get_available_devices_rec (S depth) has_retried s =
  (returned_devices <- lift (number_devices 0 devices []) ;;
   ret (VNone, Devices returned_devices)) s2
  /\ Legacy.get_current_device_rec (S depth) has_retried s = lift (find_active devices) s2.
Proof.
  intros Hheaders Hrequest. apply Z.eqb_neq in Hstatus.
  split.
  - cbn [Legacy.get_available_devices_rec].
    rewrite (bind_ok _ _ _ _ _ Hheaders), (bind_ok _ _ _ _ _ Hrequest), Hstatus.
    unfold json_of. rewrite Hjson. unfold bind, ret, lift. rewrite Hdevices. reflexivity.
  - cbn [Legacy.get_current_device_rec].
    rewrite (bind_ok _ _ _ _ _ Hheaders), (bind_ok _ _ _ _ _ Hrequest), Hstatus.
    unfold json_of. rewrite Hjson. unfold bind, ret, lift. rewrite Hdevices. reflexivity.
Qed.

(** X10. When the devices request is answered with a status other than 401
    and a list of devices that each have a name and an id,
    [get_available_devices] returns no error and the devices numbered 1,
    2, 3, ... in the order of the answer, each with its name and its id,
    in both clients. *)
Theorem devices_numbered_from_one (has_retried : bool) (entries : list pydict) :
  device_entries devices = Some entries ->
  map fst (keyed_from 1 entries) = map Z.of_nat (seq 1 (List.length devices))
  /\ (forall s s1 s2 : State Spotify,
         get_user_api_headers s = (Ok headers, s1) ->
         request (devices_request headers) s1 = (Ok r, s2) ->
         get_available_devices has_retried s =
         (Ok (VNone, Devices (keyed_from 1 entries)), s2))
  /\ (forall s s1 s2 : State Legacy.Spotify,
         Legacy.get_user_api_headers s = (Ok headers, s1) ->
         request (devices_request headers) s1 = (Ok r, s2) ->
         Legacy.get_available_devices has_retried s =
         (Ok (VNone, Devices (keyed_from 1 entries)), s2)).
Proof.
  intros Hentries.
  pose proof (number_devices_from devices entries [] 0 Hentries eq_refl) as Hnumber.
  cbn [keyed_from app] in Hnumber.
  split; [| split].
  - rewrite keyed_from_keys. f_equal. f_equal.
    clear Hnumber Hdevices. revert entries Hentries.
    induction devices as [| d ds IH]; intros entries H; simpl in *.
    + now inversion H.
    + destruct (device_entry d); [| discriminate].
      destruct (device_entries ds) as [rest |]; [| discriminate].
      inversion H; subst. simpl. now rewrite (IH rest eq_refl).
  - intros s s1 s2 Hheaders Hrequest. unfold get_available_devices.
    rewrite (proj1 (devices_answered 1 has_retried s s1 s2 Hheaders Hrequest)).
    unfold bind, lift. now rewrite Hnumber.
  - intros s s1 s2 Hheaders Hrequest. unfold Legacy.get_available_devices.
    rewrite (proj1 (legacy_devices_answered 1 has_retried s s1 s2 Hheaders Hrequest)).
    unfold bind, lift. now rewrite Hnumber.
Qed.

(** X11. When the devices request is answered with a status other than 401,
    [get_current_device] returns the id of the first device of the answer
    that is active, without an error, whatever follows that device; when
    no device is active it returns the error [No active devices] and no
    id. In both clients. *)
Theorem current_device_is_first_active (has_retried : bool) :
  (forall before device after id,
      devices = (before ++ device :: after)%list ->
      Forall inactive before ->
      (exists is_active, getitem device "is_active" = Ok is_active
                         /\ truthy is_active = true) ->
      getitem device "id" = Ok id ->
      (forall s s1 s2 : State Spotify,
          get_user_api_headers s = (Ok headers, s1) ->
          request (devices_request headers) s1 = (Ok r, s2) ->
          get_current_device has_retried s = (Ok (VNone, id), s2))
      /\ (forall s s1 s2 : State Legacy.Spotify,
             Legacy.get_user_api_headers s = (Ok headers, s1) ->
             request (devices_request headers) s1 = (Ok r, s2) ->
             Legacy.get_current_device has_retried s = (Ok (VNone, id), s2)))
  /\ (Forall inactive devices ->
      (forall s s1 s2 : State Spotify,
          get_user_api_headers s = (Ok headers, s1) ->
          request (devices_request headers) s1 = (Ok r, s2) ->
          get_current_device has_retried s = (Ok (VStr "No active devices", VNone), s2))
      /\ (forall s s1 s2 : State Legacy.Spotify,
             Legacy.get_user_api_headers s = (Ok headers, s1) ->
             request (devices_request headers) s1 = (Ok r, s2) ->
             Legacy.get_current_device has_retried s =
             (Ok (VStr "No active devices", VNone), s2))).
Proof.
  split.
  - intros before device after id Hsplit Hbefore (a & Ha & Htrue) Hid.
    assert (Hfind : find_active devices = Ok (VNone, id)).
    { rewrite Hsplit, (find_active_skips before _ Hbefore). simpl.
      rewrite Ha. cbn [obind]. rewrite Htrue, Hid. reflexivity. }
    split; intros s s1 s2 Hheaders Hrequest.
    + unfold get_current_device.
      rewrite (proj2 (devices_answered 1 has_retried s s1 s2 Hheaders Hrequest)).
      unfold lift. now rewrite Hfind.
    + unfold Legacy.get_current_device.
      rewrite (proj2 (legacy_devices_answered 1 has_retried s s1 s2 Hheaders Hrequest)).
      unfold lift. now rewrite Hfind.
  - intros Hnone.
    assert (Hfind : find_active devices = Ok (VStr "No active devices", VNone)).
    { rewrite <- (app_nil_r devices), (find_active_skips devices [] Hnone). reflexivity. }
    split; intros s s1 s2 Hheaders Hrequest.
    + unfold get_current_device.
      rewrite (proj2 (devices_answered 1 has_retried s s1 s2 Hheaders Hrequest)).
      unfold lift. now rewrite Hfind.
    + unfold Legacy.get_current_device.
      rewrite (proj2 (legacy_devices_answered 1 has_retried s s1 s2 Hheaders Hrequest)).
      unfold lift. now rewrite Hfind.
Qed.

End Devices.

(** Three devices are numbered 1, 2 and 3. *)
Lemma devices_numbered_from_one_witness :
  let s := Mock.start Mock.client_with_token Mock.tokens [Scenes.devices_answer] in
  fst (get_available_devices false s) =
  Ok (VNone, Devices [(1, [("name", VStr "Kitchen"); ("id", VStr "D1")]);
                      (2, [("name", VStr "Office"); ("id", VStr "D2")]);
                      (3, [("name", VStr "Car"); ("id", VStr "D3")])]).
Proof.
  intros s.
  assert (Hstatus : status_code Scenes.devices_answer <> 401) by (cbn; lia).
  assert (Hheaders : get_user_api_headers s = (Ok [("Authorization", "Bearer T")], s))
    by (vm_compute; reflexivity).
  assert (Hreq : request (devices_request [("Authorization", "Bearer T")]) s =
                 (Ok Scenes.devices_answer,
                  snd (request (devices_request [("Authorization", "Bearer T")]) s)))
    by (vm_compute; reflexivity).
  destruct (devices_numbered_from_one [("Authorization", "Bearer T")] Scenes.devices_answer
              (VDict [("devices", VList Scenes.three_devices)]) Scenes.three_devices
              Hstatus eq_refl eq_refl false
              [[("name", VStr "Kitchen"); ("id", VStr "D1")];
               [("name", VStr "Office"); ("id", VStr "D2")];
               [("name", VStr "Car"); ("id", VStr "D3")]] eq_refl) as (_ & H & _).
  rewrite (H s s _ Hheaders Hreq). reflexivity.
Defined.

(** The second and the third device are active: the second is returned. *)
Lemma current_device_is_first_active_witness :
  let s := Mock.start Mock.client_with_token Mock.tokens [Scenes.devices_answer] in
  fst (get_current_device false s) = Ok (VNone, VStr "D2").
Proof.
  intros s.
  assert (Hstatus : status_code Scenes.devices_answer <> 401) by (cbn; lia).
  assert (Hheaders : get_user_api_headers s = (Ok [("Authorization", "Bearer T")], s))
    by (vm_compute; reflexivity).
  assert (Hreq : request (devices_request [("Authorization", "Bearer T")]) s =
                 (Ok Scenes.devices_answer,
                  snd (request (devices_request [("Authorization", "Bearer T")]) s)))
    by (vm_compute; reflexivity).
  destruct (current_device_is_first_active [("Authorization", "Bearer T")]
              Scenes.devices_answer (VDict [("devices", VList Scenes.three_devices)])
              Scenes.three_devices Hstatus eq_refl eq_refl false) as (H & _).
  destruct (H [Scenes.device "Kitchen" "D1" false 95] (Scenes.device "Office" "D2" true 40)
              [Scenes.device "Car" "D3" true 60] (VStr "D2") eq_refl) as (E & _).
  - repeat constructor. eexists. split; reflexivity.
  - eexists. split; reflexivity.
  - reflexivity.
  - rewrite (E s s _ Hheaders Hreq). reflexivity.
Defined.

Section DeviceCosts.
Context `{RT : Runtime}.

Ltac device_costs IH :=
  apply (costs_bind 0 _);
  [first [apply costs_get_user_api_headers | apply costs_legacy_get_user_api_headers]
  | intros ?];
  match goal with
  | |- costs 1 _ => apply (costs_bind 1 0)
  | |- costs 2 _ => apply (costs_bind 1 1)
  end;
  [apply costs_request |];
  let r := fresh "r" in
  intros r; destruct (status_code r =? 401); cbn [negb];
  try apply (IH true);
  apply (costs_more 0); try lia; apply costs_tokens; repeat sends_step.

Lemma costs_get_available_devices_rec (depth : nat) (has_retried : bool) :
  costs (if has_retried then 1 else 2) (get_available_devices_rec depth has_retried).
Proof.
  revert has_retried. induction depth as [| depth IH]; intros has_retried.
  - apply (costs_more 0); [destruct has_retried; lia | now apply costs_nothing].
  - cbn [get_available_devices_rec]. destruct has_retried; device_costs IH.
Qed.

Lemma costs_get_current_device_rec (depth : nat) (has_retried : bool) :
  costs (if has_retried then 1 else 2) (get_current_device_rec depth has_retried).
Proof.
  revert has_retried. induction depth as [| depth IH]; intros has_retried.
  - apply (costs_more 0); [destruct has_retried; lia | now apply costs_nothing].
  - cbn [get_current_device_rec]. destruct has_retried; device_costs IH.
Qed.

Lemma costs_legacy_get_available_devices_rec (depth : nat) (has_retried : bool) :
  costs (if has_retried then 1 else 2) (Legacy.get_available_devices_rec depth has_retried).
Proof.
  revert has_retried. induction depth as [| depth IH]; intros has_retried.
  - apply (costs_more 0); [destruct has_retried; lia | now apply costs_nothing].
  - cbn [Legacy.get_available_devices_rec]. destruct has_retried; device_costs IH.
Qed.

Lemma costs_legacy_get_current_device_rec (depth : nat) (has_retried : bool) :
  costs (if has_retried then 1 else 2) (Legacy.get_current_device_rec depth has_retried).
Proof.
  revert has_retried. induction depth as [| depth IH]; intros has_retried.
  - apply (costs_more 0); [destruct has_retried; lia | now apply costs_nothing].
  - cbn [Legacy.get_current_device_rec]. destruct has_retried; device_costs IH.
Qed.

(** X12. [get_available_devices] and [get_current_device] send at most two
    requests to the service, and at most one when called as the retry, in
    both clients; and when the request of the retry is answered with 401
    again, they return an error message with the code and no listing or
    id. *)
Theorem device_calls_at_most_two_attempts (has_retried : bool) :
  costs (if has_retried then 1 else 2) (get_available_devices has_retried)
  /\ costs (if has_retried then 1 else 2) (get_current_device has_retried)
  /\ costs (if has_retried then 1 else 2) (Legacy.get_available_devices has_retried)
  /\ costs (if has_retried then 1 else 2) (Legacy.get_current_device has_retried)
  /\ (forall (s s1 s2 : State Spotify) headers r,
         get_user_api_headers s = (Ok headers, s1) ->
         request (devices_request headers) s1 = (Ok r, s2) ->
         status_code r = 401 ->
         get_available_devices true s =
         (Ok (VStr ("Failed to refresh access: Type: " ++ dquote ++ "get" ++ dquote
                    ++ " | Command: " ++ dquote ++ "devices" ++ dquote
                    ++ " | Code: 401 | Text: " ++ text r), NoListing), s2)
         /\ get_current_device true s =
            (Ok (VStr "Failed to get current device| Code: 401", VNone), s2)).
Proof.
  split; [apply costs_get_available_devices_rec |].
  split; [apply costs_get_current_device_rec |].
  split; [apply costs_legacy_get_available_devices_rec |].
  split; [apply costs_legacy_get_current_device_rec |].
  intros s s1 s2 headers r Hheaders Hrequest H401.
  unfold get_available_devices, get_current_device.
  cbn [get_available_devices_rec get_current_device_rec].
  rewrite !(bind_ok _ _ _ _ _ Hheaders), !(bind_ok _ _ _ _ _ Hrequest), H401.
  split; reflexivity.
Qed.

End DeviceCosts.

(** The retry is answered with 401. *)
Lemma device_calls_at_most_two_attempts_witness :
  let s := Mock.start Mock.client_with_token Mock.tokens [Mock.reply_text 401 "expired"] in
  fst (get_current_device true s) = Ok (VStr "Failed to get current device| Code: 401", VNone).
Proof.
  intros s.
  assert (Hheaders : get_user_api_headers s = (Ok [("Authorization", "Bearer T")], s))
    by (vm_compute; reflexivity).
  assert (Hreq : request (devices_request [("Authorization", "Bearer T")]) s =
                 (Ok (Mock.reply_text 401 "expired"),
                  snd (request (devices_request [("Authorization", "Bearer T")]) s)))
    by (vm_compute; reflexivity).
  destruct (device_calls_at_most_two_attempts true) as (_ & _ & _ & _ & H).
  destruct (H s s _ _ _ Hheaders Hreq eq_refl) as (_ & E).
  now rewrite E.
Defined.

(** ** Splitting a command *)

Lemma split_space_nonempty (s : string) : split_space s <> [].
Proof.
  destruct s as [| c s]; simpl; [discriminate |].
  destruct (Ascii.eqb c " "); [discriminate |]. destruct (split_space s); discriminate.
Qed.

(** Joining the pieces of [split(' ')] with single spaces gives the
    string back, and the pieces hold no space. *)
Lemma split_then_join (s : string) :
  String.concat " " (split_space s) = s
  /\ Forall (fun piece => has_space piece = false) (split_space s).
Proof.
  induction s as [| c s [IHjoin IHpieces]]; [split; [reflexivity | repeat constructor] |].
  simpl. destruct (Ascii.eqb c " ") eqn:Hc.
  - apply Ascii.eqb_eq in Hc. subst c. split; [| constructor; [reflexivity | exact IHpieces]].
    pose proof (split_space_nonempty s) as Hne.
    destruct (split_space s) as [| piece pieces]; [congruence |].
    change (String.concat " " ("" :: piece :: pieces))
      with (String " " (String.concat " " (piece :: pieces))).
    now rewrite IHjoin.
  - pose proof (split_space_nonempty s) as Hne.
    destruct (split_space s) as [| piece pieces]; [congruence |].
    pose proof (Forall_inv IHpieces) as Hpiece. pose proof (Forall_inv_tail IHpieces) as Hrest.
    split.
    + destruct pieces as [| piece' pieces].
      * simpl in *. now rewrite IHjoin.
      * change (String.concat " " (String c piece :: piece' :: pieces))
          with (String c (String.concat " " (piece :: piece' :: pieces))).
        now rewrite IHjoin.
    + constructor; [simpl; now rewrite Hc | exact Hrest].
Qed.

Lemma split_space_word (s : string) :
  has_space s = false -> split_space s = [s].
Proof.
  induction s as [| c s IH]; [reflexivity |]. simpl. intros H.
  apply orb_false_iff in H. destruct H as [Hc Hs]. rewrite Hc, (IH Hs). reflexivity.
Qed.

Lemma split_space_first (first tail : string) :
  has_space first = false ->
  split_space (first ++ " " ++ tail) = first :: split_space tail.
Proof.
  induction first as [| c first IH]; [reflexivity |]. intros H. simpl in H.
  apply orb_false_iff in H. destruct H as [Hc Hs].
  change (String c first ++ " " ++ tail) with (String c (first ++ " " ++ tail)).
  cbn [split_space]. rewrite Hc, (IH Hs). reflexivity.
Qed.

(** ** The command table *)

Lemma in_groups_spec (command : string) :
  Legacy.in_groups command = true <-> In command all_commands.
Proof.
  unfold Legacy.in_groups, all_commands. rewrite existsb_exists. split.
  - intros (group & Hgroup & Hin). apply existsb_exists in Hin.
    destruct Hin as (c & Hc & Heq). apply String.eqb_eq in Heq. subst c.
    apply in_concat. exists (snd group). split; [now apply in_map | exact Hc].
  - intros H. apply in_concat in H. destruct H as (l & Hl & Hc).
    apply in_map_iff in Hl. destruct Hl as (group & Hsnd & Hgroup). subst l.
    exists group. split; [exact Hgroup |]. apply existsb_exists.
    exists command. split; [exact Hc | apply String.eqb_refl].
Qed.

(** X13. [command_valid] of the earlier client. Every command of the table
    is accepted as itself. A matched command is always a command of the
    table: the command typed, or else its first piece before a space; it
    comes without an error. When nothing matches there is an error
    message, and the empty command has a message of its own. *)
Theorem command_valid_sound_and_complete (command : string) :
  (In command all_commands -> Legacy.command_valid command = (Some command, None))
  /\ (forall matched error,
         Legacy.command_valid command = (Some matched, error) ->
         error = None
         /\ In matched all_commands
         /\ (matched = command \/ exists tail, command = matched ++ " " ++ tail))
  /\ (forall error,
         Legacy.command_valid command = (None, error) ->
         error <> None /\ ~ In command all_commands)
  /\ (command = "" -> Legacy.command_valid command = (None, Some "No command entered")).
Proof.
  assert (Hempty : ~ In "" all_commands).
  { intros H. vm_compute in H. repeat (destruct H as [H | H]; [discriminate |]). exact H. }
  split; [| split; [| split]].
  - intros H. unfold Legacy.command_valid.
    destruct (String.eqb command "") eqn:E.
    + apply String.eqb_eq in E. subst. contradiction.
    + apply in_groups_spec in H. now rewrite H.
  - intros matched error H. unfold Legacy.command_valid in H.
    destruct (String.eqb command "") eqn:E; [discriminate |].
    destruct (Legacy.in_groups command) eqn:Hc.
    + inversion H; subst. apply in_groups_spec in Hc. auto.
    + destruct (split_then_join command) as [Hjoin _].
      destruct (split_space command) as [| first pieces] eqn:Hs; [discriminate |].
      destruct (Legacy.in_groups first) eqn:Hf; [| discriminate].
      injection H as Hm He. subst matched error. split; [reflexivity |].
      split; [now apply in_groups_spec |].
      destruct pieces as [| second pieces]; [left; exact Hjoin |].
      right. exists (String.concat " " (second :: pieces)). rewrite <- Hjoin at 1.
      reflexivity.
  - intros error H. unfold Legacy.command_valid in H.
    destruct (String.eqb command "") eqn:E.
    + inversion H. apply String.eqb_eq in E. subst. split; [discriminate | exact Hempty].
    + destruct (Legacy.in_groups command) eqn:Hc; [discriminate |].
      assert (Hnot : ~ In command all_commands).
      { intros Hin. apply in_groups_spec in Hin. congruence. }
      destruct (split_space command) as [| first pieces].
      * inversion H. split; [discriminate | exact Hnot].
      * destruct (Legacy.in_groups first); [discriminate |].
        inversion H. split; [discriminate | exact Hnot].
  - intros H. subst. reflexivity.
Qed.

(** A command of two words that is in the table. *)
Lemma command_valid_sound_and_complete_witness :
  Legacy.command_valid "volume up" = (Some "volume up", None).
Proof.
  apply (proj1 (command_valid_sound_and_complete "volume up")).
  unfold all_commands. cbn. tauto.
Defined.

(** ** Play commands *)

(** The loop of [parse_play_command] over one category passes over the
    entries with another name and stops at the first with the name. *)
Lemma first_match_skips (lower : string -> string) (search_term : string)
    (before rest : resultset) :
  Forall (named_otherwise lower search_term) before ->
  first_match lower search_term (before ++ rest)%list = first_match lower search_term rest.
Proof.
  induction before as [| [key result] before IH]; intros H; [reflexivity |].
  destruct (Forall_inv H) as (name & Hname & Hother). cbn [app first_match].
  cbn [snd] in Hname. rewrite Hname. cbn [obind py_lower].
  apply String.eqb_neq in Hother. rewrite Hother. apply IH. exact (Forall_inv_tail H).
Qed.

Lemma first_match_found (lower : string -> string) (search_term : string)
    (before : resultset) (entry : Z * pydict) (after : resultset) (uri : value) :
  Forall (named_otherwise lower search_term) before ->
  named lower search_term entry ->
  getitem (VDict (snd entry)) "uri" = Ok uri ->
  first_match lower search_term (before ++ entry :: after)%list = Ok (Some uri).
Proof.
  intros Hbefore (name & Hname & Hsame) Huri. rewrite (first_match_skips _ _ _ _ Hbefore).
  destruct entry as [key result]. cbn [snd] in Hname, Huri. cbn [first_match].
  rewrite Hname. cbn [obind py_lower]. rewrite Hsame, String.eqb_refl.
  rewrite Huri. reflexivity.
Qed.

Lemma first_match_none (lower : string -> string) (search_term : string)
    (found : resultset) :
  Forall (named_otherwise lower search_term) found ->
  first_match lower search_term found = Ok None.
Proof.
  intros H. rewrite <- (app_nil_r found). now rewrite (first_match_skips _ _ _ _ H).
Qed.

Section PlayCommand.
Context `{RT : Runtime}.
Variables (lower : string -> string) (fuel : nat) (device_id : string).

(** X15. The commands that [parse_play_command] does not search for. A
    command without a space starts the playback, whatever the word is; a
    command whose first piece is not play, in any case of the letters, is
    refused with a message, and the state is as before. In both clients. *)
Theorem play_command_without_search :
  (forall command,
      has_space command = false ->
      (forall s : State Spotify,
          parse_play_command lower fuel device_id command s = start_playing device_id s)
      /\ (forall s : State Legacy.Spotify,
             Legacy.parse_play_command lower fuel device_id command s =
             (x <- Legacy.start_playing device_id ;; ret (Some x)) s))
  /\ (forall first tail,
         has_space first = false ->
         lower first <> "play" ->
         (forall s : State Spotify,
             parse_play_command lower fuel device_id (first ++ " " ++ tail) s =
             (Ok (false, VStr ("Invalid command: " ++ first ++ " " ++ tail)), s))
         /\ (forall s : State Legacy.Spotify,
                Legacy.parse_play_command lower fuel device_id (first ++ " " ++ tail) s =
                (Ok (Some (false, "Invalid command: " ++ first ++ " " ++ tail)), s))).
Proof.
  split.
  - intros command H. split; intros s.
    + unfold parse_play_command. now rewrite (split_space_word command H).
    + unfold Legacy.parse_play_command. now rewrite (split_space_word command H).
  - intros first tail H Hplay. apply String.eqb_neq in Hplay.
    pose proof (split_space_nonempty tail) as Hne.
    split; intros s.
    + unfold parse_play_command. rewrite (split_space_first first tail H).
      destruct (split_space tail) as [| second rest]; [congruence |]. now rewrite Hplay.
    + unfold Legacy.parse_play_command. rewrite (split_space_first first tail H).
      destruct (split_space tail) as [| second rest]; [congruence |]. now rewrite Hplay.
Qed.

Variable first : string.
Hypothesis Hfirst : has_space first = false.
Hypothesis Hplay : lower first = "play".

(** A command whose first piece is play goes on to the search. *)
Lemma play_command_searches (tail second : string) (rest : list string)
    (search_type : value) (search_term : string) :
  split_space tail = second :: rest ->
  search_words second rest = (search_type, search_term) ->
  forall s : State Spotify,
    parse_play_command lower fuel device_id (first ++ " " ++ tail) s =
    (results <- do_search fuel search_term search_type true ;;
     play_first_match lower device_id search_type search_term results) s.
Proof.
  intros Htail Hwords s. unfold parse_play_command.
  rewrite (split_space_first first tail Hfirst), Htail.
  rewrite Hplay, String.eqb_refl. cbn [negb]. now rewrite Hwords.
Qed.

Lemma legacy_play_command_searches (tail second : string) (rest : list string)
    (search_type : value) (search_term : string) :
  split_space tail = second :: rest ->
  Legacy.search_words second rest = (search_type, search_term) ->
  forall s : State Legacy.Spotify,
    Legacy.parse_play_command lower fuel device_id (first ++ " " ++ tail) s =
    (results <- Legacy.do_search fuel search_term search_type true ;;
     Legacy.play_first_match lower device_id search_term results) s.
Proof.
  intros Htail Hwords s. unfold Legacy.parse_play_command.
  rewrite (split_space_first first tail Hfirst), Htail.
  rewrite Hplay, String.eqb_refl. cbn [negb]. now rewrite Hwords.
Qed.

(** X14. What [parse_play_command] searches for when the first piece of
    the command is play, in any case of the letters. It calls [do_search]
    once, with [exact_match], and goes on with the results. When one piece
    follows, that piece is the search term and the type is the string
    [artist,album,track]. When more follows and the next piece is artist,
    album or track, the text after that piece, spaces as typed, is the
    search term, and the type is the list of that one piece in the
    packaged client and the piece itself in the earlier client. Otherwise
    the whole text after the first piece is the search term, and the type
    is [artist,album,track]. *)
Theorem play_command_search_term :
  (forall tail,
      has_space tail = false ->
      (forall s : State Spotify,
          parse_play_command lower fuel device_id (first ++ " " ++ tail) s =
          (results <- do_search fuel tail (VStr "artist,album,track") true ;;
           play_first_match lower device_id (VStr "artist,album,track") tail results) s)
      /\ (forall s : State Legacy.Spotify,
             Legacy.parse_play_command lower fuel device_id (first ++ " " ++ tail) s =
             (results <- Legacy.do_search fuel tail (VStr "artist,album,track") true ;;
              Legacy.play_first_match lower device_id tail results) s))
  /\ (forall word more,
         has_space word = false ->
         existsb (String.eqb word) ["artist"; "album"; "track"] = true ->
         (forall s : State Spotify,
             parse_play_command lower fuel device_id (first ++ " " ++ word ++ " " ++ more) s =
             (results <- do_search fuel more (VList [VStr word]) true ;;
              play_first_match lower device_id (VList [VStr word]) more results) s)
         /\ (forall s : State Legacy.Spotify,
                Legacy.parse_play_command lower fuel device_id
                  (first ++ " " ++ word ++ " " ++ more) s =
                (results <- Legacy.do_search fuel more (VStr word) true ;;
                 Legacy.play_first_match lower device_id more results) s))
  /\ (forall word more,
         has_space word = false ->
         existsb (String.eqb word) ["artist"; "album"; "track"] = false ->
         let search_term := word ++ " " ++ more in
         (forall s : State Spotify,
             parse_play_command lower fuel device_id (first ++ " " ++ search_term) s =
             (results <- do_search fuel search_term (VStr "artist,album,track") true ;;
              play_first_match lower device_id (VStr "artist,album,track") search_term
                               results) s)
         /\ (forall s : State Legacy.Spotify,
                Legacy.parse_play_command lower fuel device_id
                  (first ++ " " ++ search_term) s =
                (results <- Legacy.do_search fuel search_term (VStr "artist,album,track")
                                             true ;;
                 Legacy.play_first_match lower device_id search_term results) s)).
Proof.
  split; [| split].
  - intros tail H.
    split; intros s;
      [apply (play_command_searches tail tail []) |
       apply (legacy_play_command_searches tail tail [])];
      solve [apply (split_space_word tail H) | reflexivity].
  - intros word more H Hword.
    destruct (split_then_join more) as [Hjoin _].
    pose proof (split_space_nonempty more) as Hne.
    split; intros s;
      [apply (play_command_searches (word ++ " " ++ more) word (split_space more)) |
       apply (legacy_play_command_searches (word ++ " " ++ more) word (split_space more))];
      try apply (split_space_first word more H).
    + unfold search_words. destruct (split_space more); [congruence |].
      now rewrite Hword, Hjoin.
    + unfold Legacy.search_words. destruct (split_space more); [congruence |].
      now rewrite Hword, Hjoin.
  - intros word more H Hword search_term.
    destruct (split_then_join more) as [Hjoin _].
    pose proof (split_space_nonempty more) as Hne.
    assert (Hall : String.concat " " (word :: split_space more) = search_term).
    { destruct (split_space more) as [| piece pieces] eqn:Hs; [congruence |].
      change (String.concat " " (word :: piece :: pieces))
        with (word ++ " " ++ String.concat " " (piece :: pieces)).
      now rewrite Hjoin. }
    split; intros s;
      [apply (play_command_searches search_term word (split_space more)) |
       apply (legacy_play_command_searches search_term word (split_space more))];
      try apply (split_space_first word more H).
    + unfold search_words. rewrite Hword, Hall. now destruct (split_space more).
    + unfold Legacy.search_words. rewrite Hword, Hall. now destruct (split_space more).
Qed.

Variables (tail second : string) (rest : list string)
  (search_type : value) (search_term : string).
Hypothesis Htail : split_space tail = second :: rest.
Hypothesis Hwords : search_words second rest = (search_type, search_term).

(** X16. A play command that searches, in the packaged client. When the
    search fails, the result is [False] with a message. Otherwise the
    artists found are passed over as long as their names, in lower case,
    differ from the search term in lower case, and the first artist with
    that name is played as a context, whatever follows it; if every artist
    has another name, the same goes for the albums; if every album has
    another name too, the first track with the name is played as a list of
    one uri; and when nothing has the name the result is [False] with a
    message that names the type and the term. *)
Theorem play_command_priority (s s1 : State Spotify) (results : option SearchResults) :
  do_search fuel search_term search_type true s = (Ok results, s1) ->
  let command := first ++ " " ++ tail in
  (results = None ->
   parse_play_command lower fuel device_id command s =
   (Ok (false, VStr "Failed to get any search results"), s1))
  /\ (forall found,
         results = Some found ->
         (forall before entry after uri,
             artists found = (before ++ entry :: after)%list ->
             Forall (named_otherwise lower search_term) before ->
             named lower search_term entry ->
             getitem (VDict (snd entry)) "uri" = Ok uri ->
             parse_play_command lower fuel device_id command s = play_context device_id uri s1)
         /\ (forall before entry after uri,
                Forall (named_otherwise lower search_term) (artists found) ->
                albums found = (before ++ entry :: after)%list ->
                Forall (named_otherwise lower search_term) before ->
                named lower search_term entry ->
                getitem (VDict (snd entry)) "uri" = Ok uri ->
                parse_play_command lower fuel device_id command s =
                play_context device_id uri s1)
         /\ (forall before entry after uri,
                Forall (named_otherwise lower search_term) (artists found) ->
                Forall (named_otherwise lower search_term) (albums found) ->
                tracks found = (before ++ entry :: after)%list ->
                Forall (named_otherwise lower search_term) before ->
                named lower search_term entry ->
                getitem (VDict (snd entry)) "uri" = Ok uri ->
                parse_play_command lower fuel device_id command s =
                play_uris device_id uri s1)
         /\ (Forall (named_otherwise lower search_term) (artists found) ->
             Forall (named_otherwise lower search_term) (albums found) ->
             Forall (named_otherwise lower search_term) (tracks found) ->
             parse_play_command lower fuel device_id command s =
             (Ok (false, VStr ("No result found for " ++ py_str search_type
                               ++ " '" ++ search_term ++ "'")), s1))).
Proof.
  intros Hsearch command. unfold command.
  rewrite (play_command_searches tail second rest search_type search_term Htail Hwords s).
  rewrite (bind_ok _ _ _ _ _ Hsearch). split.
  - intros Hnone. subst results. reflexivity.
  - intros found Hfound. subst results. unfold play_first_match, bind, lift.
    split; [| split; [| split]].
    + intros before entry after uri Hartists Hbefore Hentry Huri.
      now rewrite Hartists, (first_match_found _ _ _ _ after _ Hbefore Hentry Huri).
    + intros before entry after uri Hartists Halbums Hbefore Hentry Huri.
      rewrite (first_match_none _ _ _ Hartists).
      now rewrite Halbums, (first_match_found _ _ _ _ after _ Hbefore Hentry Huri).
    + intros before entry after uri Hartists Halbums Htracks Hbefore Hentry Huri.
      rewrite (first_match_none _ _ _ Hartists), (first_match_none _ _ _ Halbums).
      now rewrite Htracks, (first_match_found _ _ _ _ after _ Hbefore Hentry Huri).
    + intros Hartists Halbums Htracks.
      now rewrite (first_match_none _ _ _ Hartists), (first_match_none _ _ _ Halbums),
        (first_match_none _ _ _ Htracks).
Qed.

End PlayCommand.

(** A command whose first piece is not play. *)
Lemma play_command_without_search_witness :
  let s := Mock.start Mock.client_with_token Mock.tokens [] in
  parse_play_command (fun x => x) 1 "D2" "stop music" s =
  (Ok (false, VStr "Invalid command: stop music"), s).
Proof.
  intros s.
  destruct (play_command_without_search (fun x => x) 1 "D2") as (_ & H).
  refine (proj1 (H "stop" "music" eq_refl _) s). discriminate.
Defined.

(** The command names the type artist; the term has a space. *)
Lemma play_command_search_term_witness :
  let s := Mock.start Mock.client_with_token Mock.tokens [] in
  let s' := Mock.legacy_start Mock.legacy_client Mock.tokens [] in
  parse_play_command (fun x => x) 1 "D2" "play artist daft punk" s =
  (results <- do_search 1 "daft punk" (VList [VStr "artist"]) true ;;
   play_first_match (fun x => x) "D2" (VList [VStr "artist"]) "daft punk" results) s
  /\ Legacy.parse_play_command (fun x => x) 1 "D2" "play artist daft punk" s' =
     (results <- Legacy.do_search 1 "daft punk" (VStr "artist") true ;;
      Legacy.play_first_match (fun x => x) "D2" "daft punk" results) s'.
Proof.
  intros s s'.
  destruct (play_command_search_term (fun x => x) 1 "D2" "play" eq_refl eq_refl)
    as (_ & H & _).
  destruct (H "artist" "daft punk" eq_refl eq_refl) as [Hpackaged Hlegacy].
  split; [exact (Hpackaged s) | exact (Hlegacy s')].
Defined.

(** The search finds two artists; the second has the name and is played
    as a context. *)
Lemma play_command_priority_witness :
  let s := Mock.start Mock.client_with_token Mock.tokens
             [Scenes.two_artists; Mock.reply_text 204 ""] in
  fst (parse_play_command (fun x => x) 1 "D2" "play abba" s) = Ok (true, VStr "Success")
  /\ map req_json (sent (snd (parse_play_command (fun x => x) 1 "D2" "play abba" s))) =
     [None; Some [("context_uri", VStr "a:1")]].
Proof.
  intros s.
  assert (Hsearch : do_search 1 "abba" (VStr "artist,album,track") true s =
                    (Ok (Some {| artists := [(0, Pages.found "Beck" "a:2");
                                             (1, Pages.found "abba" "a:1")];
                                 albums := []; tracks := [] |}),
                     snd (do_search 1 "abba" (VStr "artist,album,track") true s)))
    by (vm_compute; reflexivity).
  destruct (play_command_priority (fun x => x) 1 "D2" "play" eq_refl eq_refl
              "abba" "abba" [] (VStr "artist,album,track") "abba" eq_refl eq_refl
              s _ _ Hsearch) as (_ & H).
  destruct (H _ eq_refl) as (Hartist & _).
  change "play abba" with ("play" ++ " " ++ "abba").
  rewrite (Hartist [(0, Pages.found "Beck" "a:2")] (1, Pages.found "abba" "a:1") []
             (VStr "a:1") eq_refl).
  - split; vm_compute; reflexivity.
  - repeat constructor. exists "Beck". split; [reflexivity | discriminate].
  - exists "abba". split; reflexivity.
  - reflexivity.
Defined.

(** ** The keys of a result set *)

Ltac obind_inv H :=
  repeat match type of H with
         | obind ?o _ = Ok _ =>
             lazymatch o with
             | set_field _ _ _ _ => fail
             | _ => let E := fresh "E" in
                    destruct o eqn:E; cbn [obind] in H; try discriminate
             end
         end.

(** Whatever the item is, an extractor that returns has added one record
    under the next key. *)
Lemma extractor_returns (k : kind) (item : value) (records : list pydict)
    (results : resultset) :
  extractor k item (keyed records) = Ok results ->
  exists record, results = keyed (records ++ [record]).
Proof.
  destruct k; cbn [extractor]; intros H.
  - unfold extract_artist in H. obind_inv H. rewrite open_record in H.
    rewrite set_field_last in H. cbn [obind] in H. rewrite set_field_last in H.
    inversion H. eexists. now rewrite keyed_snoc.
  - unfold extract_album in H. obind_inv H. rewrite open_record in H.
    rewrite set_field_last in H. cbn [obind] in H. rewrite set_field_last in H.
    cbn [obind] in H. rewrite set_field_last in H.
    inversion H. eexists. now rewrite keyed_snoc.
  - unfold extract_track in H. obind_inv H. rewrite open_record in H.
    rewrite set_field_last in H. cbn [obind] in H. rewrite set_field_last in H.
    cbn [obind] in H. rewrite set_field_last in H.
    inversion H. eexists. now rewrite keyed_snoc.
Qed.

Lemma extract_items_returns (k : kind) (items : list value) (records : list pydict)
    (results : resultset) :
  extract_items (extractor k) items (keyed records) = Ok results ->
  exists more, results = keyed (records ++ more)
               /\ List.length more = List.length items.
Proof.
  revert records. induction items as [| item items IH]; intros records H; simpl in H.
  - inversion H. exists []. now rewrite app_nil_r.
  - destruct (extractor k item (keyed records)) as [results1 | |] eqn:E;
      cbn [obind] in H; try discriminate.
    destruct (extractor_returns k item records results1 E) as (record & ->).
    destruct (IH _ H) as (more & -> & Hlen).
    exists (record :: more). rewrite <- app_assoc. split; [reflexivity | simpl; lia].
Qed.

Section DenseKeys.
Context `{RT : Runtime} {I : Type}.
Variable api_headers : M I (list (string * string)).

Lemma follow_pages_returns (k : kind) (fuel : nat) (field : string) (cursor : value)
    (records : list pydict) (s : State I) (results : resultset) (s' : State I) :
  follow_pages api_headers fuel field (extractor k) cursor (keyed records) s =
  (Ok results, s') ->
  exists more, results = keyed (records ++ more).
Proof.
  revert cursor records s. induction fuel as [| fuel IH]; intros cursor records s H.
  - cbn [follow_pages] in H. apply bind_inv_ok in H. destruct H as (c & s1 & _ & H).
    destruct c; [discriminate |]. inversion H. exists []. now rewrite app_nil_r.
  - cbn [follow_pages] in H. apply bind_inv_ok in H. destruct H as (c & s1 & _ & H).
    destruct c; [| inversion H; exists []; now rewrite app_nil_r].
    apply bind_inv_ok in H. destruct H as (headers & s2 & _ & H).
    apply bind_inv_ok in H. destruct H as (r & s3 & _ & H).
    destruct (negb (status_code r =? 200)).
    + apply bind_inv_ok in H. destruct H as (u & s4 & _ & H).
      inversion H. exists []. now rewrite app_nil_r.
    + apply bind_inv_ok in H. destruct H as (body & s4 & _ & H).
      apply bind_inv_ok in H. destruct H as (data & s5 & _ & H).
      apply bind_inv_ok in H. destruct H as (items & s6 & _ & H).
      apply bind_inv_ok in H. destruct H as (l & s7 & _ & H).
      apply bind_inv_ok in H. destruct H as (results1 & s8 & Hextract & H).
      apply bind_inv_ok in H. destruct H as (next_items & s9 & _ & H).
      unfold lift in Hextract. inversion Hextract as [[Hitems Hs]].
      destruct (extract_items_returns k l records results1 Hitems) as (more1 & -> & _).
      destruct (IH _ _ _ H) as (more2 & ->).
      exists (more1 ++ more2)%list. now rewrite app_assoc.
Qed.

Lemma paged_extract_returns (k : kind) (fuel : nat) (field : string) (data : value)
    (all_pages : bool) (s : State I) (results : resultset) (s' : State I) :
  paged_extract api_headers fuel field data all_pages (extractor k) s = (Ok results, s') ->
  exists records, results = keyed records.
Proof.
  unfold paged_extract. intros H.
  apply bind_inv_ok in H. destruct H as (items & s1 & _ & H).
  apply bind_inv_ok in H. destruct H as (l & s2 & _ & H).
  apply bind_inv_ok in H. destruct H as (results1 & s3 & Hextract & H).
  apply bind_inv_ok in H. destruct H as (next_items & s4 & _ & H).
  unfold lift in Hextract. inversion Hextract as [[Hitems Hs]].
  destruct (extract_items_returns k l [] results1 Hitems) as (more1 & -> & _).
  destruct all_pages.
  - destruct (follow_pages_returns k fuel field next_items _ _ _ _ H) as (more2 & ->).
    eauto.
  - inversion H. eauto.
Qed.

End DenseKeys.

(** X17. The keys of a result set are dense. Whatever the pages hold and
    however the paging ends, when [extract_data] returns a result set for
    one of the three extractors, its keys are 0, 1, 2, ... in the order of
    insertion, in both clients: no key is skipped and no record is
    overwritten. *)
Theorem extract_data_keys_dense `{RT : Runtime} (k : kind) (fuel : nat) (field : string)
    (data : value) (all_pages : bool) :
  (forall (s : State Spotify) results s',
      extract_data fuel field data all_pages (extractor k) s = (Ok results, s') ->
      map fst results = map Z.of_nat (seq 0 (List.length results)))
  /\ (forall (s : State Legacy.Spotify) results s',
         Legacy.extract_data fuel field data all_pages (extractor k) s = (Ok results, s') ->
         map fst results = map Z.of_nat (seq 0 (List.length results))).
Proof.
  split; intros s results s' H.
  - destruct (paged_extract_returns _ k fuel field data all_pages s results s' H)
      as (records & ->).
    unfold keyed. now rewrite keyed_from_keys, keyed_from_length.
  - destruct (paged_extract_returns _ k fuel field data all_pages s results s' H)
      as (records & ->).
    unfold keyed. now rewrite keyed_from_keys, keyed_from_length.
Qed.

(** Three pages of 2, 2 and 1 items give the keys 0 to 4. *)
Lemma extract_data_keys_dense_witness :
  let s := Mock.start Mock.client_with_token Mock.tokens [Pages.second; Pages.third] in
  map fst (match fst (extract_data 2 "artists" Pages.first true (extractor Artist) s) with
           | Ok results => results
           | _ => []
           end) = [0; 1; 2; 3; 4].
Proof.
  intros s.
  assert (H : extract_data 2 "artists" Pages.first true (extractor Artist) s =
              (Ok [(0, Pages.found "Abba" "a:1"); (1, Pages.found "Beck" "a:2");
                   (2, Pages.found "Cher" "a:3"); (3, Pages.found "Dido" "a:4");
                   (4, Pages.found "Enya" "a:5")],
               snd (extract_data 2 "artists" Pages.first true (extractor Artist) s)))
    by (vm_compute; reflexivity).
  rewrite H. cbn [fst].
  exact (proj1 (extract_data_keys_dense Artist 2 "artists" Pages.first true) s _ _ H).
Defined.

(** ** A search that succeeds *)

Section SearchSucceeds.
Context `{RT : Runtime}.

Lemma category_extracted {I : Type} (api_headers : M I (list (string * string)))
    (k : kind) (results_data : value) (field : string) (records : list pydict)
    (fuel : nat) (s : State I) :
  category_records k results_data field = Some records ->
  exists category,
    dict_get_default results_data field (VList []) = Ok category
    /\ (if truthy category then
          paged_extract api_headers fuel field category false (extractor k)
        else ret []) s = (Ok (keyed records), s).
Proof.
  unfold category_records. intros H.
  destruct (dict_get_default results_data field (VList [])) as [category | |];
    try discriminate.
  exists category. split; [reflexivity |].
  destruct (truthy category); [| inversion H; reflexivity].
  destruct (getitem category "items") as [[] | |] eqn:Hitems; try discriminate.
  destruct (getitem category "next") as [next_items | |] eqn:Hnext; try discriminate.
  now rewrite (paged_extract_first api_headers field k fuel category false l next_items
                 records s Hitems Hnext H).
Qed.

(** X18. A search without [all_pages] is one round trip. When the search is
    answered with 200 and each of the three categories of the body is
    missing, empty, or a page whose items have records, [search_tracks]
    returns the records of the three first pages, each keyed from 0, and
    the state is the one right after the search request: no cursor is
    followed. In both clients. *)
Theorem search_is_one_round_trip
    (fuel : nat) (search_term : string) (types : value) (limit : Z) (exact_match : bool)
    (headers : list (string * string)) (r : Response) (results_data : value)
    (found_artists found_albums found_tracks : list pydict) :
  status_code r = 200 ->
  json r = Some results_data ->
  category_records Artist results_data "artists" = Some found_artists ->
  category_records Album results_data "albums" = Some found_albums ->
  category_records Track results_data "tracks" = Some found_tracks ->
  let found := {| artists := keyed found_artists;
                  albums := keyed found_albums;
                  tracks := keyed found_tracks |} in
  (forall (s s1 s2 : State Spotify) q,
      search_query search_term types exact_match = Ok q ->
      _get_api_headers s = (Ok headers, s1) ->
      request (search_request q types limit headers) s1 = (Ok r, s2) ->
      search_tracks fuel search_term types limit exact_match false s = (Ok (Some found), s2))
  /\ (forall (s s1 s2 : State Legacy.Spotify),
         Legacy._get_api_headers s = (Ok headers, s1) ->
         request (search_request (Legacy.search_query search_term exact_match)
                                 types limit headers) s1 = (Ok r, s2) ->
         Legacy.search_tracks fuel search_term types limit exact_match false s =
         (Ok (Some found), s2)).
Proof.
  intros Hstatus Hjson Hartists Halbums Htracks found. split.
  - intros s s1 s2 q Hq Hheaders Hrequest. unfold search_tracks.
    unfold bind at 1. unfold lift at 1. rewrite Hq.
    rewrite (bind_ok _ _ _ _ _ Hheaders), (bind_ok _ _ _ _ _ Hrequest), Hstatus.
    cbn [Z.eqb Pos.eqb negb]. unfold json_of. rewrite Hjson.
    unfold bind at 1. unfold ret at 1.
    destruct (category_extracted _get_api_headers Artist results_data "artists" _ fuel s2
                Hartists) as (ca & -> & Ea).
    destruct (category_extracted _get_api_headers Album results_data "albums" _ fuel s2
                Halbums) as (cb & -> & Eb).
    destruct (category_extracted _get_api_headers Track results_data "tracks" _ fuel s2
                Htracks) as (ct & -> & Et).
    unfold bind at 1. unfold lift at 1. unfold bind at 1. unfold lift at 1.
    unfold bind at 1. unfold lift at 1.
    unfold extract_category, extract_data.
    cbn [extractor] in Ea, Eb, Et.
    rewrite (bind_ok _ _ _ _ _ Ea), (bind_ok _ _ _ _ _ Eb), (bind_ok _ _ _ _ _ Et).
    reflexivity.
  - intros s s1 s2 Hheaders Hrequest. unfold Legacy.search_tracks.
    rewrite (bind_ok _ _ _ _ _ Hheaders), (bind_ok _ _ _ _ _ Hrequest), Hstatus.
    cbn [Z.eqb Pos.eqb negb]. unfold json_of. rewrite Hjson.
    unfold bind at 1. unfold ret at 1.
    destruct (category_extracted Legacy._get_api_headers Artist results_data "artists" _
                fuel s2 Hartists) as (ca & -> & Ea).
    destruct (category_extracted Legacy._get_api_headers Album results_data "albums" _
                fuel s2 Halbums) as (cb & -> & Eb).
    destruct (category_extracted Legacy._get_api_headers Track results_data "tracks" _
                fuel s2 Htracks) as (ct & -> & Et).
    unfold bind at 1. unfold lift at 1. unfold bind at 1. unfold lift at 1.
    unfold bind at 1. unfold lift at 1.
    unfold Legacy.extract_category, Legacy.extract_data.
    cbn [extractor] in Ea, Eb, Et.
    rewrite (bind_ok _ _ _ _ _ Ea), (bind_ok _ _ _ _ _ Eb), (bind_ok _ _ _ _ _ Et).
    reflexivity.
Qed.

Lemma join_mapped (sep : string) (f : value -> string) (l : list value) :
  join sep (map (fun t => VStr (f t)) l) = Ok (String.concat sep (map f l)).
Proof.
  rewrite <- (join_strings sep (map f l)). now rewrite map_map.
Qed.

(** X19. The query of an exact search, in the packaged client, has one term
    [t:search_term] for each thing that iterating over [types] gives,
    joined by spaces: one for each type when [types] is a list of strings,
    but one for each character, commas included, when [types] is a string
    such as the default of [do_search]. Without [exact_match] the query is
    the search term. *)
Theorem exact_query_terms (search_term : string) :
  (forall types : list string,
      search_query search_term (VList (map VStr types)) true =
      Ok (String.concat " " (map (fun t => t ++ ":" ++ search_term) types)))
  /\ (forall types : string,
         search_query search_term (VStr types) true =
         Ok (String.concat " "
               (map (fun c => String c "" ++ ":" ++ search_term)
                    (list_ascii_of_string types))))
  /\ (forall types, search_query search_term types false = Ok search_term).
Proof.
  split; [| split].
  - intros types. unfold search_query. cbn [py_iter obind].
    rewrite join_mapped. now rewrite map_map.
  - intros types. unfold search_query. cbn [py_iter obind].
    rewrite join_mapped.
    assert (E : map (fun t => py_str t ++ ":" ++ search_term) (chars types) =
                map (fun c => String c "" ++ ":" ++ search_term)
                    (list_ascii_of_string types)).
    { induction types as [| c types IH]; [reflexivity |].
      cbn [chars list_ascii_of_string map]. now rewrite IH. }
    now rewrite E.
  - reflexivity.
Qed.

End SearchSucceeds.

(** One artist is found; the other categories are missing. *)
Lemma search_is_one_round_trip_witness :
  let s := Mock.start Mock.client_with_token Mock.tokens [Scenes.search_answer] in
  fst (search_tracks 0 "abba" (VList [VStr "artist"]) 50 true false s) =
  Ok (Some {| artists := [(0, Pages.found "abba" "a:1")]; albums := []; tracks := [] |}).
Proof.
  intros s.
  assert (Hheaders : _get_api_headers s = (Ok [("Authorization", "Bearer T")], s))
    by (vm_compute; reflexivity).
  assert (Hreq : request (search_request "artist:abba" (VList [VStr "artist"]) 50
                            [("Authorization", "Bearer T")]) s =
                 (Ok Scenes.search_answer,
                  snd (request (search_request "artist:abba" (VList [VStr "artist"]) 50
                                  [("Authorization", "Bearer T")]) s)))
    by (vm_compute; reflexivity).
  destruct (search_is_one_round_trip 0 "abba" (VList [VStr "artist"]) 50 true
              [("Authorization", "Bearer T")] Scenes.search_answer
              (VDict [("artists", Pages.page [Pages.artist "abba" "a:1"] VNone)])
              [Pages.found "abba" "a:1"] [] [] eq_refl eq_refl eq_refl eq_refl eq_refl)
    as (H & _).
  rewrite (H s s _ "artist:abba" eq_refl Hheaders Hreq). reflexivity.
Defined.

(** ** The history with all its data *)

Lemma sget_sset_same (k : string) (v : value) (d : pydict) :
  sget k (sset k v d) = Some v.
Proof.
  unfold sget, sset. induction d as [| [k' v'] d IH]; simpl.
  - now rewrite String.eqb_refl.
  - destruct (String.eqb k k') eqn:E; simpl; rewrite ?E; [reflexivity | exact IH].
Qed.

Lemma sget_sset_other (k k' : string) (v : value) (d : pydict) :
  k' <> k -> sget k' (sset k v d) = sget k' d.
Proof.
  unfold sget, sset. intros Hk. apply String.eqb_neq in Hk.
  induction d as [| [k0 v0] d IH]; simpl.
  - now rewrite Hk.
  - destruct (String.eqb k k0) eqn:E; simpl.
    + apply String.eqb_eq in E. subst k0. now rewrite Hk.
    + destruct (String.eqb k' k0); [reflexivity | exact IH].
Qed.

Section AllData.
Context `{RT : Runtime}.

Lemma annotate_item_annotates (item : value) (t : Z) (friendly : string) :
  dated item t friendly ->
  exists item', annotate_item item = Ok item' /\ annotated item item'.
Proof.
  intros (played_at & Hplayed & Hparse & Hformat).
  destruct item as [| | | | | d |]; try discriminate.
  exists (VDict (sset "played_at_friendly" (VStr friendly)
                      (sset "played_at_datetime" (VDatetime t) d))).
  split.
  - unfold annotate_item. rewrite Hplayed. cbn [obind]. rewrite Hparse. cbn [obind setitem].
    rewrite Hformat. reflexivity.
  - exists t, friendly. split; [now exists played_at |].
    unfold getitem. split; [| split].
    + rewrite sget_sset_other by discriminate. now rewrite sget_sset_same.
    + now rewrite sget_sset_same.
    + intros k Hk1 Hk2. now rewrite !sget_sset_other by assumption.
Qed.

Lemma annotate_items_annotate (items : list value) :
  Forall (fun item => exists t friendly, dated item t friendly) items ->
  exists items', annotate_items items = Ok items' /\ Forall2 annotated items items'.
Proof.
  induction 1 as [| item items (t & friendly & Hdated) _ (items' & Hitems & Hall)].
  - exists []. split; [reflexivity | constructor].
  - destruct (annotate_item_annotates item t friendly Hdated) as (item' & Hitem & Hann).
    exists (item' :: items'). simpl. rewrite Hitem. cbn [obind]. rewrite Hitems.
    split; [reflexivity | now constructor].
Qed.

(** X20. [get_recently_played] with [all_data], in the packaged client.
    When the history is answered with a status other than 401 and a list
    of items whose [played_at] the date functions accept, the result has
    no error and holds the items in the order received, each with the
    fields [played_at_datetime] and [played_at_friendly] added and every
    other field as it was received. *)
Theorem all_data_keeps_the_items
    (as_json : bool) (headers : list (string * string)) (r : Response)
    (recent_data : value) (items : list value) (s s1 s2 : State Spotify) :
  get_user_api_headers s = (Ok headers, s1) ->
  request (recently_played_request headers) s1 = (Ok r, s2) ->
  status_code r <> 401 ->
  json r = Some recent_data ->
  getitem recent_data "items" = Ok (VList items) ->
  Forall (fun item => exists t friendly, dated item t friendly) items ->
  exists items',
    get_recently_played as_json true s = (Ok (VNone, Items (VList items')), s2)
    /\ Forall2 annotated items items'.
Proof.
  intros Hheaders Hrequest Hstatus Hjson Hitems Hdated.
  destruct (annotate_items_annotate items Hdated) as (items' & Hannotate & Hall).
  exists items'. split; [| exact Hall].
  apply Z.eqb_neq in Hstatus. unfold get_recently_played.
  rewrite (bind_ok _ _ _ _ _ Hheaders), (bind_ok _ _ _ _ _ Hrequest), Hstatus.
  unfold json_of. rewrite Hjson. unfold bind, ret, lift. rewrite Hitems. cbn [py_iter].
  now rewrite Hannotate.
Qed.

End AllData.

(** One item of the history, in a world whose date functions accept it. *)
Lemma all_data_keeps_the_items_witness :
  let item := VDict [("played_at", VStr "2024-01-01T10:00:00.000Z"); ("track", VStr "t")] in
  let s := @mkState Scenes.dated_runtime Spotify Mock.client_with_token
             (Mock.mkWorld 1000 Mock.tokens
                [Mock.reply 200 (VDict [("items", VList [item])])]) [] [] in
  exists items',
    fst (@get_recently_played Scenes.dated_runtime false true s) =
    Ok (VNone, Items (VList items'))
    /\ Forall2 (@annotated Scenes.dated_runtime) [item] items'.
Proof.
  intros item s.
  assert (Hheaders : @get_user_api_headers Scenes.dated_runtime s =
                     (Ok [("Authorization", "Bearer T")], s)) by (vm_compute; reflexivity).
  assert (Hreq : @request Scenes.dated_runtime Spotify
                   (recently_played_request [("Authorization", "Bearer T")]) s =
                 (Ok (Mock.reply 200 (VDict [("items", VList [item])])),
                  snd (@request Scenes.dated_runtime Spotify
                         (recently_played_request [("Authorization", "Bearer T")]) s)))
    by (vm_compute; reflexivity).
  assert (Hstatus : status_code (Mock.reply 200 (VDict [("items", VList [item])])) <> 401)
    by (cbn; lia).
  assert (Hdated : Forall (fun i => exists t friendly,
                               @dated Scenes.dated_runtime i t friendly) [item]).
  { repeat constructor. exists 0, "1 Jan 1970 00:00".
    exists (VStr "2024-01-01T10:00:00.000Z"). repeat split. }
  destruct (@all_data_keeps_the_items Scenes.dated_runtime false _ _ _ [item] s s _
              Hheaders Hreq Hstatus eq_refl eq_refl Hdated) as (items' & E & Hall).
  exists items'. rewrite E. split; [reflexivity | exact Hall].
Defined.

(** ** A command with a usable token *)

Section UsableToken.
Context `{RT : Runtime}.

(** X21. With a refresh token and a usable cached token, a command that is
    answered with 204 costs one request: [submit_command] sends the
    command with the verb of the method, the address of the player
    resource, the given parameters and the cached token as bearer, and
    returns [(True, 'Success')]; the instance is as before. *)
Theorem command_with_usable_token
    (method command : string) (v : verb) (qp bp : option pydict) (has_retried : bool)
    (s s1 : State Spotify) (rt : string) (r : Response) :
  dict_get String.eqb method METHODS = Some v ->
  usable s ->
  refresh_token (self s) = Some rt ->
  let q := command_request v command qp bp
             [("Authorization", "Bearer " ++ py_str (access_token (self s)))] in
  request q s = (Ok r, s1) ->
  status_code r = 204 ->
  submit_command method command qp bp has_retried s = (Ok (true, VStr "Success"), s1)
  /\ sent s1 = (sent s ++ [q])%list
  /\ self s1 = self s.
Proof.
  intros Hv Husable Hrt q Hrequest H204.
  assert (Hattempt : attempt v command qp bp s = (Ok r, s1)).
  { now rewrite (attempt_with_usable_token v command qp bp s rt Husable Hrt). }
  assert (Hterminal : terminal (attempt v command qp bp) has_retried s r s1).
  { apply terminal_last; [exact Hattempt |]. now rewrite H204. }
  split; [| split].
  - rewrite (submit_command_terminal method command v qp bp Hv has_retried s r s1 Hterminal).
    unfold conclude, bind, ret, ok. now rewrite H204.
  - now rewrite (request_state _ _ _ _ Hrequest).
  - now rewrite (request_state _ _ _ _ Hrequest).
Qed.

End UsableToken.

(** Pausing with the cached token [T]. *)
Lemma command_with_usable_token_witness :
  let s := Mock.start Mock.client_with_token Mock.tokens [Mock.reply_text 204 ""] in
  let qp := Some [("device_id", VStr "D")] in
  fst (submit_command "put" "pause" qp None false s) = Ok (true, VStr "Success")
  /\ sent (snd (submit_command "put" "pause" qp None false s)) =
     [command_request PUT "pause" qp None [("Authorization", "Bearer T")]].
Proof.
  intros s qp.
  assert (Husable : usable s).
  { split; [discriminate | exists 5000; split; [reflexivity | cbn; lia]]. }
  assert (Hreq : request (command_request PUT "pause" qp None
                            [("Authorization",
                              "Bearer " ++ py_str (access_token (self s)))]) s =
                 (Ok (Mock.reply_text 204 ""),
                  snd (request (command_request PUT "pause" qp None
                                  [("Authorization", "Bearer T")]) s)))
    by (vm_compute; reflexivity).
  destruct (command_with_usable_token "put" "pause" PUT qp None false s _ "refresh" _
              eq_refl Husable eq_refl Hreq eq_refl) as (E & Hsent & _).
  rewrite E. split; [reflexivity | exact Hsent].
Defined.
